(** * SensoSysDataSource: a shallow embedding of [SensoSysDataSource.py]

    The Python class [SensoSysDataSource] configures a serial bus of
    SensoSys instruments (anemometers, thermometers, hygrometer/barometers),
    scans it for devices and reads one measurement row per cycle.

    The embedding follows the source function by function.  Python values
    are a small tagged union, a Python [dict] is an insertion-ordered
    association list, exceptions and [sys.exit] are outcomes of a
    state-and-error monad, and the serial driver [SensoSysDevices] (which is
    not part of this file of the repository) is a record of operations on an
    abstract bus state.

    Strings are Rocq [string]s.  The text operations ([upper], [lower],
    [strip], [int], the digit class of [strptime]) are those of Python on
    ASCII text, that is on a [str] for which [isascii()] holds; a statement
    that holds of the program for such text only says so with the
    hypothesis [Py.isascii]. *)

From Stdlib Require Import ZArith List String Ascii Bool Lia Sorted.
From Stdlib Require Import DecimalString DecimalPos.
Import ListNotations.

Open Scope string_scope.
Open Scope list_scope.
Open Scope Z_scope.

(* ===================================================================== *)
(** * Python values, strings and dicts *)
(* ===================================================================== *)

Module Py.

(** A Python object as the program handles it.  [VFloat m e] is the decimal
    literal [m * 10^e] (the program stores and passes floats, it never
    computes with them). *)
Inductive value : Type :=
| VNone
| VBool (b : bool)
| VInt (z : Z)
| VFloat (m e : Z)
| VStr (s : string).

Definition value_eq_dec (a b : value) : {a = b} + {a <> b}.
Proof.
  decide equality; try apply Z.eq_dec; try apply string_dec; apply bool_dec.
Defined.

Definition value_eqb (a b : value) : bool :=
  if value_eq_dec a b then true else false.

(** ** Characters *)

Definition code (c : ascii) : nat := nat_of_ascii c.

Definition is_digit (c : ascii) : bool :=
  (48 <=? code c)%nat && (code c <=? 57)%nat.

Definition digit_val (c : ascii) : Z := Z.of_nat (code c - 48).

(** The white space of ASCII that [str.strip] removes ([str.isspace]): TAB,
    LF, VT, FF, CR, the four separators 0x1c-0x1f and the space.  (Outside
    ASCII Python has more white space, U+0085 and U+00A0 among it.) *)
Definition is_space (c : ascii) : bool :=
  ((9 <=? code c)%nat && (code c <=? 13)%nat)
  || ((28 <=? code c)%nat && (code c <=? 32)%nat).

(** The white space that [int] ignores around an ASCII numeral: TAB, LF,
    VT, FF, CR and the space, not the separators 0x1c-0x1f. *)
Definition is_int_space (c : ascii) : bool :=
  ((9 <=? code c)%nat && (code c <=? 13)%nat) || (code c =? 32)%nat.

(** [str.upper] on a character of ASCII: the letters a-z.  (Outside ASCII
    Python maps more letters, some of them to two characters.) *)
Definition upper_char (c : ascii) : ascii :=
  if (97 <=? code c)%nat && (code c <=? 122)%nat
  then ascii_of_nat (code c - 32) else c.

(** [str.lower] on a character of ASCII: the letters A-Z. *)
Definition lower_char (c : ascii) : ascii :=
  if (65 <=? code c)%nat && (code c <=? 90)%nat
  then ascii_of_nat (code c + 32) else c.

(** ** Strings *)

(** [s.isascii()]: every character of the text is in ASCII. *)
Fixpoint isascii (s : string) : bool :=
  match s with
  | EmptyString => true
  | String c s' => (code c <? 128)%nat && isascii s'
  end.

Fixpoint smap (f : ascii -> ascii) (s : string) : string :=
  match s with
  | EmptyString => EmptyString
  | String c s' => String (f c) (smap f s')
  end.

(** [s.upper()] and [s.lower()], for ASCII text *)
Definition upper (s : string) : string := smap upper_char s.
Definition lower (s : string) : string := smap lower_char s.

Fixpoint lstrip (s : string) : string :=
  match s with
  | EmptyString => EmptyString
  | String c s' => if is_space c then lstrip s' else s
  end.

(** Removes trailing white space; [rstrip] returns the empty string for a
    string of white space only. *)
Fixpoint rstrip (s : string) : string :=
  match s with
  | EmptyString => EmptyString
  | String c s' =>
      match rstrip s' with
      | EmptyString => if is_space c then EmptyString else String c EmptyString
      | r => String c r
      end
  end.

(** [s.strip()], for ASCII text *)
Definition strip (s : string) : string := rstrip (lstrip s).

(** [s.startswith(p)] *)
Definition startswith (s p : string) : bool := String.prefix p s.

(** ** [str(int)] and [int(str)] *)

(** [str(z)] for an integer: decimal digits, a leading minus sign for
    negative numbers. *)
Definition str_of_int (z : Z) : string :=
  NilZero.string_of_int (Z.to_int z).

(** The digits of an integer literal, most significant first, with single
    underscores allowed between digits (PEP 515). [seen] tells whether the
    previous character was a digit. *)
Fixpoint int_digits (s : string) (acc : Z) (seen : bool) : option Z :=
  match s with
  | EmptyString => if seen then Some acc else None
  | String c s' =>
      if is_digit c then int_digits s' (10 * acc + digit_val c) true
      else if Ascii.eqb c "_"%char && seen then int_digits s' acc false
      else None
  end.

(** The characters of the class [p] removed at the start and at the end of
    a text *)
Fixpoint ltrim (p : ascii -> bool) (s : string) : string :=
  match s with
  | EmptyString => EmptyString
  | String c s' => if p c then ltrim p s' else s
  end.

Fixpoint rtrim (p : ascii -> bool) (s : string) : string :=
  match s with
  | EmptyString => EmptyString
  | String c s' =>
      match rtrim p s' with
      | EmptyString => if p c then EmptyString else String c EmptyString
      | r => String c r
      end
  end.

(** [int(s)] for an ASCII string, in base 10: the white space of [int]
    around the numeral is ignored, then an optional sign, then the digits.
    [None] stands for the [ValueError] "invalid literal for int()". *)
Definition int_of_str (s : string) : option Z :=
  match rtrim is_int_space (ltrim is_int_space s) with
  | String "-"%char s' => option_map Z.opp (int_digits s' 0 false)
  | String "+"%char s' => int_digits s' 0 false
  | s' => int_digits s' 0 false
  end.

(** ** Dicts: insertion-ordered association lists *)

Section Dict.
Context {V : Type}.

Definition dict := list (string * V).

Definition keys (d : dict) : list string := map fst d.

(** [d.get(k)]; [None] when the key is absent *)
Fixpoint get (k : string) (d : dict) : option V :=
  match d with
  | [] => None
  | (k', v) :: d' => if String.eqb k k' then Some v else get k d'
  end.

(** [d[k] = v]: an existing key keeps its position, a new key goes last *)
Fixpoint set_item (k : string) (v : V) (d : dict) : dict :=
  match d with
  | [] => [(k, v)]
  | (k', v') :: d' =>
      if String.eqb k k' then (k', v) :: d' else (k', v') :: set_item k v d'
  end.

(** [d.update(e)] *)
Definition update (d e : dict) : dict :=
  fold_left (fun acc kv => set_item (fst kv) (snd kv) acc) e d.

Definition mem (k : string) (d : dict) : bool :=
  existsb (String.eqb k) (keys d).

(** [set(d.keys()) == set(e.keys())] *)
Definition same_key_set (d e : dict) : bool :=
  forallb (fun k => mem k e) (keys d) && forallb (fun k => mem k d) (keys e).
End Dict.

Arguments dict : clear implicits.

End Py.

(* ===================================================================== *)
(** * [datetime.strptime] and [strftime] for numeric date formats *)
(* ===================================================================== *)

(** The part of CPython's [_strptime] that the program uses: a format is
    turned into a regular expression, one named group per directive,

      - [%d]  [3[0-1]|[1-2]\d|0[1-9]|[1-9]| [1-9]]
      - [%m]  [1[0-2]|0[1-9]|[1-9]]
      - [%y]  [\d\d]
      - [%Y]  [\d\d\d\d]

    every other character of the format stands for itself.  The expression
    is matched at the start of the text with the alternatives tried in
    order (backtracking); text left over after the match, a text that does
    not match and a day that the month does not have are all [ValueError]. *)

Module Strptime.

Inductive cclass : Type :=
| CDigit                       (* \d *)
| CRange (lo hi : ascii)       (* [lo-hi] *)
| CChar (c : ascii).

Definition in_class (k : cclass) (c : ascii) : bool :=
  match k with
  | CDigit => Py.is_digit c
  | CRange lo hi => (Py.code lo <=? Py.code c)%nat && (Py.code c <=? Py.code hi)%nat
  | CChar c' => Ascii.eqb c c'
  end.

(** The alternatives of a group, in the order the regular expression lists
    them. *)
Definition re_d : list (list cclass) :=
  [ [CChar "3"; CRange "0" "1"];
    [CRange "1" "2"; CDigit];
    [CChar "0"; CRange "1" "9"];
    [CRange "1" "9"];
    [CChar " "; CRange "1" "9"] ].

Definition re_m : list (list cclass) :=
  [ [CChar "1"; CRange "0" "2"];
    [CChar "0"; CRange "1" "9"];
    [CRange "1" "9"] ].

Definition re_y : list (list cclass) := [ [CDigit; CDigit] ].

Definition re_Y : list (list cclass) := [ [CDigit; CDigit; CDigit; CDigit] ].

Inductive directive : Type := DDay | DMonth | DYear2 | DYear4.

Inductive ftok : Type :=
| FDir (d : directive)
| FLit (c : ascii).

Definition regex_of (d : directive) : list (list cclass) :=
  match d with
  | DDay => re_d
  | DMonth => re_m
  | DYear2 => re_y
  | DYear4 => re_Y
  end.

(** Reads a format string; [None] for a directive or a character (white
    space, regular-expression operators other than the dot) outside the
    modelled fragment. *)
Fixpoint parse_format (f : string) : option (list ftok) :=
  match f with
  | EmptyString => Some []
  | String "%"%char (String c f') =>
      let dir := if Ascii.eqb c "d" then Some DDay
                 else if Ascii.eqb c "m" then Some DMonth
                 else if Ascii.eqb c "y" then Some DYear2
                 else if Ascii.eqb c "Y" then Some DYear4
                 else None in
      match dir, parse_format f' with
      | Some d, Some t => Some (FDir d :: t)
      | _, _ => None
      end
  | String c f' =>
      if Ascii.eqb c "-" || Ascii.eqb c "." || Ascii.eqb c "/" || Ascii.eqb c ":"
      then option_map (cons (FLit c)) (parse_format f')
      else None
  end.

(** Matches a sequence of character classes at the start of [s]; returns
    the matched text and the rest. *)
Fixpoint match_seq (ks : list cclass) (s : string) : option (string * string) :=
  match ks with
  | [] => Some (EmptyString, s)
  | k :: ks' =>
      match s with
      | EmptyString => None
      | String c s' =>
          if in_class k c then
            match match_seq ks' s' with
            | Some (m, r) => Some (String c m, r)
            | None => None
            end
          else None
      end
  end.

(** All the alternatives that match at the start of [s], in order. *)
Fixpoint alts_matches (alts : list (list cclass)) (s : string)
  : list (string * string) :=
  match alts with
  | [] => []
  | a :: alts' =>
      match match_seq a s with
      | Some mr => mr :: alts_matches alts' s
      | None => alts_matches alts' s
      end
  end.

Fixpoint first_some {A B : Type} (f : A -> option B) (l : list A) : option B :=
  match l with
  | [] => None
  | a :: l' => match f a with Some b => Some b | None => first_some f l' end
  end.

(** The groups found so far. *)
Record groups : Type := mkGroups {
  g_d : option string;
  g_m : option string;
  g_y : option string;
  g_Y : option string }.

Definition no_groups : groups := mkGroups None None None None.

Definition set_group (d : directive) (m : string) (g : groups) : groups :=
  match d with
  | DDay => mkGroups (Some m) (g_m g) (g_y g) (g_Y g)
  | DMonth => mkGroups (g_d g) (Some m) (g_y g) (g_Y g)
  | DYear2 => mkGroups (g_d g) (g_m g) (Some m) (g_Y g)
  | DYear4 => mkGroups (g_d g) (g_m g) (g_y g) (Some m)
  end.

(** [format_regex.match(data_string)]: the first way to match the whole
    format, with the text that follows the match. *)
Fixpoint match_toks (toks : list ftok) (s : string) (g : groups)
  : option (groups * string) :=
  match toks with
  | [] => Some (g, s)
  | FLit c :: t =>
      match s with
      | String c' s' => if Ascii.eqb c' c then match_toks t s' g else None
      | EmptyString => None
      end
  | FDir d :: t =>
      first_some (fun mr => match_toks t (snd mr) (set_group d (fst mr) g))
                 (alts_matches (regex_of d) s)
  end.

Record date : Type := mkDate { year : Z; month : Z; day : Z }.

Definition is_leap (y : Z) : bool :=
  (y mod 4 =? 0) && (negb (y mod 100 =? 0) || (y mod 400 =? 0)).

Definition days_in_month (y m : Z) : Z :=
  if m =? 2 then (if is_leap y then 29 else 28)
  else if (m =? 4) || (m =? 6) || (m =? 9) || (m =? 11) then 30
  else 31.

(** [datetime.date(y, m, d)] raises [ValueError] outside these bounds. *)
Definition valid_date (dt : date) : bool :=
  (1 <=? year dt) && (year dt <=? 9999) &&
  (1 <=? month dt) && (month dt <=? 12) &&
  (1 <=? day dt) && (day dt <=? days_in_month (year dt) (month dt)).

Definition group_int (default : Z) (g : option string) : option Z :=
  match g with
  | None => Some default
  | Some m => Py.int_of_str m
  end.

(** The year of the groups: [%Y] as it is, [%y] by the POSIX rule (00-68
    are 2000-2068, 69-99 are 1969-1999), 1900 when the format has no
    year. *)
Definition year_of (g : groups) : option Z :=
  match g_y g, g_Y g with
  | Some yy, _ =>
      match Py.int_of_str yy with
      | Some y => Some (if y <=? 68 then y + 2000 else y + 1900)
      | None => None
      end
  | None, Y => group_int 1900 Y
  end.

(** [datetime.strptime(s, fmt)] restricted to its date; [None] is the
    [ValueError] of an unsuccessful parse. *)
Definition strptime (s fmt : string) : option date :=
  match parse_format fmt with
  | None => None
  | Some toks =>
      match match_toks toks s no_groups with
      | Some (g, EmptyString) =>
          match year_of g, group_int 1 (g_m g), group_int 1 (g_d g) with
          | Some y, Some m, Some d =>
              let dt := mkDate y m d in
              if valid_date dt then Some dt else None
          | _, _, _ => None
          end
      | _ => None
      end
  end.

(** Zero padding to a width, for non-negative numbers. *)
Fixpoint zeros (n : nat) : string :=
  match n with
  | O => EmptyString
  | S n' => String "0" (zeros n')
  end.

Definition pad (width : nat) (z : Z) : string :=
  let s := Py.str_of_int z in
  (zeros (width - String.length s) ++ s)%string.

Definition strftime_dir (d : directive) (dt : date) : string :=
  match d with
  | DDay => pad 2 (day dt)
  | DMonth => pad 2 (month dt)
  | DYear2 => pad 2 (year dt mod 100)
  | DYear4 => pad 4 (year dt)
  end.

Fixpoint strftime_toks (toks : list ftok) (dt : date) : string :=
  match toks with
  | [] => EmptyString
  | FLit c :: t => String c (strftime_toks t dt)
  | FDir d :: t => (strftime_dir d dt ++ strftime_toks t dt)%string
  end.

(** [dt.strftime(fmt)] *)
Definition strftime (dt : date) (fmt : string) : string :=
  match parse_format fmt with
  | Some toks => strftime_toks toks dt
  | None => EmptyString
  end.

End Strptime.

(* ===================================================================== *)
(** * Exceptions, process exit and observable effects *)
(* ===================================================================== *)

Module Eff.

Import Py.

(** The exceptions the program can meet.  None of them is caught by the
    program except the [ValueError] of [strptime]. *)
Inductive exn : Type :=
| InvalidInstrumentName (name : string)  (* ValueError("Invalid instrument name ...") *)
| InvalidIntLiteral (v : value)          (* ValueError of int(...) *)
| TypeError (what : string)
| AttributeError (what : string)
| KeyError (key : value)
| FileNotFoundError (path : string)
| EOFError.

(** The result of code without effects: a value or an exception. *)
Inductive res (A : Type) : Type :=
| Val (a : A)
| Err (e : exn).

Arguments Val {A} a.
Arguments Err {A} e.

Definition rbind {A B : Type} (r : res A) (k : A -> res B) : res B :=
  match r with
  | Val a => k a
  | Err e => Err e
  end.

(** How a computation with effects ends: with a value, with an exception
    that nobody caught, or in [sys.exit(code)]. *)
Inductive outcome (A : Type) : Type :=
| Ok (a : A)
| Raise (e : exn)
| Exit (code : Z).

Arguments Ok {A} a.
Arguments Raise {A} e.
Arguments Exit {A} code.

(** The exit status of the process: that of [sys.exit], 1 after an
    exception that nobody caught, 0 at the normal end. *)
Definition process_status {A : Type} (o : outcome A) : Z :=
  match o with
  | Ok _ => 0
  | Raise _ => 1
  | Exit c => c
  end.

(** A document read by [Auxiliary.load_json]: a scalar, an array of
    scalars or an object of scalars. *)
Inductive json : Type :=
| JValue (v : value)
| JList (l : list value)
| JDict (d : dict value).

(** A document written by [Auxiliary.dump_json]. *)
Inductive dumped : Type :=
| DConfigs (d : dict value)
| DDevices (d : dict (dict value)).

Inductive level : Type := INFO | WARNING | ERROR.

(** [logger] is the logger 'SensoSys' of the module, [logging] the root
    logger. *)
Inductive logger_name : Type := SensoSysLogger | RootLogger.

(** The messages of the program, one constructor per logging call. *)
Inductive message : Type :=
| MInitializing
| MNoOutputDir
| MOutputDir (dir : string)
| MGuideSucceeded
| MGuideFailed
| MFileSucceeded
| MFileFailed
| MInitSensoSys (configs : dict value)
| MFoundDevices (devices : dict (dict value)) (n : nat)
| MNoDevicesFound
| MExitingManually
| MSavingDevices (dir file : string)
| MConfiguringByGuide
| MSetPort (port : value)
| MPortUnavailable (port : value)
| MSavingConfigs (dir file : string)
| MConfiguringByFile (file : string)
| MInvalidKeys (file : string)
| MInvalidFileName (file : string)
| MScanningAddress (id : Z)
| MFoundDevice (id : Z) (name : string)
| MNoData (id : Z) (name : string)
| MScanningPorts
| MNoPorts
| MFoundPorts (ports : list string)
| MInvalidInput (s : string).

(** What the process does to the outside, in order. *)
Inductive event : Type :=
| Log (l : logger_name) (lv : level) (m : message)
| Prompt (text : string)
| MakeDirs (dir : string)
| DumpJson (dir file : string) (content : dumped)
| PopSystemDeviceManagement
| OpenSerial (port time_out : value)
| CsvHeader (headers : list string)
| CsvRow (row : list value).

Section World.
(** [B] is the state of the serial bus and of the instruments on it. *)
Variable B : Type.

Record world : Type := mkWorld {
  bus : B;                 (* the instruments *)
  stdin : list string;     (* the lines the user will type *)
  trace : list event       (* what happened so far, oldest first *)
  }.

Definition M (A : Type) : Type := world -> outcome A * world.

Definition ret {A : Type} (a : A) : M A := fun w => (Ok a, w).

Definition bind {A C : Type} (m : M A) (k : A -> M C) : M C :=
  fun w =>
    match m w with
    | (Ok a, w') => k a w'
    | (Raise e, w') => (Raise e, w')
    | (Exit c, w') => (Exit c, w')
    end.

Definition raise {A : Type} (e : exn) : M A := fun w => (Raise e, w).

(** [sys.exit(code)] *)
Definition sys_exit {A : Type} (code : Z) : M A := fun w => (Exit code, w).

Definition lift {A : Type} (r : res A) : M A :=
  fun w => (match r with Val a => Ok a | Err e => Raise e end, w).

Definition emit (e : event) : M unit :=
  fun w => (Ok tt, mkWorld (bus w) (stdin w) (trace w ++ [e])).

Definition log (lv : level) (m : message) : M unit :=
  emit (Log SensoSysLogger lv m).

Definition root_log (lv : level) (m : message) : M unit :=
  emit (Log RootLogger lv m).

(** [input(prompt)]: shows the prompt and reads a line; [EOFError] at the
    end of the input. *)
Definition input (prompt : string) : M string :=
  fun w =>
    let t := trace w ++ [Prompt prompt] in
    match stdin w with
    | [] => (Raise EOFError, mkWorld (bus w) [] t)
    | l :: rest => (Ok l, mkWorld (bus w) rest t)
    end.

(** A call of the driver: it answers and the bus moves on. *)
Definition bus_call {A : Type} (f : B -> A * B) : M A :=
  fun w => let (a, b') := f (bus w) in (Ok a, mkWorld b' (stdin w) (trace w)).
End World.

Arguments mkWorld {B} _ _ _.
Arguments bus {B} _.
Arguments stdin {B} _.
Arguments trace {B} _.
Arguments ret {B A} _ _.
Arguments bind {B A C} _ _ _.
Arguments raise {B A} _ _.
Arguments sys_exit {B A} _ _.
Arguments lift {B A} _ _.
Arguments emit {B} _ _.
Arguments log {B} _ _ _.
Arguments root_log {B} _ _ _.
Arguments input {B} _ _.
Arguments bus_call {B A} _ _.

End Eff.

Declare Scope py_scope.
Delimit Scope py_scope with py.
Notation "x <- c1 ;; c2" := (Eff.bind c1 (fun x => c2))
  (at level 61, c1 at next level, right associativity) : py_scope.
Notation "c1 ;; c2" := (Eff.bind c1 (fun _ => c2))
  (at level 61, right associativity) : py_scope.
Notation "x <~ o ;; c2" := (Eff.rbind o (fun x => c2))
  (at level 61, o at next level, right associativity) : py_scope.

(* ===================================================================== *)
(** * The driver [SensoSysDevices] *)
(* ===================================================================== *)

(** The driver is a separate module of the repository; the data source only
    calls it.  Each read takes the bus address, answers with a dict or with
    [None] (no response) and leaves the bus in a new state.
    [senso_hygbar_sensor_config] is the driver's table from a sensor
    configuration to the names of the parameters that configuration
    reports (the entry ['params']); [None] is a missing table entry. *)

Module Driver.

Import Py.

Record t (B : Type) : Type := mk {
  scan_com_ports : option (list string);
  read_instrument_name : Z -> B -> option (dict value) * B;
  read_serial_number : Z -> B -> option (dict value) * B;
  read_expired_calibration_date : Z -> B -> option (dict value) * B;
  read_battery_state : Z -> B -> option (dict value) * B;
  senso_anemo_read_configuration : Z -> B -> option (dict value) * B;
  senso_anemo_read_indicator : Z -> B -> option (dict value) * B;
  senso_therm_read_configuration : Z -> B -> option (dict value) * B;
  senso_therm_read_indicator : Z -> Z -> B -> option (dict value) * B;
  senso_hygbar_read_configuration : Z -> B -> option (dict value) * B;
  senso_hygbar_sensor_config : value -> option (list string);
  senso_anemo_read_measurement_data : Z -> B -> option (dict value) * B;
  senso_therm_read_temperatures_enabled_channels : Z -> B -> option (dict value) * B;
  senso_hygbar_read_measurement_data : Z -> value -> B -> option (dict value) * B
}.

Arguments scan_com_ports {B} _.
Arguments read_instrument_name {B} _ _ _.
Arguments read_serial_number {B} _ _ _.
Arguments read_expired_calibration_date {B} _ _ _.
Arguments read_battery_state {B} _ _ _.
Arguments senso_anemo_read_configuration {B} _ _ _.
Arguments senso_anemo_read_indicator {B} _ _ _.
Arguments senso_therm_read_configuration {B} _ _ _.
Arguments senso_therm_read_indicator {B} _ _ _ _.
Arguments senso_hygbar_read_configuration {B} _ _ _.
Arguments senso_hygbar_sensor_config {B} _ _.
Arguments senso_anemo_read_measurement_data {B} _ _ _.
Arguments senso_therm_read_temperatures_enabled_channels {B} _ _ _.
Arguments senso_hygbar_read_measurement_data {B} _ _ _ _.

End Driver.

(* ===================================================================== *)
(** * The class [SensoSysDataSource] *)
(* ===================================================================== *)

Module SensoSysDataSource.

Import Py Eff.
Local Open Scope py_scope.

(** ** Python operations of the methods *)

(** [d[k]] *)
Definition getitem {V : Type} (k : string) (d : dict V) : res V :=
  match get k d with
  | Some v => Val v
  | None => Err (KeyError (VStr k))
  end.

(** [d.get(k)] on a dict of values: Python's [None] for a missing key *)
Definition py_get (k : string) (d : dict value) : value :=
  match get k d with
  | Some v => v
  | None => VNone
  end.

(** [d.update(r)] where [r] may be [None]: [None] is not iterable *)
Definition update_with (d : dict value) (r : option (dict value))
  : res (dict value) :=
  match r with
  | Some e => Val (update d e)
  | None => Err (TypeError "'NoneType' object is not iterable")
  end.

(** The receiver of a string method: anything but a [str] has no such
    attribute. *)
Definition as_str (method : string) (v : value) : res string :=
  match v with
  | VStr s => Val s
  | _ => Err (AttributeError method)
  end.

(** The truth value of an object *)
Definition truthy (v : value) : bool :=
  match v with
  | VNone => false
  | VBool b => b
  | VInt z => negb (z =? 0)
  | VFloat m _ => negb (m =? 0)
  | VStr s => negb (String.eqb s "")
  end.

(** [int(v)] *)
Definition py_int (v : value) : res Z :=
  match v with
  | VNone => Err (TypeError "int() argument must be a string or a number")
  | VBool b => Val (if b then 1 else 0)
  | VInt z => Val z
  | VFloat m e => Val (if 0 <=? e then m * 10 ^ e else Z.quot m (10 ^ (- e)))
  | VStr s =>
      match int_of_str s with
      | Some z => Val z
      | None => Err (InvalidIntLiteral v)
      end
  end.

(** ** Class attributes *)

(** [SensoSysConfigs]: the keys [port], [scan_by_file] and [time_out]. *)
Definition _sensosys_configs_default : dict value :=
  [ ("port", VStr "COM1");
    ("scan_by_file", VBool false);
    ("time_out", VFloat 5 (-2)) ].

(** One entry of [sensosys_devices_list]: the key of the device in
    [sensosys_devices], its instrument name and its sensor configuration. *)
Definition device : Type := string * value * value.

(** The attributes of an initialised instance *)
Record self : Type := mkSelf {
  sensosys_config_file : option string;
  output_dir : option string;
  sensosys_configs : dict value;
  available_ports : list string;
  sensosys_devices : dict (dict value);
  sensosys_devices_list : list device
}.

(** The calibration date is reparsed with these formats, in this order. *)
Definition _date_formats : list string := ["%d-%m-%y"; "%d.%m.%y"].

(** Lines 214-219: for every format, a successful parse stores the ISO
    date, a [ValueError] moves on to the next format.  The text parsed is
    the one read before the loop. *)
Fixpoint convert_date_loop (fmts : list string) (_exp_date : string)
    (_device_responses : dict value) : dict value :=
  match fmts with
  | [] => _device_responses
  | _fmt :: fmts' =>
      match Strptime.strptime _exp_date _fmt with
      | Some dt =>
          convert_date_loop fmts' _exp_date
            (set_item "calibration_expired_date"
               (VStr (Strptime.strftime dt "%Y-%m-%d")) _device_responses)
      | None => convert_date_loop fmts' _exp_date _device_responses
      end
  end.

(** Lines 210-219.  [strptime] raises [TypeError] when its first argument
    is not a string. *)
Definition convert_calibration_date (_device_responses : dict value)
  : res (dict value) :=
  match py_get "calibration_expired_date" _device_responses with
  | VNone => Val _device_responses
  | VStr _exp_date =>
      Val (convert_date_loop _date_formats _exp_date _device_responses)
  | _ => Err (TypeError "strptime() argument 1 must be str")
  end.

Section Methods.
Variable B : Type.
Variable sensosys : Driver.t B.

(** The files that can be read: [files p] is the document that
    [Auxiliary.load_json] finds at the path [p], [None] when [p] is not a
    file ([os.path.isfile]).  [path_exists] answers [os.path.exists].
    The helper [Auxiliary.load_json] is not part of this file: what it does
    with a path that is not a file, the value it returns or the exception
    it raises, is the parameter [load_missing]. *)
Variable files : string -> option json.
Variable path_exists : string -> bool.
Variable load_missing : string -> res json.

#[local] Abbreviation M := (Eff.M B).

(** *** Scanning *)

(** [d.update(call)] for a call of the driver *)
Definition update_from (d : dict value)
    (call : B -> option (dict value) * B) : M (dict value) :=
  r <- bus_call call ;;
  lift (update_with d r).

(** Lines 200-204: the four indicator channels of a thermometer *)
Fixpoint therm_channels (_id : Z) (chs : list Z) (d : dict value)
  : M (dict value) :=
  match chs with
  | [] => ret d
  | _ch :: chs' =>
      r <- bus_call (Driver.senso_therm_read_indicator sensosys _id _ch) ;;
      match r with
      | None => raise (AttributeError "get")
      | Some ind =>
          therm_channels _id chs'
            (set_item ("senso_therm_indicator_channel_" ++ str_of_int _ch)%string
               (py_get "senso_therm_indicator" ind) d)
      end
  end.

(** Lines 195-208: the reads of the family of the instrument *)
Definition read_family (_id : Z) (_instrument_name : string)
    (d : dict value) : M (dict value) :=
  if startswith _instrument_name "ANEMO" then
    d <- update_from d (Driver.senso_anemo_read_configuration sensosys _id) ;;
    update_from d (Driver.senso_anemo_read_indicator sensosys _id)
  else if startswith _instrument_name "THERM" then
    d <- update_from d (Driver.senso_therm_read_configuration sensosys _id) ;;
    therm_channels _id [1; 2; 3; 4] d
  else if startswith _instrument_name "HYGRO" then
    update_from d (Driver.senso_hygbar_read_configuration sensosys _id)
  else
    raise (InvalidInstrumentName _instrument_name).

(** Lines 181-222: the body of the loop of [_scan_devices] *)
Definition scan_address (_id : Z) (available_devices : dict (dict value))
  : M (dict (dict value)) :=
  log INFO (MScanningAddress _id) ;;
  _device_name_response <- bus_call (Driver.read_instrument_name sensosys _id) ;;
  match _device_name_response with
  | None => ret available_devices
  | Some resp =>
      raw <- lift (getitem "instrument_name" resp) ;;
      s <- lift (as_str "upper" raw) ;;
      let _instrument_name := strip (upper s) in
      let resp := set_item "instrument_name" (VStr _instrument_name) resp in
      log INFO (MFoundDevice _id _instrument_name) ;;
      d <- update_from resp (Driver.read_serial_number sensosys _id) ;;
      d <- update_from d (Driver.read_expired_calibration_date sensosys _id) ;;
      d <- update_from d (Driver.read_battery_state sensosys _id) ;;
      d <- read_family _id _instrument_name d ;;
      d <- lift (convert_calibration_date d) ;;
      ret (set_item (str_of_int _id) d available_devices)
  end.

Fixpoint scan_loop (ids : list Z) (available_devices : dict (dict value))
  : M (dict (dict value)) :=
  match ids with
  | [] => ret available_devices
  | _id :: ids' =>
      available_devices <- scan_address _id available_devices ;;
      scan_loop ids' available_devices
  end.

(** [_scan_devices(ids)] *)
Definition _scan_devices (ids : list Z) : M (dict (dict value)) :=
  scan_loop ids [].

(** [list(range(0, 256))] *)
Definition range_0_256 : list Z := map Z.of_nat (seq 0 256).

(** [_scan_devices_by_ids()] *)
Definition _scan_devices_by_ids : M (dict (dict value)) :=
  _scan_devices range_0_256.

(** [Auxiliary.load_json(file_name)] *)
Definition load_json (file_name : string) : M json :=
  match files file_name with
  | Some j => ret j
  | None => lift (load_missing file_name)
  end.

Fixpoint ints_of (l : list value) : res (list Z) :=
  match l with
  | [] => Val []
  | i :: l' => z <~ py_int i ;; zs <~ ints_of l' ;; Val (z :: zs)
  end.

(** [_scan_devices_by_file(file_name)]: the ids of the file, in the order
    of the file.  Iterating a dict gives its keys, iterating a string its
    characters; a number is not iterable. *)
Definition _scan_devices_by_file (file_name : string) : M (dict (dict value)) :=
  _ids_str <- load_json file_name ;;
  _ids <- lift (match _ids_str with
                | JList l => ints_of l
                | JDict d => ints_of (map VStr (keys d))
                | JValue (VStr s) =>
                    ints_of (map (fun c => VStr (String c EmptyString))
                               (list_ascii_of_string s))
                | JValue _ => Err (TypeError "object is not iterable")
                end) ;;
  _scan_devices _ids.

(** *** Configuration *)

(** [_scan_available_ports()]: [sys.exit()] without an argument ends the
  process with status 0. *)
Definition _scan_available_ports : M (list string) :=
  log INFO MScanningPorts ;;
  match Driver.scan_com_ports sensosys with
  | None =>
    root_log ERROR MNoPorts ;;
    sys_exit 0
  | Some available_ports =>
    root_log INFO (MFoundPorts available_ports) ;;
    ret available_ports
  end.

(** The three questions answered by y or n share this body (lines 287-294,
  305-312, 317-324). *)
Definition ask_yes_no (prompt : string) : M bool :=
  line <- input prompt ;;
  let input_str := strip (lower line) in
  if String.eqb input_str "y" then ret true
  else if String.eqb input_str "n" then ret false
  else
  log ERROR (MInvalidInput input_str) ;;
  sys_exit 1.

Definition _get_if_pop_system_device_management : M bool :=
  ask_yes_no "Open the system device management 'devmgmt.msc' (y/n): ".

Definition _get_port_name : M string :=
  input_str <- input "Enter the port number: COM" ;;
  ret ("COM" ++ input_str)%string.

Definition _get_scan_by_file : M bool :=
  ask_yes_no "Scan devices by the file (y) / Scan devices from address ID 0 to 255 (n): ".

Definition _get_if_continue : M bool :=
  ask_yes_no "Continue (y/n): ".

(** [_check_port_name()] *)
Definition _check_port_name (configs : dict value) (ports : list string)
  : res bool :=
  port <~ getitem "port" configs ;;
  Val (existsb (fun p => value_eqb port (VStr p)) ports).

(** [_get_sensosys_configs_by_guide()]; returns its result and the new
  [sensosys_configs]. *)
Definition _get_sensosys_configs_by_guide (out_dir : option string)
  (ports : list string) (configs : dict value) : M (bool * dict value) :=
  log INFO MConfiguringByGuide ;;
  _pop_devmgmt <- _get_if_pop_system_device_management ;;
  (if _pop_devmgmt then emit PopSystemDeviceManagement else ret tt) ;;
  port <- _get_port_name ;;
  let configs := set_item "port" (VStr port) configs in
  _port_available <- lift (_check_port_name configs ports) ;;
  (if _port_available then log INFO (MSetPort (VStr port))
   else log ERROR (MPortUnavailable (VStr port)) ;; sys_exit 1) ;;
  sbf <- _get_scan_by_file ;;
  let configs := set_item "scan_by_file" (VBool sbf) configs in
  match out_dir with
  | Some dir =>
    log INFO (MSavingConfigs dir "SensoSysConfigs.json") ;;
    emit (DumpJson dir "SensoSysConfigs.json" (DConfigs configs))
  | None => ret tt
  end ;;
  ret (true, configs).

(** [_get_sensosys_configs_by_file(file_name)]; returns its result and the
  new [sensosys_configs].  Only a dict has [keys]. *)
Definition _get_sensosys_configs_by_file (file_name : string)
  (configs : dict value) : M (bool * dict value) :=
  log INFO (MConfiguringByFile file_name) ;;
  match files file_name with
  | Some doc =>
    match doc with
    | JDict _configs =>
        if same_key_set _configs configs
        then ret (true, update configs _configs)
        else log ERROR (MInvalidKeys file_name) ;; ret (false, configs)
    | _ => raise (AttributeError "keys")
    end
  | None =>
    log ERROR (MInvalidFileName file_name) ;;
    ret (false, configs)
  end.

(** *** Measurement parameters and measurement rows *)

(** [self.sensosys.senso_hygbar_sensor_config[_sensor_config]['params']] *)
Definition hygbar_params (_sensor_config : value) : res (list string) :=
  match Driver.senso_hygbar_sensor_config sensosys _sensor_config with
  | Some ps => Val ps
  | None => Err (KeyError _sensor_config)
  end.

(** Lines 229-237: the names one device adds to the header *)
Definition device_parameters (dev : device) : res (list string) :=
  let '(_id, _name, _sensor_config) := dev in
  name <~ as_str "startswith" _name ;;
  if startswith name "ANEMO" then
  Val ["t_a_" ++ _id; "v_" ++ _id; "vstar_" ++ _id]%string
  else if startswith name "THERM" then
  Val ["t_a_" ++ _id; "t_g_" ++ _id; "t_w_" ++ _id; "t_s_" ++ _id]%string
  else if startswith name "HYGRO" then
  ps <~ hygbar_params _sensor_config ;;
  Val (map (fun p => p ++ "_" ++ _id)%string ps)
  else
  Err (InvalidInstrumentName name).

Fixpoint parameters_loop (devs : list device) (_params : list string)
  : res (list string) :=
  match devs with
  | [] => Val _params
  | dev :: devs' =>
    ps <~ device_parameters dev ;;
    parameters_loop devs' (_params ++ ps)
  end.

(** [get_all_measurement_parameters()] *)
Definition get_all_measurement_parameters (s : self) : res (list string) :=
  parameters_loop (sensosys_devices_list s) [].

(** Lines 244-269: the values one device adds to the row *)
Definition device_data (dev : device) : M (list value) :=
  let '(_id, _name, _sensor_config) := dev in
  _id <- lift (py_int (VStr _id)) ;;
  name <- lift (as_str "startswith" _name) ;;
  if startswith name "ANEMO" then
  _resp <- bus_call (Driver.senso_anemo_read_measurement_data sensosys _id) ;;
  match _resp with
  | None =>
      log WARNING (MNoData _id name) ;;
      ret [VNone; VNone; VNone]
  | Some r => ret [py_get "t_a" r; py_get "v" r; py_get "v_star" r]
  end
  else if startswith name "THERM" then
  _resp <- bus_call
             (Driver.senso_therm_read_temperatures_enabled_channels sensosys _id) ;;
  match _resp with
  | None =>
      log WARNING (MNoData _id name) ;;
      ret [VNone; VNone; VNone; VNone]
  | Some r => ret [py_get "t_a" r; py_get "t_g" r; py_get "t_w" r; py_get "t_s" r]
  end
  else if startswith name "HYGRO" then
  _resp <- bus_call
             (Driver.senso_hygbar_read_measurement_data sensosys _id _sensor_config) ;;
  match _resp with
  | None =>
      log WARNING (MNoData _id name) ;;
      ps <- lift (hygbar_params _sensor_config) ;;
      ret (repeat VNone (List.length ps))
  | Some r =>
      ps <- lift (hygbar_params _sensor_config) ;;
      ret (map (fun p => py_get p r) ps)
  end
  else
  raise (InvalidInstrumentName name).

Fixpoint data_loop (devs : list device) (_data : list value) : M (list value) :=
  match devs with
  | [] => ret _data
  | dev :: devs' =>
    vs <- device_data dev ;;
    data_loop devs' (_data ++ vs)
  end.

(** [read_data()] *)
Definition read_data (s : self) : M (list value) :=
  data_loop (sensosys_devices_list s) [].

(** *** Initialisation *)

(** Lines 116-118: [(k, v['instrument_name'], v.get('sensor_config'))] for
  the items of [sensosys_devices], in the order of the dict *)
Fixpoint devices_list_of (devices : dict (dict value)) : res (list device) :=
  match devices with
  | [] => Val []
  | (k, v) :: devices' =>
    name <~ getitem "instrument_name" v ;;
    l <~ devices_list_of devices' ;;
    Val ((k, name, py_get "sensor_config" v) :: l)
  end.

(** Lines 66-80: the configuration, by the guide or by the file *)
Definition init_configure (config_file out_dir : option string)
  (ports : list string) (configs : dict value) : M (dict value) :=
  match config_file with
  | None =>
    r <- _get_sensosys_configs_by_guide out_dir ports configs ;;
    (if fst r then log INFO MGuideSucceeded else log WARNING MGuideFailed) ;;
    ret (snd r)
  | Some file_name =>
    r <- _get_sensosys_configs_by_file file_name configs ;;
    (if fst r then log INFO MFileSucceeded else log WARNING MFileFailed) ;;
    ret (snd r)
  end.

(** Lines 82-96: the driver is opened and the bus scanned *)
Definition init_scan (configs : dict value) : M (dict (dict value)) :=
  log INFO (MInitSensoSys configs) ;;
  port <- lift (getitem "port" configs) ;;
  time_out <- lift (getitem "time_out" configs) ;;
  emit (OpenSerial port time_out) ;;
  scan_by_file <- lift (getitem "scan_by_file" configs) ;;
  devices <- (if truthy scan_by_file
            then _scan_devices_by_file "_config/SensoSysAllDevicesIDs_default.json"
            else _scan_devices_by_ids) ;;
  log INFO (MFoundDevices devices (List.length devices)) ;;
  ret devices.

(** Lines 98-118: the possible end after the scan, the snapshot of the
  devices and the device list *)
Definition init_finish (config_file out_dir : option string)
  (ports : list string) (configs : dict value)
  (devices : dict (dict value)) : M self :=
  (if (List.length devices =? 0)%nat then
   log ERROR MNoDevicesFound ;;
   sys_exit 0
   else
   _continue <- _get_if_continue ;;
   if _continue then ret tt
   else log INFO MExitingManually ;; sys_exit 0) ;;
  match out_dir with
  | Some dir =>
    log INFO (MSavingDevices dir "FoundDevices.json") ;;
    emit (DumpJson dir "FoundDevices.json" (DDevices devices))
  | None => ret tt
  end ;;
  l <- lift (devices_list_of devices) ;;
  ret (mkSelf config_file out_dir configs ports devices l).

(** Lines 47-96: [__init__] up to the end of the scan; returns
  [available_ports], [sensosys_configs] and [sensosys_devices]. *)
Definition init_prepare (config_file out_dir : option string)
  : M (list string * dict value * dict (dict value)) :=
  log INFO MInitializing ;;
  match out_dir with
  | None => log INFO MNoOutputDir
  | Some dir =>
    log INFO (MOutputDir dir) ;;
    if path_exists dir then ret tt else emit (MakeDirs dir)
  end ;;
  let configs := _sensosys_configs_default in
  ports <- _scan_available_ports ;;
  configs <- init_configure config_file out_dir ports configs ;;
  devices <- init_scan configs ;;
  ret (ports, configs, devices).

(** [SensoSysDataSource(sensosys_config_file, output_dir)] *)
Definition __init__ (config_file out_dir : option string) : M self :=
  r <- init_prepare config_file out_dir ;;
  init_finish config_file out_dir (fst (fst r)) (snd (fst r)) (snd r).

(** *** The script *)

(** Modelled from the spec: the classes [DataLoggerBase] and
  [DataOutputCsv] of the module [Base.DataLogger] are not part of this
  file.  The spec has the header row of the CSV output generated from
  [get_all_measurement_parameters] and a data row appended from
  [read_data] on each cycle; the number of cycles of a logging run is a
  parameter here. *)
Fixpoint run_data_logging (s : self) (cycles : nat) : M unit :=
  match cycles with
  | O => ret tt
  | S n =>
    row <- read_data s ;;
    emit (CsvRow row) ;;
    run_data_logging s n
  end.

Definition CONFIG_FROM_FILE : bool := false.

(** Lines 327-356 *)
Definition main (cycles : nat) : M unit :=
  senso_sys_source <-
  __init__ (if CONFIG_FROM_FILE
            then Some "_config/SensoSysConfigs_default.json" else None)
           (Some "Test") ;;
  headers <- lift (get_all_measurement_parameters senso_sys_source) ;;
  emit (CsvHeader headers) ;;
  run_data_logging senso_sys_source cycles.

End Methods.

End SensoSysDataSource.

(* ===================================================================== *)
(** * A test bench: a simulated bus *)
(* ===================================================================== *)

(** A bus with an anemometer at address 5, a thermometer at 3 and a
    hygrometer/barometer at 7; address 9 answers with a name of no known
    family.  The state of the bus counts the calls made.  Measurement reads
    are answered on even states only. *)

Module Bench.

Import Py Eff.

Definition tick {A : Type} (a : A) (n : nat) : A * nat := (a, S n).

Definition name_at (id : Z) : option (dict value) :=
  if id =? 5 then Some [("instrument_name", VStr " anemo-x ")]
  else if id =? 3 then Some [("instrument_name", VStr "Therm-1")]
  else if id =? 7 then Some [("instrument_name", VStr "HygroBar")]
  else if id =? 9 then Some [("instrument_name", VStr "Lux-2")]
  else None.

Definition calibration_at (id : Z) : dict value :=
  if id =? 5 then [("calibration_expired_date", VStr "01-02-25")]
  else if id =? 3 then [("calibration_expired_date", VStr "31.12.99")]
  else [("calibration_expired_date", VStr "2025/02/01")].

Definition hygbar_table (cfg : value) : option (list string) :=
  match cfg with
  | VInt 1 => Some ["rh"; "t_a"]
  | VInt 2 => Some ["rh"; "t_a"; "p"]
  | _ => None
  end.

Definition answer (r : dict value) (n : nat) : option (dict value) * nat :=
  (if Nat.even n then Some r else None, S n).

Definition driver : Driver.t nat :=
  Driver.mk nat
    (Some ["COM1"; "COM3"])
    (fun id => tick (name_at id))
    (fun id => tick (Some [("serial_number", VInt (1000 + id))]))
    (fun id => tick (Some (calibration_at id)))
    (fun id => tick (Some [("battery_state", VInt 90)]))
    (fun id => tick (Some [("senso_anemo_configuration", VInt 0)]))
    (fun id => tick (Some [("senso_anemo_indicator", VInt 1)]))
    (fun id => tick (Some [("senso_therm_configuration", VInt 0)]))
    (fun id ch => tick (Some [("senso_therm_indicator", VInt ch)]))
    (fun id => tick (Some [("sensor_config", VInt 2)]))
    hygbar_table
    (fun id => answer [("t_a", VFloat 215 (-1)); ("v", VFloat 12 (-2));
                       ("v_star", VFloat 10 (-2))])
    (fun id => answer [("t_a", VFloat 215 (-1)); ("t_g", VFloat 220 (-1));
                       ("t_w", VNone); ("t_s", VNone)])
    (fun id cfg => answer [("rh", VFloat 40 0); ("t_a", VFloat 21 0);
                           ("p", VFloat 1013 0)]).

(** The same bus without COM ports *)
Definition driver_no_ports : Driver.t nat :=
  Driver.mk nat None
    (Driver.read_instrument_name driver)
    (Driver.read_serial_number driver)
    (Driver.read_expired_calibration_date driver)
    (Driver.read_battery_state driver)
    (Driver.senso_anemo_read_configuration driver)
    (Driver.senso_anemo_read_indicator driver)
    (Driver.senso_therm_read_configuration driver)
    (Driver.senso_therm_read_indicator driver)
    (Driver.senso_hygbar_read_configuration driver)
    hygbar_table
    (Driver.senso_anemo_read_measurement_data driver)
    (Driver.senso_therm_read_temperatures_enabled_channels driver)
    (Driver.senso_hygbar_read_measurement_data driver).

(** The same bus with a battery read that also answers with an instrument
    name *)
Definition driver_renaming : Driver.t nat :=
  Driver.mk nat
    (Driver.scan_com_ports driver)
    (Driver.read_instrument_name driver)
    (Driver.read_serial_number driver)
    (Driver.read_expired_calibration_date driver)
    (fun id => tick (Some [("battery_state", VInt 90);
                           ("instrument_name", VStr "lux")]))
    (Driver.senso_anemo_read_configuration driver)
    (Driver.senso_anemo_read_indicator driver)
    (Driver.senso_therm_read_configuration driver)
    (Driver.senso_therm_read_indicator driver)
    (Driver.senso_hygbar_read_configuration driver)
    hygbar_table
    (Driver.senso_anemo_read_measurement_data driver)
    (Driver.senso_therm_read_temperatures_enabled_channels driver)
    (Driver.senso_hygbar_read_measurement_data driver).

Definition no_files : string -> option json := fun _ => None.

(** A [load_json] that raises [FileNotFoundError] for a path that is not a
    file *)
Definition not_found : string -> res json := fun p => Err (FileNotFoundError p).

(** The ids file lists the addresses 5 and 3, in this order. *)
Definition ids_5_3 : string -> option json :=
  fun f =>
    if String.eqb f "_config/SensoSysAllDevicesIDs_default.json"
    then Some (JList [VStr "5"; VStr "3"]) else None.

(** The ids file lists the address 5 and an entry that is no number. *)
Definition ids_5_five : string -> option json :=
  fun f =>
    if String.eqb f "_config/SensoSysAllDevicesIDs_default.json"
    then Some (JList [VStr "5"; VStr "five"]) else None.

(** The ids file lists the addresses 4 and 6, where nothing answers. *)
Definition ids_4_6 : string -> option json :=
  fun f =>
    if String.eqb f "_config/SensoSysAllDevicesIDs_default.json"
    then Some (JList [VStr "4"; VStr "6"]) else None.

Definition no_dirs : string -> bool := fun _ => false.

Definition start (lines : list string) : world nat := mkWorld 0%nat lines [].

(** An instance with the three instruments in its device list *)
Definition source : SensoSysDataSource.self :=
  SensoSysDataSource.mkSelf None None
    SensoSysDataSource._sensosys_configs_default ["COM1"; "COM3"] []
    [("5", VStr "ANEMO-X", VNone); ("7", VStr "HYGROBAR", VInt 2);
     ("3", VStr "THERM-1", VNone)].

End Bench.

(* ===================================================================== *)
(** * Definitions used by the statements *)
(* ===================================================================== *)

Module Aux.

Import Py.

(** The value of a decimal numeral read after the digits of [acc]. *)
Definition uint_value (d : Decimal.uint) (acc : Z) : Z :=
  Z.of_N (DecimalPos.Unsigned.of_lu (Decimal.rev d))
  + acc * 10 ^ Z.of_N (DecimalPos.Unsigned.usize d).

(** No character of the string is white space. *)
Fixpoint no_space (s : string) : bool :=
  match s with
  | EmptyString => true
  | String c s' => negb (is_space c) && no_space s'
  end.

(** The events that come right before a [sys.exit]: with status 0 the
    three errors or notices "no port", "no device", "manual stop"; with
    status 1 an answer that is neither y nor n, or a port that is not
    available. *)
Definition exit_event (code : Z) (e : Eff.event) : Prop :=
  (code = 0 /\
   (e = Eff.Log Eff.RootLogger Eff.ERROR Eff.MNoPorts \/
    e = Eff.Log Eff.SensoSysLogger Eff.ERROR Eff.MNoDevicesFound \/
    e = Eff.Log Eff.SensoSysLogger Eff.INFO Eff.MExitingManually))
  \/
  (code = 1 /\
   ((exists s, e = Eff.Log Eff.SensoSysLogger Eff.ERROR (Eff.MInvalidInput s)) \/
    (exists p, e = Eff.Log Eff.SensoSysLogger Eff.ERROR (Eff.MPortUnavailable p)))).

(** The answer to a question answered by y or n, as the program judges it:
    in lower case and stripped. *)
Definition judged (line : string) : string := Py.strip (Py.lower line).

Definition valid_answer (line : string) : Prop :=
  judged line = "y" \/ judged line = "n".

Definition invalid_answer (line : string) : Prop :=
  judged line <> "y" /\ judged line <> "n".

(** [traced P m]: whatever the start, [m] only adds events to the trace,
    all of them in [P], and if it ends in [sys.exit(code)] the last event
    it added is an [exit_event] of that status. *)
Definition traced {B A : Type} (P : Eff.event -> Prop) (m : Eff.M B A) : Prop :=
  forall w r w', m w = (r, w') ->
    exists t, Eff.trace w' = Eff.trace w ++ t /\ Forall P t /\
      (forall c, r = Eff.Exit c -> exists t0 e, t = t0 ++ [e] /\ exit_event c e).

Definition not_csv (e : Eff.event) : Prop :=
  match e with
  | Eff.CsvHeader _ | Eff.CsvRow _ => False
  | _ => True
  end.

(** Two dicts are equal ([d == e] in Python) when every key has the same
    value, or none, in both. *)
Definition dict_equal {V : Type} (d e : Py.dict V) : Prop :=
  forall k, Py.get k d = Py.get k e.

(** The key sets of two dicts are equal. *)
Definition same_keys {V W : Type} (d : Py.dict V) (e : Py.dict W) : Prop :=
  forall k, In k (Py.keys d) <-> In k (Py.keys e).

(** The columns a device contributes: for each one the name of the
    parameter in the header (before the suffix of the address) and the key
    of the value in the response of the read.  A hygrometer/barometer has
    the parameters its sensor configuration has in the table [tbl] of the
    driver; a name of no family has no columns. *)
Definition columns (tbl : Py.value -> option (list string)) (name : string)
    (_sensor_config : Py.value) : option (list (string * string)) :=
  if Py.startswith name "ANEMO"
  then Some [("t_a", "t_a"); ("v", "v"); ("vstar", "v_star")]
  else if Py.startswith name "THERM"
  then Some [("t_a", "t_a"); ("t_g", "t_g"); ("t_w", "t_w"); ("t_s", "t_s")]
  else if Py.startswith name "HYGRO"
  then option_map (map (fun p => (p, p))) (tbl _sensor_config)
  else None.

(** The measurement read of the family of an instrument *)
Definition measurement_read {B : Type} (sensosys : Driver.t B) (_id : Z)
    (name : string) (_sensor_config : Py.value) : B -> option (Py.dict Py.value) * B :=
  if Py.startswith name "ANEMO"
  then Driver.senso_anemo_read_measurement_data sensosys _id
  else if Py.startswith name "THERM"
       then Driver.senso_therm_read_temperatures_enabled_channels sensosys _id
       else Driver.senso_hygbar_read_measurement_data sensosys _id _sensor_config.

(** The value of a column in the answer of a measurement read: the value
    under the key of the column, [None] for a key the answer does not have
    and for a read that got no answer. *)
Definition cell_value (resp : option (Py.dict Py.value)) (key : string) : Py.value :=
  match resp with
  | Some r => SensoSysDataSource.py_get key r
  | None => Py.VNone
  end.

(** The cells of a device for the answer [resp] of its measurement read,
    one per column and in the order of the columns: the name the column has
    in the header, which ends in the key of the device, and the value of
    the column in [resp]. *)
Definition device_cells (tbl : Py.value -> option (list string))
    (dev : SensoSysDataSource.device) (resp : option (Py.dict Py.value))
  : option (list (string * Py.value)) :=
  match snd (fst dev) with
  | Py.VStr name =>
      option_map
        (map (fun c => ((fst c ++ "_" ++ fst (fst dev))%string,
                        cell_value resp (snd c))))
        (columns tbl name (snd dev))
  | _ => None
  end.

(** [aligned sensosys devs b cells b']: starting with the bus in the state
    [b], the measurement reads of the devices of the list, one read per
    device in the order of the list and each sent to the address [int(key)]
    of its device, leave the bus in the state [b'], and [cells] are the
    cells of the devices for the answers of these reads, device after
    device. *)
Inductive aligned {B : Type} (sensosys : Driver.t B)
  : list SensoSysDataSource.device -> B -> list (string * Py.value) -> B -> Prop :=
| aligned_nil b : aligned sensosys [] b [] b
| aligned_cons dev devs z name b resp b1 b2 cells rest :
    Py.int_of_str (fst (fst dev)) = Some z ->
    snd (fst dev) = Py.VStr name ->
    measurement_read sensosys z name (snd dev) b = (resp, b1) ->
    device_cells (Driver.senso_hygbar_sensor_config sensosys) dev resp = Some cells ->
    aligned sensosys devs b1 rest b2 ->
    aligned sensosys (dev :: devs) b (cells ++ rest) b2.

(** [m] never ends in [sys.exit]. *)
Definition never_exits {B A : Type} (m : Eff.M B A) : Prop :=
  forall w c w', m w <> (Eff.Exit c, w').

(** The instrument name of one of the three families *)
Definition known_family (name : string) : bool :=
  Py.startswith name "ANEMO" || Py.startswith name "THERM"
  || Py.startswith name "HYGRO".

(** A device record whose instrument name is of a known family *)
Definition record_ok (r : Py.dict Py.value) : Prop :=
  exists name, Py.get "instrument_name" r = Some (Py.VStr name) /\
               known_family name = true.

(** An entry of the device list whose name is of a known family *)
Definition entry_ok (dev : SensoSysDataSource.device) : Prop :=
  exists name, snd (fst dev) = Py.VStr name /\ known_family name = true.

(** The answers of a read do not carry the key of the instrument name. *)
Definition keeps_name {B : Type} (call : B -> option (Py.dict Py.value) * B) : Prop :=
  forall b r b', call b = (Some r, b') -> Py.get "instrument_name" r = None.

(** A proviso on the driver [SensoSysDevices], which is not part of this
    file: of the reads of the scan only [read_instrument_name] answers with
    the key of the instrument name.  (The answers of the other reads are
    merged into the record after the name was checked.) *)
Record names_kept {B : Type} (sensosys : Driver.t B) : Prop := mk_names_kept {
  nk_serial : forall i, keeps_name (Driver.read_serial_number sensosys i);
  nk_calibration :
    forall i, keeps_name (Driver.read_expired_calibration_date sensosys i);
  nk_battery : forall i, keeps_name (Driver.read_battery_state sensosys i);
  nk_anemo_configuration :
    forall i, keeps_name (Driver.senso_anemo_read_configuration sensosys i);
  nk_anemo_indicator :
    forall i, keeps_name (Driver.senso_anemo_read_indicator sensosys i);
  nk_therm_configuration :
    forall i, keeps_name (Driver.senso_therm_read_configuration sensosys i);
  nk_hygbar_configuration :
    forall i, keeps_name (Driver.senso_hygbar_read_configuration sensosys i)
}.

(** [subseq l l']: [l] is [l'] with some elements left out. *)
Inductive subseq {A : Type} : list A -> list A -> Prop :=
| subseq_nil : subseq [] []
| subseq_skip a l l' : subseq l l' -> subseq l (a :: l')
| subseq_take a l l' : subseq l l' -> subseq (a :: l) (a :: l').

(** The keys of a dict after [d[k] = v] *)
Definition add_key (ks : list string) (k : string) : list string :=
  if existsb (String.eqb k) ks then ks else ks ++ [k].

(** The keys are the addresses of an ascending list. *)
Definition ascending_keys (ks : list string) : Prop :=
  exists zs, ks = map Py.str_of_int zs /\ StronglySorted Z.lt zs.

(** The keys of the entries of a device list *)
Definition entry_keys (l : list SensoSysDataSource.device) : list string :=
  map (fun dev => fst (fst dev)) l.

(** [post Q m]: every value [m] returns is in [Q]. *)
Definition post {B A : Type} (Q : A -> Prop) (m : Eff.M B A) : Prop :=
  forall w a w', m w = (Eff.Ok a, w') -> Q a.

(** The record has this instrument name. *)
Definition name_is (n : string) (r : Py.dict Py.value) : Prop :=
  Py.get "instrument_name" r = Some (Py.VStr n).

(** ** Dates *)

(** The ISO 8601 rendering YYYY-MM-DD of a date *)
Definition iso_date (dt : Strptime.date) : string :=
  (Strptime.pad 4 (Strptime.year dt) ++ "-" ++ Strptime.pad 2 (Strptime.month dt)
   ++ "-" ++ Strptime.pad 2 (Strptime.day dt))%string.

(** The year of a two-digit year: 00-68 are 2000-2068, 69-99 are
    1969-1999. *)
Definition full_year (yy : Z) : Z := if yy <=? 68 then 2000 + yy else 1900 + yy.

(** The text DD sep MM sep YY of a day, a month and a two-digit year *)
Definition two_digit_date (sep : ascii) (d m yy : Z) : string :=
  (Strptime.pad 2 d ++ String sep (Strptime.pad 2 m ++ String sep (Strptime.pad 2 yy)))%string.

(** The format of the program with this separator *)
Definition date_format (sep : ascii) : string :=
  String "%" (String "d" (String sep (String "%" (String "m"
    (String sep (String "%" (String "y" EmptyString))))))).

(** A day of the calendar with a two-digit year *)
Definition calendar_day (d m yy : Z) : bool :=
  (0 <=? yy) && (yy <=? 99) && (1 <=? m) && (m <=? 12) && (1 <=? d)
  && (d <=? Strptime.days_in_month (full_year yy) m).

(** The texts that [strptime] reads as the day [d] of a month: two digits,
    and for the days 1 to 9 also the digit alone and the digit after a
    space. *)
Definition day_texts (d : Z) : list string :=
  Strptime.pad 2 d
  :: (if d <=? 9 then [Py.str_of_int d; (" " ++ Py.str_of_int d)%string] else []).

(** The texts that [strptime] reads as the month [m]: two digits, and for
    the months 1 to 9 also the digit alone. *)
Definition month_texts (m : Z) : list string :=
  Strptime.pad 2 m :: (if m <=? 9 then [Py.str_of_int m] else []).

(** [written sep d m yy s]: the text [s] is the day [d], the month [m] and
    the two-digit year [yy], in this order and with the separator [sep]
    between them. *)
Definition written (sep : ascii) (d m yy : Z) (s : string) : Prop :=
  exists td tm,
    In td (day_texts d) /\ In tm (month_texts m) /\
    s = (td ++ String sep (tm ++ String sep (Strptime.pad 2 yy)))%string.

(** The pattern DD sep MM sep YY of the specification, read to the letter:
    two digits, the separator, two digits, the separator, two digits. *)
Definition two_digit_pattern (sep : ascii) (s : string) : bool :=
  match s with
  | String d1 (String d2 (String s1 (String m1 (String m2 (String s2
      (String y1 (String y2 EmptyString))))))) =>
      Py.is_digit d1 && Py.is_digit d2 && Ascii.eqb s1 sep
      && Py.is_digit m1 && Py.is_digit m2 && Ascii.eqb s2 sep
      && Py.is_digit y1 && Py.is_digit y2
  | _ => false
  end.

(** The integers [lo], [lo + 1], ..., [lo + n - 1] *)
Definition zrange (lo : Z) (n : nat) : list Z :=
  map (fun i => lo + Z.of_nat i) (seq 0 n).

(** The separators of the two formats of the program *)
Definition is_sep (c : ascii) : Prop := c = "-"%char \/ c = "."%char.

(** The characters a day of the month can be written with *)
Definition day_char (c : ascii) : bool := Py.is_digit c || Ascii.eqb c " ".

Definition class_in_day (k : Strptime.cclass) : bool :=
  match k with
  | Strptime.CDigit => true
  | Strptime.CRange lo hi => (48 <=? Py.code lo)%nat && (Py.code hi <=? 57)%nat
  | Strptime.CChar c => day_char c
  end.

Fixpoint all_chars (p : ascii -> bool) (s : string) : bool :=
  match s with
  | EmptyString => true
  | String c s' => p c && all_chars p s'
  end.

(** The text starts with one or two characters of a day, then [sep]. *)
Definition day_then (sep : ascii) (s : string) : Prop :=
  exists m r, s = (m ++ String sep r)%string /\
              (String.length m = 1 \/ String.length m = 2)%nat /\
              all_chars day_char m = true.

(** The key of an entry of the device list is the text of an address, as
    the scan writes it ([str(_id)]). *)
Definition address_key (dev : SensoSysDataSource.device) : Prop :=
  exists z, fst (fst dev) = Py.str_of_int z.

End Aux.

(* ===================================================================== *)
(** * Definitions used by the further properties *)
(* ===================================================================== *)

Module AuxX.

Import Py Eff.

(** [quiet P n m]: [m] reads nothing from the console, never ends the
    process, and adds at most [n] events to the trace, all of them in [P]. *)
Definition quiet {B A : Type} (P : event -> Prop) (n : nat) (m : M B A) : Prop :=
  forall w r w', m w = (r, w') ->
    stdin w' = stdin w /\
    (forall c, r <> Exit c) /\
    exists t, trace w' = trace w ++ t /\ Forall P t /\ (List.length t <= n)%nat.

(** The warning of a read that got no answer *)
Definition is_no_data (e : event) : Prop :=
  exists i name, e = Log SensoSysLogger WARNING (MNoData i name).

(** The two messages of the scan *)
Definition is_found (e : event) : Prop :=
  exists i name, e = Log SensoSysLogger INFO (MFoundDevice i name).

Definition is_scan_event (e : event) : Prop :=
  (exists i, e = Log SensoSysLogger INFO (MScanningAddress i)) \/ is_found e.

(** The addresses of the messages "scanning address" of a trace, in
    order *)
Fixpoint scanned (t : list event) : list Z :=
  match t with
  | [] => []
  | Log SensoSysLogger INFO (MScanningAddress i) :: t' => i :: scanned t'
  | _ :: t' => scanned t'
  end.

(** The record is a fixed point of the conversion of the calibration
    date. *)
Definition date_settled (r : dict value) : Prop :=
  SensoSysDataSource.convert_calibration_date r = Val r.

(** The keys of a configuration, in the order of the default one *)
Definition config_keys : list string := ["port"; "scan_by_file"; "time_out"].


Definition not_dump (e : event) : Prop :=
  match e with
  | DumpJson _ _ _ => False
  | _ => True
  end.

(** The messages of the configuration by file *)
Definition is_file_message (file_name : string) (e : event) : Prop :=
  e = Log SensoSysLogger INFO (MConfiguringByFile file_name) \/
  e = Log SensoSysLogger ERROR (MInvalidKeys file_name) \/
  e = Log SensoSysLogger ERROR (MInvalidFileName file_name).

(** [ends_in P suf m]: when [m] returns [a], the events it added are
    events in [P] followed by the events [suf a]. *)
Definition ends_in {B A : Type} (P : event -> Prop) (suf : A -> list event)
    (m : M B A) : Prop :=
  forall w a w', m w = (Ok a, w') ->
    exists t0, trace w' = trace w ++ t0 ++ suf a /\ Forall P t0.

(** The two events of the saving of the configuration *)
Definition saved_configs (dir : string) (r : bool * dict value) : list event :=
  [Log SensoSysLogger INFO (MSavingConfigs dir "SensoSysConfigs.json");
   DumpJson dir "SensoSysConfigs.json" (DConfigs (snd r))].

(** The text is made of four digits. *)
Definition four_digits (s : string) : bool :=
  match s with
  | String a (String b (String c (String d EmptyString))) =>
      is_digit a && is_digit b && is_digit c && is_digit d
  | _ => false
  end.

(** The text is made of white space only. *)
Definition blank (s : string) : bool := Aux.all_chars is_space s.

(** The text is empty or starts with a character that is not white
    space. *)
Definition starts_clean (s : string) : Prop :=
  match s with
  | EmptyString => True
  | String c _ => is_space c = false
  end.

(** The instrument name of the record is in upper case and trimmed. *)
Definition name_normalised (r : dict value) : Prop :=
  exists n, get "instrument_name" r = Some (VStr n) /\
            upper n = n /\ strip n = n.

(** The text has no underscore. *)
Definition no_underscore (s : string) : bool :=
  Aux.all_chars (fun c => negb (Ascii.eqb c "_")) s.

(** The header name of the parameter [p] of the device with key [k] *)
Definition header_name (k p : string) : string := (p ++ "_" ++ k)%string.

End AuxX.

(* ===================================================================== *)
(** * Facts about strings and dicts *)
(* ===================================================================== *)

Module PyFacts.

Import Py Aux.

(** ** [int(str(z)) = z] *)


Lemma of_lu_rev_cons (d : Decimal.uint) (k : N) (c : Decimal.uint -> Decimal.uint) :
  DecimalPos.Unsigned.of_lu (c Decimal.Nil) = k ->
  Decimal.rev (c d) = Decimal.revapp d (c Decimal.Nil) ->
  DecimalPos.Unsigned.of_lu (Decimal.rev (c d))
  = (DecimalPos.Unsigned.of_lu (Decimal.rev d) + k * 10 ^ DecimalPos.Unsigned.usize d)%N.
Proof.
  intros Hk Hr. rewrite Hr, DecimalPos.Unsigned.of_lu_revapp, Hk. reflexivity.
Qed.

Lemma uint_value_step (d : Decimal.uint) (k : N) (c : Decimal.uint -> Decimal.uint)
    (acc : Z) :
  DecimalPos.Unsigned.of_lu (c Decimal.Nil) = k ->
  Decimal.rev (c d) = Decimal.revapp d (c Decimal.Nil) ->
  DecimalPos.Unsigned.usize (c d) = N.succ (DecimalPos.Unsigned.usize d) ->
  uint_value (c d) acc = uint_value d (10 * acc + Z.of_N k).
Proof.
  intros Hk Hr Hs. unfold uint_value.
  rewrite (of_lu_rev_cons d k c Hk Hr), Hs.
  rewrite N2Z.inj_add, N2Z.inj_mul, N2Z.inj_pow, N2Z.inj_succ.
  rewrite Z.pow_succ_r by apply N2Z.is_nonneg.
  change (Z.of_N 10) with 10. ring.
Qed.

Lemma int_digits_uint_seen (d : Decimal.uint) (acc : Z) :
  int_digits (NilEmpty.string_of_uint d) acc true = Some (uint_value d acc).
Proof.
  revert acc. induction d; intros acc; simpl NilEmpty.string_of_uint.
  - simpl. unfold uint_value. simpl. f_equal. ring.
  - simpl int_digits. rewrite IHd. f_equal. symmetry.
    rewrite (uint_value_step d 0 Decimal.D0); auto.
  - simpl int_digits. rewrite IHd. f_equal. symmetry.
    rewrite (uint_value_step d 1 Decimal.D1); auto.
  - simpl int_digits. rewrite IHd. f_equal. symmetry.
    rewrite (uint_value_step d 2 Decimal.D2); auto.
  - simpl int_digits. rewrite IHd. f_equal. symmetry.
    rewrite (uint_value_step d 3 Decimal.D3); auto.
  - simpl int_digits. rewrite IHd. f_equal. symmetry.
    rewrite (uint_value_step d 4 Decimal.D4); auto.
  - simpl int_digits. rewrite IHd. f_equal. symmetry.
    rewrite (uint_value_step d 5 Decimal.D5); auto.
  - simpl int_digits. rewrite IHd. f_equal. symmetry.
    rewrite (uint_value_step d 6 Decimal.D6); auto.
  - simpl int_digits. rewrite IHd. f_equal. symmetry.
    rewrite (uint_value_step d 7 Decimal.D7); auto.
  - simpl int_digits. rewrite IHd. f_equal. symmetry.
    rewrite (uint_value_step d 8 Decimal.D8); auto.
  - simpl int_digits. rewrite IHd. f_equal. symmetry.
    rewrite (uint_value_step d 9 Decimal.D9); auto.
Qed.

Lemma int_digits_uint (d : Decimal.uint) :
  d <> Decimal.Nil ->
  int_digits (NilEmpty.string_of_uint d) 0 false = Some (Z.of_N (Pos.of_uint d)).
Proof.
  intros Hd.
  assert (Hv : uint_value d 0 = Z.of_N (Pos.of_uint d)).
  { unfold uint_value. rewrite DecimalPos.Unsigned.of_uint_alt. ring. }
  rewrite <- Hv, <- int_digits_uint_seen.
  destruct d; [congruence | reflexivity ..].
Qed.


Lemma rstrip_no_space (s : string) : no_space s = true -> rstrip s = s.
Proof.
  induction s as [|c s IH]; simpl; [reflexivity|].
  intros H. apply andb_prop in H. destruct H as [Hc Hs].
  rewrite (IH Hs). destruct s; [|reflexivity].
  destruct (is_space c); [discriminate | reflexivity].
Qed.

Lemma lstrip_no_space (s : string) : no_space s = true -> lstrip s = s.
Proof.
  destruct s as [|c s]; simpl; [reflexivity|].
  intros H. apply andb_prop in H. destruct H as [Hc _].
  destruct (is_space c); [discriminate | reflexivity].
Qed.

Lemma strip_no_space (s : string) : no_space s = true -> strip s = s.
Proof.
  intros H. unfold strip. rewrite (lstrip_no_space s H). apply rstrip_no_space, H.
Qed.

Lemma int_space_is_space (c : ascii) : is_int_space c = true -> is_space c = true.
Proof.
  unfold is_int_space, is_space. intros H.
  apply orb_true_iff in H. apply orb_true_iff.
  destruct H as [H | H]; [left; exact H | right].
  apply Nat.eqb_eq in H. rewrite H. reflexivity.
Qed.

Lemma rtrim_no_space (s : string) :
  no_space s = true -> rtrim is_int_space s = s.
Proof.
  induction s as [|c s IH]; simpl; [reflexivity|].
  intros H. apply andb_prop in H. destruct H as [Hc Hs].
  rewrite (IH Hs). destruct s; [|reflexivity].
  destruct (is_int_space c) eqn:E; [|reflexivity].
  rewrite (int_space_is_space c E) in Hc. discriminate Hc.
Qed.

Lemma ltrim_no_space (s : string) :
  no_space s = true -> ltrim is_int_space s = s.
Proof.
  destruct s as [|c s]; simpl; [reflexivity|].
  intros H. apply andb_prop in H. destruct H as [Hc _].
  destruct (is_int_space c) eqn:E; [|reflexivity].
  rewrite (int_space_is_space c E) in Hc. discriminate Hc.
Qed.

Lemma int_trim_no_space (s : string) :
  no_space s = true -> rtrim is_int_space (ltrim is_int_space s) = s.
Proof.
  intros H. rewrite (ltrim_no_space s H). apply rtrim_no_space, H.
Qed.

Lemma no_space_uint (d : Decimal.uint) :
  no_space (NilEmpty.string_of_uint d) = true.
Proof. induction d; simpl; auto. Qed.

Lemma int_of_str_uint (d : Decimal.uint) :
  d <> Decimal.Nil ->
  int_of_str (NilEmpty.string_of_uint d) = Some (Z.of_N (Pos.of_uint d)).
Proof.
  intros Hd. unfold int_of_str.
  rewrite (int_trim_no_space _ (no_space_uint d)).
  rewrite <- (int_digits_uint d Hd).
  destruct d; [congruence | reflexivity ..].
Qed.

Lemma int_of_str_str_of_int (z : Z) : int_of_str (str_of_int z) = Some z.
Proof.
  unfold str_of_int. destruct z as [|p|p]; simpl Z.to_int.
  - reflexivity.
  - unfold NilZero.string_of_int, NilZero.string_of_uint.
    pose proof (DecimalPos.Unsigned.to_uint_nonnil p) as Hn.
    destruct (Pos.to_uint p) eqn:E; try congruence;
      rewrite <- E in *; rewrite (int_of_str_uint _ Hn), DecimalPos.Unsigned.of_to; reflexivity.
  - unfold NilZero.string_of_int, NilZero.string_of_uint.
    pose proof (DecimalPos.Unsigned.to_uint_nonnil p) as Hn.
    assert (Hs : NilEmpty.string_of_uint (Pos.to_uint p)
                 = match Pos.to_uint p with
                   | Decimal.Nil => "0"
                   | _ => NilEmpty.string_of_uint (Pos.to_uint p)
                   end).
    { destruct (Pos.to_uint p); congruence. }
    rewrite <- Hs. unfold int_of_str.
    assert (Hns : no_space (String "-" (NilEmpty.string_of_uint (Pos.to_uint p))) = true).
    { simpl. apply no_space_uint. }
    rewrite (int_trim_no_space _ Hns).
    rewrite (int_digits_uint _ Hn), DecimalPos.Unsigned.of_to. reflexivity.
Qed.

Lemma str_of_int_inj (a b : Z) : str_of_int a = str_of_int b -> a = b.
Proof.
  intros H. apply (f_equal int_of_str) in H.
  rewrite !int_of_str_str_of_int in H. congruence.
Qed.


(** ** Dicts *)

Section DictFacts.
Context {V : Type}.
Implicit Types (d e : dict V) (k : string) (v : V).

Lemma mem_In k d : mem k d = true <-> In k (keys d).
Proof.
  unfold mem. rewrite existsb_exists. split.
  - intros [x [Hx Hk]]. apply String.eqb_eq in Hk. subst. exact Hx.
  - intros H. exists k. split; [exact H | apply String.eqb_refl].
Qed.

Lemma get_None_iff k d : get k d = None <-> ~ In k (keys d).
Proof.
  induction d as [|[k' v'] d IH]; simpl.
  - tauto.
  - destruct (String.eqb_spec k k') as [->|Hne].
    + split; [discriminate | intros H; exfalso; apply H; now left].
    + rewrite IH. split; intros H; [intros [E|E]; [congruence | tauto] | tauto].
Qed.

Lemma get_Some_In k v d : get k d = Some v -> In k (keys d).
Proof.
  intros H. destruct (in_dec string_dec k (keys d)) as [Hin|Hnin]; [exact Hin|].
  apply get_None_iff in Hnin. congruence.
Qed.

Lemma get_set_item_same k v d : get k (set_item k v d) = Some v.
Proof.
  induction d as [|[k' v'] d IH]; simpl.
  - now rewrite String.eqb_refl.
  - destruct (String.eqb_spec k k') as [->|Hne]; simpl.
    + now rewrite String.eqb_refl.
    + destruct (String.eqb_spec k k'); [congruence | exact IH].
Qed.

Lemma get_set_item_other k k' v d :
  k <> k' -> get k (set_item k' v d) = get k d.
Proof.
  intros Hne. induction d as [|[k0 v0] d IH]; simpl.
  - destruct (String.eqb_spec k k'); [congruence | reflexivity].
  - destruct (String.eqb_spec k' k0) as [->|Hne0]; simpl.
    + destruct (String.eqb_spec k k0); [congruence | reflexivity].
    + destruct (String.eqb_spec k k0); [reflexivity | exact IH].
Qed.

Lemma keys_set_item k v d :
  keys (set_item k v d) = if mem k d then keys d else keys d ++ [k].
Proof.
  induction d as [|[k' v'] d IH]; simpl; [reflexivity|].
  unfold mem. simpl.
  destruct (String.eqb_spec k k') as [->|Hne]; simpl; [reflexivity|].
  fold (mem k d). rewrite IH. destruct (mem k d); reflexivity.
Qed.

Lemma In_keys_set_item k k' v d :
  In k (keys (set_item k' v d)) <-> k = k' \/ In k (keys d).
Proof.
  rewrite keys_set_item. destruct (mem k' d) eqn:E.
  - apply mem_In in E. split; [tauto | intros [->|H]; assumption].
  - rewrite in_app_iff. simpl. intuition congruence.
Qed.

(** A key that [e] does not have keeps its value in [d.update(e)]. *)
Lemma get_update_absent k d e :
  get k e = None -> get k (update d e) = get k d.
Proof.
  unfold update. revert d.
  induction e as [|[k' v'] e IH]; intros d H; simpl in *; [reflexivity|].
  destruct (String.eqb_spec k k') as [->|Hne]; [discriminate|].
  rewrite (IH _ H). apply get_set_item_other, Hne.
Qed.

(** A key of [e] takes the value it has in [e], when [e] has it once. *)
Lemma get_update_present k v d e :
  NoDup (keys e) -> get k e = Some v -> get k (update d e) = Some v.
Proof.
  unfold update. revert d.
  induction e as [|[k' v'] e IH]; intros d Hnd H; simpl in *; [discriminate|].
  inversion Hnd as [|? ? Hnin Hnd']; subst.
  destruct (String.eqb_spec k k') as [->|Hne].
  - injection H as ->.
    apply get_None_iff in Hnin.
    change (get k' (update (set_item k' v d) e) = Some v).
    rewrite (get_update_absent _ _ _ Hnin). apply get_set_item_same.
  - apply IH; assumption.
Qed.

Lemma In_keys_update k d e :
  In k (keys (update d e)) <-> In k (keys d) \/ In k (keys e).
Proof.
  unfold update. revert d.
  induction e as [|[k' v'] e IH]; intros d; simpl; [tauto|].
  rewrite IH, In_keys_set_item. intuition congruence.
Qed.

Lemma same_key_set_spec d e :
  same_key_set d e = true <-> (forall k, In k (keys d) <-> In k (keys e)).
Proof.
  unfold same_key_set. rewrite andb_true_iff, !forallb_forall. split.
  - intros [H1 H2] k. split; intros H.
    + apply mem_In, H1, H.
    + apply mem_In, H2, H.
  - intros H. split; intros k Hk; apply mem_In, H, Hk.
Qed.

End DictFacts.

End PyFacts.

(* ===================================================================== *)
(** * Reasoning about computations with effects *)
(* ===================================================================== *)

Module EffFacts.

Import Py Eff Aux.
Local Open Scope py_scope.

Section Rules.
Context {B : Type}.
Variable P : event -> Prop.

Lemma traced_ret {A : Type} (a : A) : traced P (@ret B A a).
Proof.
  intros w r w' H. inversion H; subst. exists []. rewrite app_nil_r.
  repeat split; [constructor | discriminate].
Qed.

Lemma traced_raise {A : Type} (e : exn) : traced P (@raise B A e).
Proof.
  intros w r w' H. inversion H; subst. exists []. rewrite app_nil_r.
  repeat split; [constructor | discriminate].
Qed.

Lemma traced_lift {A : Type} (x : res A) : traced P (@lift B A x).
Proof.
  intros w r w' H. inversion H; subst. exists []. rewrite app_nil_r.
  repeat split; [constructor | destruct x; discriminate].
Qed.

Lemma traced_emit (e : event) : P e -> traced P (@emit B e).
Proof.
  intros He w r w' H. inversion H; subst. exists [e]. simpl.
  repeat split; [repeat constructor; exact He | discriminate].
Qed.

Lemma traced_bus_call {A : Type} (f : B -> A * B) : traced P (bus_call f).
Proof.
  intros w r w' H. unfold bus_call in H. destruct (f (bus w)) as [a b'].
  inversion H; subst. exists []. simpl. rewrite app_nil_r.
  repeat split; [constructor | discriminate].
Qed.

Lemma traced_input (p : string) : P (Prompt p) -> traced P (@input B p).
Proof.
  intros Hp w r w' H. unfold input in H.
  exists [Prompt p].
  destruct (stdin w); inversion H; subst; simpl;
    (repeat split; [repeat constructor; exact Hp | discriminate]).
Qed.

Lemma traced_bind {A C : Type} (m : M B A) (k : A -> M B C) :
  traced P m -> (forall a, traced P (k a)) -> traced P (bind m k).
Proof.
  intros Hm Hk w r w' H. unfold bind in H.
  destruct (m w) as [[a|e|c] w1] eqn:Em.
  - destruct (Hm _ _ _ Em) as [t1 [Ht1 [HP1 _]]].
    destruct (Hk a _ _ _ H) as [t2 [Ht2 [HP2 Hx]]].
    exists (t1 ++ t2). rewrite Ht2, Ht1, app_assoc.
    repeat split; [apply Forall_app; split; assumption|].
    intros c Hc. destruct (Hx c Hc) as [t0 [e [-> He]]].
    exists (t1 ++ t0), e. rewrite app_assoc. split; [reflexivity | exact He].
  - inversion H; subst. destruct (Hm _ _ _ Em) as [t1 [Ht1 [HP1 _]]].
    exists t1. repeat split; [assumption .. | discriminate].
  - inversion H; subst. destruct (Hm _ _ _ Em) as [t1 [Ht1 [HP1 Hx]]].
    exists t1. split; [exact Ht1 | split; [exact HP1 |]].
    intros c' Hc. injection Hc as <-. apply Hx. reflexivity.
Qed.

(** The pattern of every end of the process: a message, then [sys.exit]. *)
Lemma traced_log_exit {A : Type} (e : event) (c : Z) :
  P e -> exit_event c e -> traced P (emit e ;; @sys_exit B A c).
Proof.
  intros HP He w r w' H. inversion H; subst. exists [e]. simpl.
  repeat split; [repeat constructor; exact HP|].
  intros c' Hc. injection Hc as <-. exists [], e. split; [reflexivity | exact He].
Qed.

End Rules.

Lemma traced_weaken {B A : Type} (P Q : event -> Prop) (m : M B A) :
  (forall e, P e -> Q e) -> traced P m -> traced Q m.
Proof.
  intros HPQ Hm w r w' H. destruct (Hm _ _ _ H) as [t [Ht [HP Hx]]].
  exists t. repeat split; [exact Ht | | exact Hx].
  eapply Forall_impl; [exact HPQ | exact HP].
Qed.

(** Computations that never end the process *)
Section NeverExits.
Context {B : Type}.

Lemma never_exits_ret {A : Type} (a : A) : never_exits (@ret B A a).
Proof. intros w c w' H. discriminate. Qed.

Lemma never_exits_raise {A : Type} (e : exn) : never_exits (@raise B A e).
Proof. intros w c w' H. discriminate. Qed.

Lemma never_exits_lift {A : Type} (x : res A) : never_exits (@lift B A x).
Proof. intros w c w' H. unfold lift in H. destruct x; discriminate. Qed.

Lemma never_exits_emit (e : event) : never_exits (@emit B e).
Proof. intros w c w' H. discriminate. Qed.

Lemma never_exits_bus_call {A : Type} (f : B -> A * B) : never_exits (bus_call f).
Proof.
  intros w c w' H. unfold bus_call in H. destruct (f (bus w)). discriminate.
Qed.

Lemma never_exits_bind {A C : Type} (m : M B A) (k : A -> M B C) :
  never_exits m -> (forall a, never_exits (k a)) -> never_exits (bind m k).
Proof.
  intros Hm Hk w c w' H. unfold bind in H.
  destruct (m w) as [[a|e|c0] w1] eqn:Em.
  - exact (Hk a _ _ _ H).
  - discriminate.
  - exact (Hm _ _ _ Em).
Qed.

End NeverExits.

(** What is known of the values returned *)
Section Post.
Context {B : Type}.

Lemma post_ret {A : Type} (Q : A -> Prop) (a : A) : Q a -> post Q (@ret B A a).
Proof. intros H w a' w' E. inversion E; subst. exact H. Qed.

Lemma post_raise {A : Type} (Q : A -> Prop) (e : exn) : post Q (@raise B A e).
Proof. intros w a' w' E. discriminate. Qed.

Lemma post_lift {A : Type} (Q : A -> Prop) (x : res A) :
  (forall a, x = Val a -> Q a) -> post Q (@lift B A x).
Proof.
  intros H w a w' E. unfold lift in E. destruct x; inversion E; subst.
  apply H. reflexivity.
Qed.

Lemma post_bind {A C : Type} (Q1 : A -> Prop) (Q2 : C -> Prop)
    (m : M B A) (k : A -> M B C) :
  post Q1 m -> (forall a, Q1 a -> post Q2 (k a)) -> post Q2 (bind m k).
Proof.
  intros Hm Hk w c w' E. unfold bind in E.
  destruct (m w) as [[a|e|c0] w1] eqn:Em; try discriminate.
  exact (Hk a (Hm _ _ _ Em) _ _ _ E).
Qed.

Lemma post_bus_call {A : Type} (f : B -> A * B) :
  post (fun a => exists b b', f b = (a, b')) (bus_call f).
Proof.
  intros w a w' E. unfold bus_call in E.
  destruct (f (bus w)) as [a0 b'] eqn:Ef. inversion E; subst.
  exists (bus w), b'. exact Ef.
Qed.

Lemma post_impl {A : Type} (Q Q' : A -> Prop) (m : M B A) :
  (forall a, Q a -> Q' a) -> post Q m -> post Q' m.
Proof. intros H Hm w a w' E. apply H. exact (Hm _ _ _ E). Qed.

Lemma post_true {A : Type} (m : M B A) : post (fun _ => True) m.
Proof. intros w a w' _. exact I. Qed.

End Post.

(** The equations of [bind] *)
Lemma bind_ok {B A C : Type} (m : M B A) (k : A -> M B C) w a w' :
  m w = (Ok a, w') -> bind m k w = k a w'.
Proof. intros H. unfold bind. rewrite H. reflexivity. Qed.

Lemma bind_raise {B A C : Type} (m : M B A) (k : A -> M B C) w e w' :
  m w = (Raise e, w') -> bind m k w = (Raise e, w').
Proof. intros H. unfold bind. rewrite H. reflexivity. Qed.

Lemma bind_exit {B A C : Type} (m : M B A) (k : A -> M B C) w c w' :
  m w = (Exit c, w') -> bind m k w = (Exit c, w').
Proof. intros H. unfold bind. rewrite H. reflexivity. Qed.

Lemma bind_assoc {B A C D : Type} (m : M B A) (f : A -> M B C) (g : C -> M B D) w :
  bind (bind m f) g w = bind m (fun a => bind (f a) g) w.
Proof. unfold bind. destruct (m w) as [[a|e|c] w1]; reflexivity. Qed.

Lemma bind_ext {B A C : Type} (m : M B A) (f g : A -> M B C) w :
  (forall a w1, f a w1 = g a w1) -> bind m f w = bind m g w.
Proof.
  intros H. unfold bind. destruct (m w) as [[a|e|c] w1]; [apply H | reflexivity ..].
Qed.

End EffFacts.

(* ===================================================================== *)
(** * Configuration by file *)
(* ===================================================================== *)

Module ConfigFacts.

Import Py Eff Aux PyFacts SensoSysDataSource.

Lemma dict_equal_same_keys {V : Type} (d e : dict V) :
  dict_equal d e -> same_keys d e.
Proof.
  intros H k. pose proof (get_None_iff k d) as Hd.
  pose proof (get_None_iff k e) as He. rewrite (H k) in Hd.
  destruct (in_dec string_dec k (keys d)) as [I1|N1];
    destruct (in_dec string_dec k (keys e)) as [I2|N2]; tauto.
Qed.

Lemma update_same_keys_equal {V : Type} (d e : dict V) :
  NoDup (keys e) -> same_keys e d -> dict_equal (update d e) e.
Proof.
  intros Hnd Hk k. destruct (get k e) as [v|] eqn:E.
  - apply get_update_present; assumption.
  - rewrite (get_update_absent _ _ _ E).
    apply get_None_iff. intros Hin. apply Hk in Hin.
    apply get_None_iff in E. contradiction.
Qed.

(** C2. A configuration file whose document is an object with distinct
    keys: [_get_sensosys_configs_by_file], run on the default
    configuration, returns normally; the configuration equals the document
    exactly when the key set of the document is the key set of the default
    configuration; then the method returns [True]; for any other key set it
    logs the error, returns [False] and the configuration is the default
    one, unchanged. *)
Theorem configs_by_file_exact_keys (B : Type) (files : string -> option json)
    (file_name : string) (doc : dict value) (w : world B) :
  files file_name = Some (JDict doc) ->
  NoDup (keys doc) ->
  exists ok cfg w',
    _get_sensosys_configs_by_file B files file_name _sensosys_configs_default w
    = (Ok (ok, cfg), w')
    /\ (dict_equal cfg doc <-> same_keys doc _sensosys_configs_default)
    /\ (same_keys doc _sensosys_configs_default -> ok = true)
    /\ (~ same_keys doc _sensosys_configs_default ->
        ok = false /\ cfg = _sensosys_configs_default /\
        trace w' = trace w ++ [Log SensoSysLogger INFO (MConfiguringByFile file_name);
                               Log SensoSysLogger ERROR (MInvalidKeys file_name)]).
Proof.
  intros Hf Hnd.
  unfold _get_sensosys_configs_by_file, bind, log, emit. simpl. rewrite Hf.
  destruct (same_key_set doc _sensosys_configs_default) eqn:E.
  - assert (Hk : same_keys doc _sensosys_configs_default)
      by exact (proj1 (same_key_set_spec _ _) E).
    eexists _, _, _. split; [reflexivity|]. split; [|split].
    + split; [intros _; exact Hk | intros _].
      apply update_same_keys_equal; assumption.
    + reflexivity.
    + intros Hn. contradiction.
  - assert (Hk : ~ same_keys doc _sensosys_configs_default).
    { intros Hk. pose proof (proj2 (same_key_set_spec _ _) Hk). congruence. }
    eexists _, _, _. split; [reflexivity|]. split; [|split].
    + split; [intros Heq | intros Hs; contradiction].
      exfalso. apply Hk. intros k. symmetry. apply dict_equal_same_keys, Heq.
    + intros Hs. contradiction.
    + intros _. simpl. rewrite <- app_assoc. auto.
Qed.

(** The file of the scenario has the keys in another order. *)
Lemma configs_by_file_exact_keys_witness :
  exists ok cfg w',
    _get_sensosys_configs_by_file nat
      (fun _ => Some (JDict [("time_out", VFloat 1 (-1)); ("port", VStr "COM3");
                             ("scan_by_file", VBool true)]))
      "cfg.json" _sensosys_configs_default (Bench.start [])
    = (Ok (ok, cfg), w')
    /\ (dict_equal cfg [("time_out", VFloat 1 (-1)); ("port", VStr "COM3");
                        ("scan_by_file", VBool true)]
        <-> same_keys [("time_out", VFloat 1 (-1)); ("port", VStr "COM3");
                       ("scan_by_file", VBool true)] _sensosys_configs_default)
    /\ (same_keys [("time_out", VFloat 1 (-1)); ("port", VStr "COM3");
                   ("scan_by_file", VBool true)] _sensosys_configs_default ->
        ok = true)
    /\ (~ same_keys [("time_out", VFloat 1 (-1)); ("port", VStr "COM3");
                     ("scan_by_file", VBool true)] _sensosys_configs_default ->
        ok = false /\ cfg = _sensosys_configs_default /\
        trace w' = trace (Bench.start [])
                   ++ [Log SensoSysLogger INFO (MConfiguringByFile "cfg.json");
                       Log SensoSysLogger ERROR (MInvalidKeys "cfg.json")]).
Proof.
  apply (configs_by_file_exact_keys nat _ "cfg.json" _ (Bench.start [])).
  - reflexivity.
  - repeat constructor; simpl; intuition discriminate.
Defined.

End ConfigFacts.

(* ===================================================================== *)
(** * The header and the measurement row *)
(* ===================================================================== *)

Module MeasurementFacts.

Import Py Eff Aux PyFacts EffFacts SensoSysDataSource.

Section Measurement.
Context {B : Type}.
Variable sensosys : Driver.t B.

#[local] Abbreviation tbl := (Driver.senso_hygbar_sensor_config sensosys).

Lemma repeat_as_map {A C : Type} (x : A) (l : list C) :
  repeat x (List.length l) = map (fun _ => x) l.
Proof. induction l; simpl; congruence. Qed.

(** One device: the names it adds to the header and the values it adds to
    the row are the two sides of its cells, for the answer of its read. *)
Lemma device_step dev P D w w' :
  device_parameters B sensosys dev = Val P ->
  device_data B sensosys dev w = (Ok D, w') ->
  exists z name resp cells,
    int_of_str (fst (fst dev)) = Some z /\
    snd (fst dev) = VStr name /\
    measurement_read sensosys z name (snd dev) (bus w) = (resp, bus w') /\
    device_cells tbl dev resp = Some cells /\
    P = map fst cells /\ D = map snd cells.
Proof.
  destruct dev as [[_id _name] cfg].
  unfold device_parameters, device_data, bind, lift, bus_call, hygbar_params,
    log, emit, ret, raise; simpl.
  destruct (int_of_str _id) as [n|] eqn:En; simpl; [|discriminate 2].
  destruct _name as [| | | |name]; simpl; try discriminate.
  intros HP HD. exists n, name.
  unfold device_cells, columns, measurement_read; simpl.
  destruct (startswith name "ANEMO") eqn:EA.
  { injection HP as <-.
    destruct (Driver.senso_anemo_read_measurement_data _ _ _) as [[r|] b'];
      inversion HD; subst; simpl; eexists _, _;
      repeat split; reflexivity. }
  destruct (startswith name "THERM") eqn:ET.
  { injection HP as <-.
    destruct (Driver.senso_therm_read_temperatures_enabled_channels _ _ _)
      as [[r|] b'];
      inversion HD; subst; simpl; eexists _, _;
      repeat split; reflexivity. }
  destruct (startswith name "HYGRO") eqn:EH; [|discriminate].
  destruct (Driver.senso_hygbar_sensor_config sensosys cfg) as [ps|] eqn:Et;
    simpl in HP; [|discriminate].
  injection HP as <-.
  destruct (Driver.senso_hygbar_read_measurement_data _ _ _ _) as [[r|] b'];
    simpl in HD; inversion HD; subst; simpl; eexists _, _;
    (split; [reflexivity|]); (split; [reflexivity|]); (split; [reflexivity|]);
    (split; [reflexivity|]); rewrite !map_map; simpl;
    (split; [reflexivity|]); rewrite ?repeat_as_map; reflexivity.
Qed.

Lemma loops_aligned devs :
  forall acc dacc w w' params data,
    parameters_loop B sensosys devs acc = Val params ->
    data_loop B sensosys devs dacc w = (Ok data, w') ->
    exists cells,
      params = acc ++ map fst cells /\ data = dacc ++ map snd cells /\
      aligned sensosys devs (bus w) cells (bus w').
Proof.
  induction devs as [|dev devs IH]; intros acc dacc w w' params data HP HD.
  - simpl in *. injection HP as <-. inversion HD; subst.
    exists []. simpl. rewrite !app_nil_r. repeat split. constructor.
  - simpl in HP, HD.
    destruct (device_parameters B sensosys dev) as [P0|] eqn:EP;
      simpl in HP; [|discriminate].
    unfold bind in HD.
    destruct (device_data B sensosys dev w) as [[D0|e|c] w1] eqn:ED;
      try discriminate.
    destruct (device_step _ _ _ _ _ EP ED)
      as [z [name [resp [cells [Hz [Hn [Hr [Hc [-> ->]]]]]]]]].
    destruct (IH _ _ _ _ _ _ HP HD) as [rest [-> [-> Hal]]].
    exists (cells ++ rest). rewrite !map_app, !app_assoc. repeat split.
    econstructor; eassumption.
Qed.

(** A device that has its names in the header has its values in the
    row. *)
Lemma device_data_returns dev P w :
  device_parameters B sensosys dev = Val P ->
  address_key dev ->
  exists D w', device_data B sensosys dev w = (Ok D, w').
Proof.
  destruct dev as [[_id _name] cfg]. intros HP [z Hz]. simpl in Hz. subst _id.
  revert HP.
  unfold device_parameters, device_data, bind, lift, bus_call, hygbar_params,
    log, emit, ret, raise, py_int; simpl.
  rewrite int_of_str_str_of_int.
  destruct _name as [| | | |name]; simpl; try discriminate.
  destruct (startswith name "ANEMO").
  { intros _.
    destruct (Driver.senso_anemo_read_measurement_data _ _ _) as [[r|] b'];
      eauto. }
  destruct (startswith name "THERM").
  { intros _.
    destruct (Driver.senso_therm_read_temperatures_enabled_channels _ _ _)
      as [[r|] b']; eauto. }
  destruct (startswith name "HYGRO"); [|discriminate].
  destruct (Driver.senso_hygbar_sensor_config sensosys cfg) as [ps|] eqn:Et;
    simpl; [|discriminate].
  intros _.
  destruct (Driver.senso_hygbar_read_measurement_data _ _ _ _) as [[r|] b'];
    simpl; rewrite ?Et; simpl; eauto.
Qed.

Lemma data_loop_returns devs :
  forall acc dacc w params,
    parameters_loop B sensosys devs acc = Val params ->
    Forall address_key devs ->
    exists data w', data_loop B sensosys devs dacc w = (Ok data, w').
Proof.
  induction devs as [|dev devs IH]; intros acc dacc w params HP Hk; simpl.
  - eexists _, _. reflexivity.
  - simpl in HP. inversion Hk as [|? ? Hd Hk']; subst.
    destruct (device_parameters B sensosys dev) as [P0|] eqn:EP;
      simpl in HP; [|discriminate].
    destruct (device_data_returns dev P0 w EP Hd) as [D [w1 ED]].
    unfold bind. rewrite ED. eapply IH; eassumption.
Qed.

End Measurement.

(** C1. Whatever the device list and the answers of the instruments, once
    [get_all_measurement_parameters] has returned the header: every row that
    [read_data] returns has the length of the header, and position by
    position the row holds the value of the parameter that the header names
    there: header and row are the two sides of one list of cells, the cells
    of the devices in the order of the device list, each cell the name of a
    column (its parameter and the key of its device) with the value of that
    column in the answer that the device gave to its measurement read in
    this cycle ([None] when it gave none).  For a device list as the scan
    builds it (the keys are the texts of the addresses) [read_data] does
    return a row. *)
Theorem parameters_and_data_aligned (B : Type) (sensosys : Driver.t B)
    (s : self) (w : world B) (params : list string) :
  get_all_measurement_parameters B sensosys s = Val params ->
  (forall data w',
      read_data B sensosys s w = (Ok data, w') ->
      List.length params = List.length data /\
      exists cells,
        aligned sensosys (sensosys_devices_list s) (bus w) cells (bus w') /\
        params = map fst cells /\ data = map snd cells)
  /\ (Forall address_key (sensosys_devices_list s) ->
      exists data w', read_data B sensosys s w = (Ok data, w')).
Proof.
  intros HP. split.
  - intros data w' HD.
    destruct (loops_aligned sensosys _ _ _ _ _ _ _ HP HD) as [cells [-> [-> Hal]]].
    simpl. split; [now rewrite !length_map|].
    exists cells. auto.
  - intros Hk. eapply data_loop_returns; eassumption.
Qed.

Lemma parameters_and_data_aligned_witness :
  exists params,
    get_all_measurement_parameters nat Bench.driver Bench.source = Val params /\
    (forall data w',
        read_data nat Bench.driver Bench.source (Bench.start []) = (Ok data, w') ->
        List.length params = List.length data /\
        exists cells,
          aligned Bench.driver (sensosys_devices_list Bench.source)
            (bus (Bench.start [])) cells (bus w') /\
          params = map fst cells /\ data = map snd cells)
    /\ (Forall address_key (sensosys_devices_list Bench.source) ->
        exists data w',
          read_data nat Bench.driver Bench.source (Bench.start []) = (Ok data, w')).
Proof.
  eexists. split; [vm_compute; reflexivity|].
  apply (parameters_and_data_aligned nat Bench.driver Bench.source (Bench.start [])).
  vm_compute. reflexivity.
Defined.

(** A row with two values exchanged is not aligned with the header: the
    cells of an anemometer that answered with t_a = 21.5, v = 0.12 and
    v_star = 0.10 are these and no others. *)
Example cells_fix_the_positions (cells : list (string * value)) (b' : nat) :
  aligned Bench.driver [("5", VStr "ANEMO-X", VNone)] 0%nat cells b' ->
  cells = [("t_a_5", VFloat 215 (-1)); ("v_5", VFloat 12 (-2));
           ("vstar_5", VFloat 10 (-2))].
Proof.
  intros H. inversion H as [|dev devs z name b resp b1 b2 cs rest Hz Hn Hr Hc Hrest];
    subst.
  inversion Hrest; subst. rewrite app_nil_r.
  vm_compute in Hz. injection Hz as <-.
  simpl in Hn. injection Hn as <-.
  vm_compute in Hr. injection Hr as <- _.
  vm_compute in Hc. injection Hc as <-. reflexivity.
Qed.

(** The header and a row of the test bench: the hygrometer/barometer does
    not answer in this cycle. *)
Example bench_header_and_row :
  get_all_measurement_parameters nat Bench.driver Bench.source
  = Val ["t_a_5"; "v_5"; "vstar_5"; "rh_7"; "t_a_7"; "p_7";
         "t_a_3"; "t_g_3"; "t_w_3"; "t_s_3"] /\
  fst (read_data nat Bench.driver Bench.source (Bench.start []))
  = Ok [VFloat 215 (-1); VFloat 12 (-2); VFloat 10 (-2); VNone; VNone; VNone;
        VFloat 215 (-1); VFloat 220 (-1); VNone; VNone].
Proof. vm_compute. split; reflexivity. Qed.

(** C8. For the device list of one anemometer at address 5, named
    ANEMO-X, the header is t_a_5, v_5, vstar_5; a read cycle in which the
    anemometer does not answer gives the row None, None, None (and logs the
    warning).  The device list holds the address as the key of the device,
    the string 5. *)
Theorem anemometer_scenario (B : Type) (sensosys : Driver.t B) (s : self)
    (w : world B) (b' : B) :
  sensosys_devices_list s = [("5", VStr "ANEMO-X", VNone)] ->
  Driver.senso_anemo_read_measurement_data sensosys 5 (bus w) = (None, b') ->
  get_all_measurement_parameters B sensosys s = Val ["t_a_5"; "v_5"; "vstar_5"] /\
  read_data B sensosys s w
  = (Ok [VNone; VNone; VNone],
     mkWorld b' (stdin w)
       (trace w ++ [Log SensoSysLogger WARNING (MNoData 5 "ANEMO-X")])).
Proof.
  intros Hl Hr. unfold get_all_measurement_parameters, read_data. rewrite Hl.
  split; [reflexivity|].
  unfold data_loop, device_data, bind, lift, bus_call; simpl.
  change (digit_val "5") with 5. rewrite Hr. reflexivity.
Qed.

Lemma anemometer_scenario_witness :
  get_all_measurement_parameters nat Bench.driver
    (mkSelf None None [] [] [] [("5", VStr "ANEMO-X", VNone)])
  = Val ["t_a_5"; "v_5"; "vstar_5"] /\
  read_data nat Bench.driver
    (mkSelf None None [] [] [] [("5", VStr "ANEMO-X", VNone)]) (mkWorld 1%nat [] [])
  = (Ok [VNone; VNone; VNone],
     mkWorld 2%nat [] [Log SensoSysLogger WARNING (MNoData 5 "ANEMO-X")]).
Proof.
  apply (anemometer_scenario nat Bench.driver
           (mkSelf None None [] [] [] [("5", VStr "ANEMO-X", VNone)])
           (mkWorld 1%nat [] []) 2%nat); reflexivity.
Defined.

(** C5. A device of the list whose measurement read gets no answer: the
    cycle goes on with the rest of the list, the row has received as many
    [None] as the device has parameters in the header (3 for an anemometer,
    4 for a thermometer, the number of parameters of the sensor
    configuration for a hygrometer/barometer) and the only other effect is
    the warning in the log. *)
Theorem failed_read_is_not_fatal (B : Type) (sensosys : Driver.t B)
    (n : Z) (name : string) (cfg : value) (ps : list string)
    (rest : list device) (acc : list value) (w : world B) (b' : B) :
  device_parameters B sensosys (str_of_int n, VStr name, cfg) = Val ps ->
  measurement_read sensosys n name cfg (bus w) = (None, b') ->
  data_loop B sensosys ((str_of_int n, VStr name, cfg) :: rest) acc w
  = data_loop B sensosys rest (acc ++ repeat VNone (List.length ps))
      (mkWorld b' (stdin w)
         (trace w ++ [Log SensoSysLogger WARNING (MNoData n name)]))
  /\ (startswith name "ANEMO" = true -> List.length ps = 3%nat)
  /\ (startswith name "ANEMO" = false -> startswith name "THERM" = true ->
      List.length ps = 4%nat)
  /\ (startswith name "ANEMO" = false -> startswith name "THERM" = false ->
      exists qs, Driver.senso_hygbar_sensor_config sensosys cfg = Some qs /\
                 List.length ps = List.length qs).
Proof.
  unfold device_parameters, measurement_read; simpl.
  intros HP HR.
  unfold data_loop at 1. fold (data_loop B sensosys).
  unfold device_data, bind, lift, bus_call, py_int, log, emit, ret; simpl.
  rewrite int_of_str_str_of_int; simpl.
  destruct (startswith name "ANEMO") eqn:EA.
  { injection HP as <-. rewrite HR. simpl.
    repeat split; try discriminate; reflexivity. }
  destruct (startswith name "THERM") eqn:ET.
  { injection HP as <-. rewrite HR. simpl.
    repeat split; try discriminate; reflexivity. }
  destruct (startswith name "HYGRO") eqn:EH; [|discriminate].
  unfold hygbar_params in *.
  destruct (Driver.senso_hygbar_sensor_config sensosys cfg) as [qs|] eqn:Et;
    simpl in HP; [|discriminate].
  injection HP as <-. rewrite HR. simpl. rewrite !length_map.
  repeat split; try discriminate. intros _ _. exists qs. split; reflexivity.
Qed.

Lemma failed_read_is_not_fatal_witness :
  data_loop nat Bench.driver
    [(str_of_int 7, VStr "HYGROBAR", VInt 2); ("3", VStr "THERM-1", VNone)]
    [] (mkWorld 1%nat [] [])
  = data_loop nat Bench.driver [("3", VStr "THERM-1", VNone)]
      ([] ++ repeat VNone (List.length ["rh_7"; "t_a_7"; "p_7"]))
      (mkWorld 2%nat [] [Log SensoSysLogger WARNING (MNoData 7 "HYGROBAR")])
  /\ (startswith "HYGROBAR" "ANEMO" = true ->
      List.length ["rh_7"; "t_a_7"; "p_7"] = 3%nat)
  /\ (startswith "HYGROBAR" "ANEMO" = false -> startswith "HYGROBAR" "THERM" = true ->
      List.length ["rh_7"; "t_a_7"; "p_7"] = 4%nat)
  /\ (startswith "HYGROBAR" "ANEMO" = false -> startswith "HYGROBAR" "THERM" = false ->
      exists qs, Driver.senso_hygbar_sensor_config Bench.driver (VInt 2) = Some qs /\
                 List.length ["rh_7"; "t_a_7"; "p_7"] = List.length qs).
Proof.
  apply (failed_read_is_not_fatal nat Bench.driver 7 "HYGROBAR" (VInt 2)
           ["rh_7"; "t_a_7"; "p_7"] [("3", VStr "THERM-1", VNone)] []
           (mkWorld 1%nat [] []) 2%nat); reflexivity.
Defined.

End MeasurementFacts.

(* ===================================================================== *)
(** * The scan of the bus *)
(* ===================================================================== *)

Module ScanFacts.

Import Py Eff Aux PyFacts EffFacts SensoSysDataSource.
Local Open Scope py_scope.

Section Scan.
Context {B : Type}.
Variable sensosys : Driver.t B.

(** ** The scan never calls [sys.exit] *)

Lemma never_exits_update_from d call :
  never_exits (update_from B d call).
Proof.
  apply never_exits_bind; [apply never_exits_bus_call|].
  intros r. apply never_exits_lift.
Qed.

Lemma never_exits_therm_channels _id chs :
  forall d, never_exits (therm_channels B sensosys _id chs d).
Proof.
  induction chs as [|ch chs IH]; intros d; simpl.
  - apply never_exits_ret.
  - apply never_exits_bind; [apply never_exits_bus_call|].
    intros [ind|]; [apply IH | apply never_exits_raise].
Qed.

Lemma never_exits_read_family _id name d :
  never_exits (read_family B sensosys _id name d).
Proof.
  unfold read_family.
  destruct (startswith name "ANEMO").
  { apply never_exits_bind; intros; apply never_exits_update_from. }
  destruct (startswith name "THERM").
  { apply never_exits_bind;
      [apply never_exits_update_from | intros; apply never_exits_therm_channels]. }
  destruct (startswith name "HYGRO");
    [apply never_exits_update_from | apply never_exits_raise].
Qed.

Lemma never_exits_scan_address _id devs :
  never_exits (scan_address B sensosys _id devs).
Proof.
  unfold scan_address.
  apply never_exits_bind; [apply never_exits_emit | intros _].
  apply never_exits_bind; [apply never_exits_bus_call | intros [resp|]].
  2: apply never_exits_ret.
  repeat (apply never_exits_bind;
          [first [ apply never_exits_lift | apply never_exits_emit
                 | apply never_exits_update_from | apply never_exits_read_family ]
          | intros ]).
  apply never_exits_ret.
Qed.

Lemma never_exits_scan_loop ids :
  forall devs, never_exits (scan_loop B sensosys ids devs).
Proof.
  induction ids as [|i ids IH]; intros devs; simpl.
  - apply never_exits_ret.
  - apply never_exits_bind; [apply never_exits_scan_address | exact IH].
Qed.

Lemma scan_loop_app pre post devs w :
  scan_loop B sensosys (pre ++ post) devs w
  = bind (scan_loop B sensosys pre devs) (scan_loop B sensosys post) w.
Proof.
  revert devs w. induction pre as [|i pre IH]; intros devs w; simpl.
  - reflexivity.
  - rewrite bind_assoc. apply bind_ext. intros a w1. apply IH.
Qed.

(** ** An address that does not answer *)

Lemma scan_no_response _id rest devs w b' :
  Driver.read_instrument_name sensosys _id (bus w) = (None, b') ->
  scan_loop B sensosys (_id :: rest) devs w
  = scan_loop B sensosys rest devs
      (mkWorld b' (stdin w)
         (trace w ++ [Log SensoSysLogger INFO (MScanningAddress _id)])).
Proof.
  intros H. simpl. unfold bind, scan_address, bind, log, emit, bus_call; simpl.
  rewrite H. reflexivity.
Qed.

(** ** An address that answers with a name of no family *)

Lemma read_family_unknown _id name d :
  known_family name = false ->
  post (fun _ => False) (read_family B sensosys _id name d).
Proof.
  unfold known_family, read_family. intros H.
  apply orb_false_elim in H. destruct H as [H HH].
  apply orb_false_elim in H. destruct H as [HA HT].
  rewrite HA, HT, HH. apply post_raise.
Qed.

Lemma scan_address_unknown _id devs w resp b' s :
  Driver.read_instrument_name sensosys _id (bus w) = (Some resp, b') ->
  get "instrument_name" resp = Some (VStr s) ->
  known_family (strip (upper s)) = false ->
  exists e w', scan_address B sensosys _id devs w = (Raise e, w').
Proof.
  intros Hr Hn Hk.
  destruct (scan_address B sensosys _id devs w) as [[devs'|e|c] w'] eqn:E.
  - exfalso. revert E. unfold scan_address, bind at 1, log, emit; simpl.
    unfold bind at 1, bus_call; simpl. rewrite Hr.
    unfold getitem. rewrite Hn. unfold bind at 1, lift at 1; simpl.
    unfold bind at 1, lift at 1; simpl. unfold bind at 1; simpl.
    set (w1 := mkWorld _ _ _). set (d0 := set_item _ _ _).
    intros E.
    refine (post_bind (fun _ => True) (fun _ => False) _ _ _ _ w1 devs' w' E).
    + apply post_true.
    + intros d1 _. eapply post_bind; [apply post_true | intros d2 _].
      eapply post_bind; [apply post_true | intros d3 _].
      eapply post_bind; [apply read_family_unknown; exact Hk | intros ? []].
  - eauto.
  - exfalso. exact (never_exits_scan_address _ _ _ _ _ E).
Qed.

(** ** The instrument name of a record *)

Lemma name_update_from n d call :
  keeps_name call -> name_is n d -> post (name_is n) (update_from B d call).
Proof.
  intros Hk Hn. unfold update_from.
  eapply post_bind; [apply post_bus_call|].
  intros r [b [b' Hc]]. apply post_lift. intros a Ha.
  destruct r as [r|]; simpl in Ha; [|discriminate].
  injection Ha as <-. unfold name_is.
  rewrite (get_update_absent _ _ _ (Hk _ _ _ Hc)). exact Hn.
Qed.

Lemma name_therm_channels n _id chs :
  forall d, name_is n d -> post (name_is n) (therm_channels B sensosys _id chs d).
Proof.
  induction chs as [|ch chs IH]; intros d Hn; simpl.
  - apply post_ret, Hn.
  - eapply post_bind; [apply post_true|]. intros [ind|] _; [|apply post_raise].
    apply IH. unfold name_is. rewrite get_set_item_other; [exact Hn|].
    simpl. discriminate.
Qed.

Lemma name_read_family n _id name d :
  names_kept sensosys -> name_is n d ->
  post (fun d' => name_is n d' /\ known_family name = true)
       (read_family B sensosys _id name d).
Proof.
  intros [H1 H2 H3 H4 H5 H6 H7] Hn. unfold read_family, known_family.
  destruct (startswith name "ANEMO").
  { eapply post_bind; [apply name_update_from; [apply H4 | exact Hn]|].
    intros d1 Hn1. eapply post_impl; [|apply name_update_from; [apply H5 | exact Hn1]].
    intros d2 Hn2. split; [exact Hn2 | reflexivity]. }
  destruct (startswith name "THERM").
  { eapply post_bind; [apply name_update_from; [apply H6 | exact Hn]|].
    intros d1 Hn1.
    eapply post_impl; [|apply name_therm_channels; exact Hn1].
    intros d2 Hn2. split; [exact Hn2 | reflexivity]. }
  destruct (startswith name "HYGRO"); [|apply post_raise].
  eapply post_impl; [|apply name_update_from; [apply H7 | exact Hn]].
  intros d1 Hn1. split; [exact Hn1 | reflexivity].
Qed.

Lemma name_convert_date_loop n fmts s :
  forall d, name_is n d -> name_is n (convert_date_loop fmts s d).
Proof.
  induction fmts as [|f fmts IH]; intros d Hn; simpl; [exact Hn|].
  destruct (Strptime.strptime s f); apply IH; [|exact Hn].
  unfold name_is. rewrite get_set_item_other; [exact Hn | discriminate].
Qed.

Lemma name_convert_calibration_date n d d' :
  name_is n d -> convert_calibration_date d = Val d' -> name_is n d'.
Proof.
  unfold convert_calibration_date. intros Hn.
  destruct (py_get "calibration_expired_date" d); try discriminate;
    intros H; injection H as <-; [exact Hn|].
  exact (name_convert_date_loop n _date_formats _ d Hn).
Qed.

Lemma Forall_set_item {V : Type} (Q : V -> Prop) k v (d : dict V) :
  Forall (fun kv => Q (snd kv)) d -> Q v ->
  Forall (fun kv => Q (snd kv)) (set_item k v d).
Proof.
  intros Hd Hv. induction Hd as [|[k' v'] d Hx Hd IH]; simpl.
  - repeat constructor. exact Hv.
  - destruct (String.eqb k k'); constructor; auto.
Qed.

(** What one address does to the mapping: nothing, or one record of a
    known family stored under the address. *)
Lemma scan_address_result _id devs :
  names_kept sensosys ->
  post (fun devs' =>
          devs' = devs \/
          exists d, devs' = set_item (str_of_int _id) d devs /\ record_ok d)
       (scan_address B sensosys _id devs).
Proof.
  intros Hk. unfold scan_address.
  eapply post_bind; [apply post_true | intros _ _].
  eapply post_bind; [apply post_true | intros [resp|] _].
  2: { apply post_ret. left. reflexivity. }
  eapply post_bind; [apply post_true | intros raw _].
  eapply post_bind; [apply post_true | intros s _].
  set (name := strip (upper s)).
  assert (H0 : name_is name (set_item "instrument_name" (VStr name) resp))
    by apply get_set_item_same.
  eapply post_bind; [apply post_true | intros _ _].
  eapply post_bind; [apply name_update_from; [apply Hk | exact H0] | intros d1 H1].
  eapply post_bind; [apply name_update_from; [apply Hk | exact H1] | intros d2 H2].
  eapply post_bind; [apply name_update_from; [apply Hk | exact H2] | intros d3 H3].
  eapply post_bind; [apply name_read_family; [exact Hk | exact H3] | intros d4 [H4 Hf]].
  eapply post_bind.
  { apply (post_lift (name_is name)). intros a Ha.
    eapply name_convert_calibration_date; eassumption. }
  intros d5 H5. apply post_ret. right. exists d5. split; [reflexivity|].
  exists name. split; assumption.
Qed.

Lemma scan_loop_records ids :
  names_kept sensosys ->
  forall devs, Forall (fun kv => record_ok (snd kv)) devs ->
  post (Forall (fun kv => record_ok (snd kv))) (scan_loop B sensosys ids devs).
Proof.
  intros Hk. induction ids as [|i ids IH]; intros devs Hd; simpl.
  - apply post_ret, Hd.
  - eapply post_bind; [apply scan_address_result, Hk|].
    intros devs' [->|[d [-> Hok]]]; apply IH; [exact Hd|].
    apply Forall_set_item; assumption.
Qed.

End Scan.

Lemma devices_list_of_records (devs : dict (dict value)) :
  Forall (fun kv => record_ok (snd kv)) devs ->
  exists l, devices_list_of devs = Val l /\ Forall entry_ok l /\
            entry_keys l = keys devs.
Proof.
  induction 1 as [|[k v] devs [name [Hn Hf]] _ [l [Hl [Hok Hkeys]]]]; simpl.
  - exists []. repeat split. constructor.
  - simpl in Hn. unfold getitem. rewrite Hn. simpl. rewrite Hl. simpl.
    eexists. split; [reflexivity|]. split.
    + constructor; [exists name; split; [reflexivity | exact Hf] | exact Hok].
    + simpl. now rewrite Hkeys.
Qed.

Lemma devices_list_of_keys (devs : dict (dict value)) l :
  devices_list_of devs = Val l -> entry_keys l = keys devs.
Proof.
  revert l. induction devs as [|[k v] devs IH]; simpl; intros l H.
  - injection H as <-. reflexivity.
  - destruct (getitem "instrument_name" v); simpl in H; [|discriminate].
    destruct (devices_list_of devs) as [l'|]; simpl in H; [|discriminate].
    injection H as <-. simpl. now rewrite (IH l' eq_refl).
Qed.

(** ** The error of an instrument name of no family *)

Section InvalidName.
Context {B : Type}.
Variable sensosys : Driver.t B.

Lemma known_family_cases name :
  known_family name = true ->
  startswith name "ANEMO" = true \/
  (startswith name "ANEMO" = false /\ startswith name "THERM" = true) \/
  (startswith name "ANEMO" = false /\ startswith name "THERM" = false /\
   startswith name "HYGRO" = true).
Proof.
  unfold known_family.
  destruct (startswith name "ANEMO"), (startswith name "THERM"),
    (startswith name "HYGRO"); simpl; intros H; try discriminate; tauto.
Qed.

Lemma device_parameters_known dev n :
  entry_ok dev -> device_parameters B sensosys dev <> Err (InvalidInstrumentName n).
Proof.
  destruct dev as [[_id _name] cfg]. intros [name [Hn Hf]]. simpl in Hn. subst.
  unfold device_parameters, hygbar_params. simpl.
  destruct (known_family_cases name Hf) as [HA | [[HA HT] | [HA [HT HH]]]];
    rewrite ?HA, ?HT, ?HH; try discriminate.
  destruct (Driver.senso_hygbar_sensor_config sensosys cfg); discriminate.
Qed.

Lemma device_data_known dev n w w' :
  entry_ok dev ->
  device_data B sensosys dev w <> (Raise (InvalidInstrumentName n), w').
Proof.
  destruct dev as [[_id _name] cfg]. intros [name [Hn Hf]]. simpl in Hn. subst.
  unfold device_data, hygbar_params, bind, lift, bus_call, log, emit, ret. simpl.
  destruct (int_of_str _id); simpl; [|discriminate].
  destruct (known_family_cases name Hf) as [HA | [[HA HT] | [HA [HT HH]]]];
    rewrite ?HA, ?HT, ?HH.
  - destruct (Driver.senso_anemo_read_measurement_data _ _ _) as [[r|] b'];
      discriminate.
  - destruct (Driver.senso_therm_read_temperatures_enabled_channels _ _ _)
      as [[r|] b']; discriminate.
  - destruct (Driver.senso_hygbar_read_measurement_data _ _ _ _) as [[r|] b'];
      simpl; destruct (Driver.senso_hygbar_sensor_config sensosys cfg);
      discriminate.
Qed.

Lemma parameters_loop_known l n :
  Forall entry_ok l ->
  forall acc, parameters_loop B sensosys l acc <> Err (InvalidInstrumentName n).
Proof.
  induction 1 as [|dev l Hd _ IH]; intros acc; simpl; [discriminate|].
  destruct (device_parameters B sensosys dev) as [ps|e] eqn:E; simpl.
  - apply IH.
  - intros H. injection H as ->. exact (device_parameters_known _ _ Hd E).
Qed.

Lemma data_loop_known l n :
  Forall entry_ok l ->
  forall acc w w', data_loop B sensosys l acc w <> (Raise (InvalidInstrumentName n), w').
Proof.
  induction 1 as [|dev l Hd _ IH]; intros acc w w'; simpl; [discriminate|].
  unfold bind.
  destruct (device_data B sensosys dev w) as [[vs|e|c] w1] eqn:E.
  - apply IH.
  - intros H. injection H as -> ->. exact (device_data_known _ _ _ _ Hd E).
  - discriminate.
Qed.

End InvalidName.

(** C4. The scan of a list of candidate addresses.  An address whose
    identity query gets no answer changes nothing in the mapping and raises
    nothing: the scan goes on with the next address (and a scan in which no
    address answers returns the empty mapping).  An address that answers
    with a name of ASCII text which, in upper case and trimmed, starts with
    none of ANEMO, THERM and HYGRO makes the whole scan end in an exception,
    whatever the addresses after it. *)
Theorem scan_skips_silent_and_fails_on_unknown (B : Type) (sensosys : Driver.t B) :
  (forall _id rest devs w b',
      Driver.read_instrument_name sensosys _id (bus w) = (None, b') ->
      scan_loop B sensosys (_id :: rest) devs w
      = scan_loop B sensosys rest devs
          (mkWorld b' (stdin w)
             (trace w ++ [Log SensoSysLogger INFO (MScanningAddress _id)])))
  /\ (forall ids w,
        (forall i b, In i ids ->
                     fst (Driver.read_instrument_name sensosys i b) = None) ->
        exists w', _scan_devices B sensosys ids w = (Ok [], w'))
  /\ (forall pre _id rest w0,
        (forall devs w,
            scan_loop B sensosys pre [] w0 = (Ok devs, w) ->
            exists resp b' s,
              Driver.read_instrument_name sensosys _id (bus w) = (Some resp, b') /\
              get "instrument_name" resp = Some (VStr s) /\
              isascii s = true /\
              known_family (strip (upper s)) = false) ->
        exists e w', _scan_devices B sensosys (pre ++ _id :: rest) w0 = (Raise e, w')).
Proof.
  split; [|split].
  - intros. now apply scan_no_response.
  - unfold _scan_devices. intros ids. generalize (@nil (string * dict value)).
    induction ids as [|i ids IH]; intros devs w H.
    + eexists. reflexivity.
    + destruct (Driver.read_instrument_name sensosys i (bus w)) as [r b'] eqn:E.
      pose proof (H i (bus w) (or_introl eq_refl)) as Hn. rewrite E in Hn.
      simpl in Hn. subst r. rewrite (scan_no_response _ _ _ _ _ _ E).
      apply IH. intros j b Hj. apply H. now right.
  - intros pre _id rest w0 H. unfold _scan_devices. rewrite scan_loop_app.
    unfold bind at 1.
    destruct (scan_loop B sensosys pre [] w0) as [[devs|e|c] w] eqn:E.
    + destruct (H _ _ eq_refl) as [resp [b' [s [Hr [Hn [_ Hk]]]]]].
      destruct (scan_address_unknown sensosys _id devs w resp b' s Hr Hn Hk)
        as [e [w' He]].
      exists e, w'. simpl. unfold bind. rewrite He. reflexivity.
    + eauto.
    + exfalso. exact (never_exits_scan_loop _ _ _ _ _ _ E).
Qed.

Lemma scan_skips_silent_and_fails_on_unknown_witness :
  exists e w',
    _scan_devices nat Bench.driver ([4; 5] ++ 9 :: [3]) (Bench.start []) = (Raise e, w').
Proof.
  apply (proj2 (proj2 (scan_skips_silent_and_fails_on_unknown nat Bench.driver))
           [4; 5] 9 [3] (Bench.start [])).
  intros devs w H. vm_compute in H. injection H as <- <-.
  exists [("instrument_name", VStr "Lux-2")], 8%nat, "Lux-2".
  repeat split.
Defined.

(** C10, as the code has it.  With a driver whose other reads do not
    answer with an instrument name: after a scan that succeeded, the device
    list exists, every name in it is a string that starts with ANEMO, THERM
    or HYGRO, and neither [get_all_measurement_parameters] nor [read_data]
    can end in the error "Invalid instrument name", whatever the
    instruments answer later. *)
Theorem invalid_name_unreachable_after_scan (B : Type) (sensosys : Driver.t B)
    (ids : list Z) (w w' : world B) (devs : dict (dict value)) :
  names_kept sensosys ->
  _scan_devices B sensosys ids w = (Ok devs, w') ->
  exists l,
    devices_list_of devs = Val l /\
    Forall entry_ok l /\
    forall s, sensosys_devices_list s = l ->
      (forall n, get_all_measurement_parameters B sensosys s
                 <> Err (InvalidInstrumentName n)) /\
      (forall n w1 w2, read_data B sensosys s w1
                       <> (Raise (InvalidInstrumentName n), w2)).
Proof.
  intros Hk Hs.
  assert (Hr : Forall (fun kv => record_ok (snd kv)) devs).
  { exact (scan_loop_records sensosys ids Hk [] (Forall_nil _) _ _ _ Hs). }
  destruct (devices_list_of_records devs Hr) as [l [Hl [Hok _]]].
  exists l. split; [exact Hl|]. split; [exact Hok|].
  intros s <-. split.
  - intros n. apply parameters_loop_known, Hok.
  - intros n w1 w2. apply data_loop_known, Hok.
Qed.

Lemma invalid_name_unreachable_after_scan_witness :
  exists devs,
    fst (_scan_devices nat Bench.driver [5; 3; 4; 7] (Bench.start [])) = Ok devs /\
    exists l,
      devices_list_of devs = Val l /\
      Forall entry_ok l /\
      forall s, sensosys_devices_list s = l ->
        (forall n, get_all_measurement_parameters nat Bench.driver s
                   <> Err (InvalidInstrumentName n)) /\
        (forall n w1 w2, read_data nat Bench.driver s w1
                         <> (Raise (InvalidInstrumentName n), w2)).
Proof.
  eexists. split; [vm_compute; reflexivity|].
  eapply (invalid_name_unreachable_after_scan nat Bench.driver [5; 3; 4; 7]
            (Bench.start [])).
  - split; intros i b r b' H; unfold Bench.driver, Bench.tick in H; simpl in H;
      injection H as <- _; unfold Bench.calibration_at;
      repeat match goal with
             | |- context [if ?c then _ else _] => destruct c
             end; reflexivity.
  - vm_compute. reflexivity.
Defined.

(** C10 without the proviso on the driver fails: the name is checked on
    the answer of [read_instrument_name], the answers of the later reads are
    merged into the same record and the device list takes the name from the
    record.  With a battery read that answers with the instrument name lux
    the scan of the anemometer at address 5 succeeds, and both methods end
    in the error "Invalid instrument name 'lux'". *)
Lemma renamed_instrument_counterexample :
  exists devs w',
    _scan_devices nat Bench.driver_renaming [5] (Bench.start []) = (Ok devs, w') /\
    devices_list_of devs = Val [("5", VStr "lux", VNone)] /\
    get_all_measurement_parameters nat Bench.driver_renaming
      (mkSelf None None _sensosys_configs_default ["COM1"; "COM3"] devs
         [("5", VStr "lux", VNone)])
    = Err (InvalidInstrumentName "lux") /\
    fst (read_data nat Bench.driver_renaming
           (mkSelf None None _sensosys_configs_default ["COM1"; "COM3"] devs
              [("5", VStr "lux", VNone)]) w')
    = Raise (InvalidInstrumentName "lux").
Proof.
  eexists _, _. split; [vm_compute; reflexivity|].
  split; [vm_compute; reflexivity|].
  split; vm_compute; reflexivity.
Qed.

(** ** The order of the mapping *)

Section Order.
Context {B : Type}.
Variable sensosys : Driver.t B.

Lemma keys_set_item_add_key {V : Type} k (v : V) (d : dict V) :
  keys (set_item k v d) = add_key (keys d) k.
Proof. rewrite keys_set_item. reflexivity. Qed.

Lemma scan_address_shape _id devs :
  post (fun devs' =>
          devs' = devs \/ exists d, devs' = set_item (str_of_int _id) d devs)
       (scan_address B sensosys _id devs).
Proof.
  unfold scan_address.
  eapply post_bind; [apply post_true | intros _ _].
  eapply post_bind; [apply post_true | intros [resp|] _].
  2: { apply post_ret. left. reflexivity. }
  repeat (eapply post_bind; [apply post_true | intros ? _]).
  apply post_ret. right. eexists. reflexivity.
Qed.

Lemma scan_loop_keys ids :
  forall devs,
    post (fun devs' =>
            exists found, subseq found ids /\
              keys devs' = fold_left add_key (map str_of_int found) (keys devs))
         (scan_loop B sensosys ids devs).
Proof.
  induction ids as [|i ids IH]; intros devs; simpl.
  - apply post_ret. exists []. split; [constructor | reflexivity].
  - eapply post_bind; [apply scan_address_shape|].
    intros devs1 [->|[d ->]]; (eapply post_impl; [|apply IH]).
    + intros devs' [found [Hs Hk]]. exists found. split; [now constructor | exact Hk].
    + intros devs' [found [Hs Hk]]. exists (i :: found).
      split; [now constructor|]. simpl. rewrite keys_set_item_add_key in Hk. exact Hk.
Qed.

End Order.

Lemma subseq_In {A : Type} (l l' : list A) x : subseq l l' -> In x l -> In x l'.
Proof.
  induction 1 as [|a l l' _ IH|a l l' _ IH]; simpl; intros Hx; auto.
  destruct Hx; auto.
Qed.

Lemma subseq_sorted (l l' : list Z) :
  subseq l l' -> StronglySorted Z.lt l' -> StronglySorted Z.lt l.
Proof.
  induction 1 as [|a l l' Hs IH|a l l' Hs IH]; intros H.
  - constructor.
  - inversion H; subst. auto.
  - inversion H as [|? ? Hs' Hall]; subst. constructor; [auto|].
    rewrite Forall_forall in *. intros x Hx. apply Hall.
    eapply subseq_In; eassumption.
Qed.

Lemma sorted_keys_NoDup (zs : list Z) :
  StronglySorted Z.lt zs -> NoDup (map str_of_int zs).
Proof.
  induction 1 as [|a l Hs IH Hall]; simpl; constructor; [|exact IH].
  intros Hin. apply in_map_iff in Hin. destruct Hin as [x [Hx Hin]].
  apply str_of_int_inj in Hx. subst x.
  rewrite Forall_forall in Hall. specialize (Hall a Hin). lia.
Qed.

Lemma existsb_eqb_In k (ks : list string) :
  existsb (String.eqb k) ks = true <-> In k ks.
Proof.
  rewrite existsb_exists. split.
  - intros [x [Hx Hk]]. apply String.eqb_eq in Hk. now subst.
  - intros H. exists k. split; [exact H | apply String.eqb_refl].
Qed.

Lemma fold_add_key_NoDup (l : list string) :
  forall acc, NoDup (acc ++ l) -> fold_left add_key l acc = acc ++ l.
Proof.
  induction l as [|k l IH]; intros acc H; simpl.
  - now rewrite app_nil_r.
  - assert (Hk : existsb (String.eqb k) acc = false).
    { destruct (existsb (String.eqb k) acc) eqn:E; [|reflexivity].
      apply existsb_eqb_In in E. apply NoDup_remove_2 in H.
      exfalso. apply H. apply in_or_app. now left. }
    unfold add_key at 2. rewrite Hk.
    replace (acc ++ k :: l) with ((acc ++ [k]) ++ l) by now rewrite <- app_assoc.
    apply IH. now rewrite <- app_assoc.
Qed.

Lemma range_sorted (n a : nat) :
  StronglySorted Z.lt (map Z.of_nat (seq a n)).
Proof.
  revert a. induction n as [|n IH]; intros a; simpl; constructor; [apply IH|].
  rewrite Forall_forall. intros x Hx. apply in_map_iff in Hx.
  destruct Hx as [y [<- Hy]]. apply in_seq in Hy. lia.
Qed.

(** C9, as the code has it.  The device list follows the order of the
    scan-result mapping.  The mapping holds the addresses that answered in
    the order in which the scan met them first: for a list of addresses in
    ascending order, and so for the scan of the range 0-255, that is the
    ascending order of the addresses; the addresses of a file are scanned
    in the order of the file. *)
Theorem device_list_in_scan_order (B : Type) (sensosys : Driver.t B) :
  (forall devs l, devices_list_of devs = Val l -> entry_keys l = keys devs)
  /\ (forall ids w devs w',
        _scan_devices B sensosys ids w = (Ok devs, w') ->
        exists found, subseq found ids /\
          keys devs = fold_left add_key (map str_of_int found) [])
  /\ (forall ids w devs w',
        StronglySorted Z.lt ids ->
        _scan_devices B sensosys ids w = (Ok devs, w') ->
        ascending_keys (keys devs))
  /\ (forall w devs w',
        _scan_devices_by_ids B sensosys w = (Ok devs, w') ->
        ascending_keys (keys devs)).
Proof.
  assert (Hgen : forall ids w devs w',
             _scan_devices B sensosys ids w = (Ok devs, w') ->
             exists found, subseq found ids /\
               keys devs = fold_left add_key (map str_of_int found) []).
  { intros ids w devs w' H. exact (scan_loop_keys sensosys ids [] _ _ _ H). }
  assert (Hsorted : forall ids w devs w',
             StronglySorted Z.lt ids ->
             _scan_devices B sensosys ids w = (Ok devs, w') ->
             ascending_keys (keys devs)).
  { intros ids w devs w' Hs H. destruct (Hgen _ _ _ _ H) as [found [Hsub Hk]].
    pose proof (subseq_sorted _ _ Hsub Hs) as Hf.
    exists found. split; [|exact Hf].
    rewrite Hk. apply (fold_add_key_NoDup _ []). simpl.
    apply sorted_keys_NoDup, Hf. }
  split; [exact devices_list_of_keys|]. split; [exact Hgen|].
  split; [exact Hsorted|].
  intros w devs w' H. eapply Hsorted; [|exact H]. apply range_sorted.
Qed.

Lemma device_list_in_scan_order_witness :
  exists devs,
    fst (_scan_devices nat Bench.driver [3; 4; 5; 7] (Bench.start [])) = Ok devs /\
    ascending_keys (keys devs).
Proof.
  eexists. split; [vm_compute; reflexivity|].
  eapply (proj1 (proj2 (proj2 (device_list_in_scan_order nat Bench.driver)))
            [3; 4; 5; 7] (Bench.start [])).
  - repeat constructor.
  - vm_compute. reflexivity.
Defined.

(** C9, read as "ascending for every scan", fails for a file of addresses
    that is not in ascending order: the file lists 5 then 3, both
    instruments answer, and the device list is 5, 3. *)
Lemma file_scan_order_counterexample :
  exists devs w' l,
    _scan_devices_by_file nat Bench.driver Bench.ids_5_3 Bench.not_found
      "_config/SensoSysAllDevicesIDs_default.json" (Bench.start [])
    = (Ok devs, w') /\
    devices_list_of devs = Val l /\
    entry_keys l = ["5"; "3"] /\
    ~ ascending_keys (entry_keys l).
Proof.
  eexists _, _, _. split; [vm_compute; reflexivity|].
  split; [vm_compute; reflexivity|].
  split; [vm_compute; reflexivity|].
  intros [zs [Hk Hs]]. simpl in Hk.
  destruct zs as [|a [|b [|c zs]]]; try discriminate.
  simpl in Hk. injection Hk as Ha Hb.
  change "5" with (str_of_int 5) in Ha. change "3" with (str_of_int 3) in Hb.
  apply str_of_int_inj in Ha, Hb. subst.
  inversion Hs as [|? ? _ Hall]; subst. inversion Hall; subst. lia.
Qed.

End ScanFacts.

(* ===================================================================== *)
(** * The calibration date *)
(* ===================================================================== *)

Module DateFacts.

Import Py Eff Aux PyFacts SensoSysDataSource Strptime.

(** ** Enumerating a range *)

Lemma in_zrange (lo z : Z) (n : nat) :
  lo <= z < lo + Z.of_nat n -> In z (zrange lo n).
Proof.
  intros H. unfold zrange. apply in_map_iff.
  exists (Z.to_nat (z - lo)). split; [lia|]. apply in_seq. lia.
Qed.

Ltac enumerate H :=
  simpl in H;
  repeat (destruct H as [H|H]; [rewrite <- H; clear H|]);
  try contradiction.

Ltac enumerate_all H :=
  simpl in H;
  repeat (destruct H as [H|H]; [subst|]);
  try contradiction.

(** ** The text of a day of the calendar is read back as that day *)

Lemma match_dir_lit (d : directive) (c : ascii) (t : list ftok) (s : string)
    (g : groups) :
  match_toks (FDir d :: FLit c :: t) s g
  = first_some
      (fun mr =>
         match snd mr with
         | String c' s' =>
             if Ascii.eqb c' c then match_toks t s' (set_group d (fst mr) g)
             else None
         | EmptyString => None
         end)
      (alts_matches (regex_of d) s).
Proof. reflexivity. Qed.

Lemma day_step (sep : ascii) (d : Z) (t : list ftok) (rest : string) (g : groups) :
  is_sep sep -> 1 <= d <= 31 ->
  match_toks (FDir DDay :: FLit sep :: t) (pad 2 d ++ String sep rest) g
  = match_toks t rest (set_group DDay (pad 2 d) g).
Proof.
  intros Hs Hd.
  assert (H : In d (zrange 1 31)) by (apply in_zrange; lia).
  rewrite match_dir_lit. generalize (match_toks t). intros k.
  destruct Hs as [-> | ->]; enumerate H; vm_compute;
    destruct (k rest _); reflexivity.
Qed.

Lemma month_step (sep : ascii) (m : Z) (t : list ftok) (rest : string) (g : groups) :
  is_sep sep -> 1 <= m <= 12 ->
  match_toks (FDir DMonth :: FLit sep :: t) (pad 2 m ++ String sep rest) g
  = match_toks t rest (set_group DMonth (pad 2 m) g).
Proof.
  intros Hs Hm.
  assert (H : In m (zrange 1 12)) by (apply in_zrange; lia).
  rewrite match_dir_lit. generalize (match_toks t). intros k.
  destruct Hs as [-> | ->]; enumerate H; vm_compute;
    destruct (k rest _); reflexivity.
Qed.

Lemma year_step (yy : Z) (g : groups) :
  0 <= yy <= 99 ->
  match_toks [FDir DYear2] (pad 2 yy) g
  = Some (set_group DYear2 (pad 2 yy) g, EmptyString).
Proof.
  intros Hy.
  assert (H : In yy (zrange 0 100)) by (apply in_zrange; lia).
  enumerate H; reflexivity.
Qed.

Lemma int_of_pad2 (z : Z) : 0 <= z <= 99 -> int_of_str (pad 2 z) = Some z.
Proof.
  intros Hz.
  assert (H : In z (zrange 0 100)) by (apply in_zrange; lia).
  enumerate H; reflexivity.
Qed.

Lemma calendar_day_bounds (d m yy : Z) :
  calendar_day d m yy = true ->
  0 <= yy <= 99 /\ 1 <= m <= 12 /\ 1 <= d <= days_in_month (full_year yy) m.
Proof.
  unfold calendar_day. rewrite !andb_true_iff, !Z.leb_le. lia.
Qed.

Lemma days_in_month_le_31 (y m : Z) : days_in_month y m <= 31.
Proof.
  unfold days_in_month.
  destruct (m =? 2); [destruct (is_leap y); lia|].
  destruct ((m =? 4) || (m =? 6) || (m =? 9) || (m =? 11)); lia.
Qed.

Lemma two_digit_parse (sep : ascii) (d m yy : Z) :
  is_sep sep -> calendar_day d m yy = true ->
  strptime (two_digit_date sep d m yy) (date_format sep)
  = Some (mkDate (full_year yy) m d).
Proof.
  intros Hs Hc. destruct (calendar_day_bounds _ _ _ Hc) as [Hy [Hm Hd]].
  pose proof (days_in_month_le_31 (full_year yy) m) as H31.
  unfold strptime.
  assert (Hf : parse_format (date_format sep)
               = Some [FDir DDay; FLit sep; FDir DMonth; FLit sep; FDir DYear2])
    by (destruct Hs as [-> | ->]; reflexivity).
  rewrite Hf. unfold two_digit_date.
  rewrite (day_step sep d _ _ _ Hs) by lia.
  rewrite (month_step sep m _ _ _ Hs) by lia.
  rewrite (year_step yy) by lia.
  unfold year_of, group_int. simpl.
  rewrite !int_of_pad2 by lia.
  assert (Hfy : (if yy <=? 68 then yy + 2000 else yy + 1900) = full_year yy).
  { unfold full_year. destruct (yy <=? 68); lia. }
  rewrite Hfy.
  assert (Hv : valid_date (mkDate (full_year yy) m d) = true).
  { unfold valid_date. simpl. rewrite !andb_true_iff, !Z.leb_le.
    unfold full_year in *. destruct (yy <=? 68); lia. }
  rewrite Hv. reflexivity.
Qed.

Lemma append_empty (s : string) : (s ++ "")%string = s.
Proof. induction s; simpl; congruence. Qed.

Lemma strftime_iso (dt : date) : strftime dt "%Y-%m-%d" = iso_date dt.
Proof.
  unfold strftime, iso_date. simpl. now rewrite append_empty.
Qed.

(** ** A text is read by one of the two formats at most *)

Lemma first_some_In {A C : Type} (f : A -> option C) (l : list A) (c : C) :
  first_some f l = Some c -> exists a, In a l /\ f a = Some c.
Proof.
  induction l as [|a l IH]; simpl; [discriminate|].
  destruct (f a) as [c'|] eqn:E.
  - intros H. injection H as <-. exists a. auto.
  - intros H. destruct (IH H) as [a' [Hin Hf]]. exists a'. auto.
Qed.

Lemma alts_matches_In (alts : list (list cclass)) (s : string) mr :
  In mr (alts_matches alts s) ->
  exists a, In a alts /\ match_seq a s = Some mr.
Proof.
  induction alts as [|a alts IH]; simpl; [tauto|].
  destruct (match_seq a s) as [mr'|] eqn:E.
  - intros [<-|H]; [exists a; auto|].
    destruct (IH H) as [a' [Hin Hm]]. exists a'. auto.
  - intros H. destruct (IH H) as [a' [Hin Hm]]. exists a'. auto.
Qed.

Lemma in_class_day (k : cclass) (c : ascii) :
  class_in_day k = true -> in_class k c = true -> day_char c = true.
Proof.
  destruct k as [|lo hi|c0]; unfold class_in_day, in_class; intros Hk Hc.
  - unfold day_char. now rewrite Hc.
  - unfold day_char, is_digit. apply andb_prop in Hk, Hc.
    destruct Hk as [H1 H2], Hc as [H3 H4].
    apply Nat.leb_le in H1, H2, H3, H4.
    replace (48 <=? code c)%nat with true by (symmetry; apply Nat.leb_le; lia).
    replace (code c <=? 57)%nat with true by (symmetry; apply Nat.leb_le; lia).
    reflexivity.
  - apply Ascii.eqb_eq in Hc. now subst.
Qed.

Lemma match_seq_shape (ks : list cclass) :
  forall s m r,
    match_seq ks s = Some (m, r) ->
    forallb class_in_day ks = true ->
    s = (m ++ r)%string /\ String.length m = List.length ks /\
    all_chars day_char m = true.
Proof.
  induction ks as [|k ks IH]; intros s m r H Hk; simpl in *.
  - injection H as <- <-. auto.
  - destruct s as [|c s]; [discriminate|].
    destruct (in_class k c) eqn:Ec; [|discriminate].
    destruct (match_seq ks s) as [[m' r']|] eqn:Em; [|discriminate].
    injection H as <- <-. apply andb_prop in Hk. destruct Hk as [Hk1 Hk2].
    destruct (IH _ _ _ Em Hk2) as [-> [Hl Ha]].
    simpl. rewrite Hl, Ha, (in_class_day _ _ Hk1 Ec). auto.
Qed.

Lemma parse_date_format (sep : ascii) :
  is_sep sep ->
  parse_format (date_format sep)
  = Some [FDir DDay; FLit sep; FDir DMonth; FLit sep; FDir DYear2].
Proof. intros [-> | ->]; reflexivity. Qed.

Lemma strptime_day_then (sep : ascii) (s : string) (dt : date) :
  is_sep sep -> strptime s (date_format sep) = Some dt -> day_then sep s.
Proof.
  intros Hs. unfold strptime. rewrite (parse_date_format sep Hs).
  destruct (match_toks _ s no_groups) as [[g r]|] eqn:E; [|discriminate].
  intros _. rewrite match_dir_lit in E.
  apply first_some_In in E. destruct E as [[m r0] [Hin Hk]]. simpl in Hk.
  destruct r0 as [|c r0]; [discriminate|].
  destruct (Ascii.eqb_spec c sep) as [->|]; [|discriminate].
  apply alts_matches_In in Hin. destruct Hin as [a [Ha Hm]].
  assert (Hshape : forallb class_in_day a = true /\
                   (List.length a = 1 \/ List.length a = 2)%nat).
  { simpl in Ha. repeat (destruct Ha as [<-|Ha]; [split; [reflexivity | auto]|]).
    contradiction. }
  destruct Hshape as [Hd Hl].
  destruct (match_seq_shape a _ _ _ Hm Hd) as [-> [Hlen Hall]].
  exists m, r0. rewrite Hlen. auto.
Qed.

Lemma day_then_exclusive (s : string) :
  day_then "-" s -> day_then "." s -> False.
Proof.
  intros [m1 [r1 [E1 [L1 A1]]]] [m2 [r2 [E2 [L2 A2]]]]. subst s.
  destruct m1 as [|a1 [|b1 [|c1 m1]]]; simpl in L1; try lia;
    destruct m2 as [|a2 [|b2 [|c2 m2]]]; simpl in L2; try lia;
    simpl in E2, A1, A2; inversion E2; subst;
    repeat match goal with
           | H : _ && _ = true |- _ => apply andb_prop in H; destruct H
           end;
    match goal with
    | H : day_char "-" = true |- _ => vm_compute in H; discriminate
    | H : day_char "." = true |- _ => vm_compute in H; discriminate
    end.
Qed.

Lemma strptime_exclusive (s : string) (dt : date) :
  strptime s "%d-%m-%y" = Some dt -> strptime s "%d.%m.%y" = None.
Proof.
  intros H1. destruct (strptime s "%d.%m.%y") as [dt2|] eqn:H2; [|reflexivity].
  exfalso. apply (day_then_exclusive s).
  - apply (strptime_day_then "-" s dt); [left; reflexivity | exact H1].
  - apply (strptime_day_then "." s dt2); [right; reflexivity | exact H2].
Qed.

(** ** What a successful parse has read *)

Lemma match_toks_dir (d : directive) (t : list ftok) (s : string) (g : groups) res :
  match_toks (FDir d :: t) s g = Some res ->
  exists a m r, In a (regex_of d) /\ match_seq a s = Some (m, r) /\
                match_toks t r (set_group d m g) = Some res.
Proof.
  simpl. intros H. apply first_some_In in H. destruct H as [[m r] [Hin Hk]].
  apply alts_matches_In in Hin. destruct Hin as [a [Ha Hm]].
  exists a, m, r. auto.
Qed.

Lemma match_toks_lit (c : ascii) (t : list ftok) (s : string) (g : groups) res :
  match_toks (FLit c :: t) s g = Some res ->
  exists s', s = String c s' /\ match_toks t s' g = Some res.
Proof.
  simpl. destruct s as [|c' s']; [discriminate|].
  destruct (Ascii.eqb_spec c' c) as [->|]; [|discriminate].
  intros H. exists s'. auto.
Qed.

Lemma digit_cases (c : ascii) :
  is_digit c = true ->
  In c ["0"; "1"; "2"; "3"; "4"; "5"; "6"; "7"; "8"; "9"]%char.
Proof.
  destruct c as [[] [] [] [] [] [] [] []]; vm_compute; intros H;
    try discriminate H; tauto.
Qed.

Lemma two_digits_value (c1 c2 : ascii) :
  is_digit c1 = true -> is_digit c2 = true ->
  exists v, int_of_str (String c1 (String c2 EmptyString)) = Some v /\ 0 <= v <= 99.
Proof.
  intros H1 H2. apply digit_cases in H1, H2.
  simpl in H1, H2.
  repeat (destruct H1 as [<-|H1]; [|]); try contradiction;
    repeat (destruct H2 as [<-|H2]; [|]); try contradiction;
    (eexists; split; [vm_compute; reflexivity | lia]).
Qed.

Lemma match_two_digits (s m r : string) :
  match_seq [CDigit; CDigit] s = Some (m, r) ->
  exists c1 c2, m = String c1 (String c2 EmptyString) /\
                is_digit c1 = true /\ is_digit c2 = true.
Proof.
  simpl. destruct s as [|c1 [|c2 s]]; try discriminate.
  - destruct (is_digit c1); discriminate.
  - destruct (is_digit c1) eqn:E1; [|discriminate].
    destruct (is_digit c2) eqn:E2; [|discriminate].
    intros H. injection H as <- _. eauto.
Qed.


(** ** The texts that are read as a day of the calendar *)

Lemma day_text_step (sep : ascii) (d : Z) (td : string) (t : list ftok)
    (rest : string) (g : groups) :
  is_sep sep -> 1 <= d <= 31 -> In td (day_texts d) ->
  match_toks (FDir DDay :: FLit sep :: t) (td ++ String sep rest) g
  = match_toks t rest (set_group DDay td g).
Proof.
  intros Hs Hd Ht.
  assert (H : In d (zrange 1 31)) by (apply in_zrange; lia).
  rewrite match_dir_lit. generalize (match_toks t). intros k.
  destruct Hs as [-> | ->]; enumerate_all H; vm_compute in Ht;
    repeat (destruct Ht as [Ht|Ht]; [rewrite <- Ht; clear Ht|]);
    try contradiction; vm_compute; destruct (k rest _); reflexivity.
Qed.

Lemma month_text_step (sep : ascii) (m : Z) (tm : string) (t : list ftok)
    (rest : string) (g : groups) :
  is_sep sep -> 1 <= m <= 12 -> In tm (month_texts m) ->
  match_toks (FDir DMonth :: FLit sep :: t) (tm ++ String sep rest) g
  = match_toks t rest (set_group DMonth tm g).
Proof.
  intros Hs Hm Ht.
  assert (H : In m (zrange 1 12)) by (apply in_zrange; lia).
  rewrite match_dir_lit. generalize (match_toks t). intros k.
  destruct Hs as [-> | ->]; enumerate_all H; vm_compute in Ht;
    repeat (destruct Ht as [Ht|Ht]; [rewrite <- Ht; clear Ht|]);
    try contradiction; vm_compute; destruct (k rest _); reflexivity.
Qed.

Lemma int_of_day_text (d : Z) (td : string) :
  1 <= d <= 31 -> In td (day_texts d) -> int_of_str td = Some d.
Proof.
  intros Hd Ht.
  assert (H : In d (zrange 1 31)) by (apply in_zrange; lia).
  enumerate_all H; vm_compute in Ht;
    repeat (destruct Ht as [Ht|Ht]; [rewrite <- Ht; clear Ht|]);
    try contradiction; reflexivity.
Qed.

Lemma int_of_month_text (m : Z) (tm : string) :
  1 <= m <= 12 -> In tm (month_texts m) -> int_of_str tm = Some m.
Proof.
  intros Hm Ht.
  assert (H : In m (zrange 1 12)) by (apply in_zrange; lia).
  enumerate_all H; vm_compute in Ht;
    repeat (destruct Ht as [Ht|Ht]; [rewrite <- Ht; clear Ht|]);
    try contradiction; reflexivity.
Qed.

Lemma year_is_full_year (yy : Z) :
  (if yy <=? 68 then yy + 2000 else yy + 1900) = full_year yy.
Proof. unfold full_year. destruct (yy <=? 68); lia. Qed.

Lemma calendar_day_valid (d m yy : Z) :
  0 <= yy <= 99 ->
  valid_date (mkDate (full_year yy) m d) = calendar_day d m yy.
Proof.
  intros Hy. unfold valid_date, calendar_day. simpl.
  assert (H1 : (1 <=? full_year yy) = true).
  { apply Z.leb_le. unfold full_year. destruct (yy <=? 68); lia. }
  assert (H2 : (full_year yy <=? 9999) = true).
  { apply Z.leb_le. unfold full_year. destruct (yy <=? 68); lia. }
  assert (H3 : (0 <=? yy) = true) by (apply Z.leb_le; lia).
  assert (H4 : (yy <=? 99) = true) by (apply Z.leb_le; lia).
  rewrite H1, H2, H3, H4. reflexivity.
Qed.

(** A day of the calendar, written in one of these ways, is read as that
    day. *)
Lemma written_parse (sep : ascii) (d m yy : Z) (s : string) :
  is_sep sep -> calendar_day d m yy = true -> written sep d m yy s ->
  strptime s (date_format sep) = Some (mkDate (full_year yy) m d).
Proof.
  intros Hs Hc [td [tm [Hd [Hm ->]]]].
  destruct (calendar_day_bounds _ _ _ Hc) as [Hy [Hmb Hdb]].
  pose proof (days_in_month_le_31 (full_year yy) m) as H31.
  unfold strptime. rewrite (parse_date_format sep Hs).
  rewrite (day_text_step sep d td _ _ _ Hs) by (lia || exact Hd).
  rewrite (month_text_step sep m tm _ _ _ Hs) by (lia || exact Hm).
  rewrite (year_step yy) by lia.
  unfold year_of, group_int. cbn [g_y g_Y g_m g_d set_group no_groups].
  rewrite (int_of_pad2 yy) by lia.
  rewrite (int_of_month_text m tm) by (lia || exact Hm).
  rewrite (int_of_day_text d td) by (lia || exact Hd).
  rewrite year_is_full_year, (calendar_day_valid d m yy Hy), Hc. reflexivity.
Qed.

Lemma day_char_cases (c : ascii) :
  day_char c = true ->
  In c [" "; "0"; "1"; "2"; "3"; "4"; "5"; "6"; "7"; "8"; "9"]%char.
Proof.
  destruct c as [[] [] [] [] [] [] [] []]; vm_compute; intros H;
    try discriminate H; tauto.
Qed.

(** The characters that a class of the expressions of the day and of the
    month accepts, one case per character. *)
Ltac class_cases E :=
  match type of E with
  | in_class ?k ?c = true =>
      let H := fresh "H" in
      pose proof (day_char_cases c (in_class_day k c eq_refl E)) as H;
      simpl in H;
      repeat (destruct H as [H|H];
              [subst c; vm_compute in E; try discriminate E|]);
      try contradiction
  end.

Ltac read_one Hm :=
  match type of Hm with
  | match_seq [_] ?s = Some _ =>
      let c := fresh "c" in let E := fresh "E" in
      destruct s as [|c s]; cbn [match_seq] in Hm; [discriminate Hm|];
      destruct (in_class _ c) eqn:E; [|discriminate Hm];
      injection Hm as <- <-; class_cases E
  end.

Ltac read_two Hm :=
  match type of Hm with
  | match_seq [_; _] ?s = Some _ =>
      let c1 := fresh "c" in let c2 := fresh "c" in
      let E1 := fresh "E" in let E2 := fresh "E" in
      destruct s as [|c1 [|c2 s]]; cbn [match_seq] in Hm;
      [discriminate Hm | destruct (in_class _ c1); discriminate Hm |];
      destruct (in_class _ c1) eqn:E1; [|discriminate Hm];
      destruct (in_class _ c2) eqn:E2; [|discriminate Hm];
      injection Hm as <- <-; class_cases E1; class_cases E2
  end.

Lemma day_alt (a : list cclass) (s m r : string) :
  In a re_d -> match_seq a s = Some (m, r) ->
  exists d, int_of_str m = Some d /\ 1 <= d <= 31 /\ In m (day_texts d).
Proof.
  intros Ha Hm. simpl in Ha.
  destruct Ha as [<-|[<-|[<-|[<-|[<-|[]]]]]];
    first [read_two Hm | read_one Hm];
    (eexists; split; [vm_compute; reflexivity | split; [lia | vm_compute; auto 10]]).
Qed.

Lemma month_alt (a : list cclass) (s m r : string) :
  In a re_m -> match_seq a s = Some (m, r) ->
  exists n, int_of_str m = Some n /\ 1 <= n <= 12 /\ In m (month_texts n).
Proof.
  intros Ha Hm. simpl in Ha.
  destruct Ha as [<-|[<-|[<-|[]]]];
    first [read_two Hm | read_one Hm];
    (eexists; split; [vm_compute; reflexivity | split; [lia | vm_compute; auto 10]]).
Qed.

Lemma year_text (c1 c2 : ascii) :
  is_digit c1 = true -> is_digit c2 = true ->
  exists yy, int_of_str (String c1 (String c2 EmptyString)) = Some yy /\
             0 <= yy <= 99 /\ String c1 (String c2 EmptyString) = pad 2 yy.
Proof.
  intros H1 H2. apply digit_cases in H1, H2.
  simpl in H1, H2.
  repeat (destruct H1 as [<-|H1]; [|]); try contradiction;
    repeat (destruct H2 as [<-|H2]; [|]); try contradiction;
    (eexists; split; [vm_compute; reflexivity | split; [lia | reflexivity]]).
Qed.

Lemma match_seq_split (ks : list cclass) :
  forall s m r, match_seq ks s = Some (m, r) -> s = (m ++ r)%string.
Proof.
  induction ks as [|k ks IH]; intros s m r H; simpl in *.
  - injection H as <- <-. reflexivity.
  - destruct s as [|c s]; [discriminate|].
    destruct (in_class k c); [|discriminate].
    destruct (match_seq ks s) as [[m' r']|] eqn:Em; [|discriminate].
    injection H as <- <-. simpl. f_equal. apply IH. exact Em.
Qed.

(** A text that is read is a day of the calendar, written in one of these
    ways. *)
Lemma parse_written (sep : ascii) (s : string) (dt : date) :
  is_sep sep -> strptime s (date_format sep) = Some dt ->
  exists d m yy,
    calendar_day d m yy = true /\ written sep d m yy s /\
    dt = mkDate (full_year yy) m d.
Proof.
  intros Hs. unfold strptime. rewrite (parse_date_format sep Hs).
  destruct (match_toks _ s no_groups) as [[g r]|] eqn:E; [|discriminate].
  destruct r; [|discriminate].
  apply match_toks_dir in E. destruct E as [a1 [m1 [r1 [Ha1 [Hm1 E]]]]].
  apply match_toks_lit in E. destruct E as [s1 [Hr1 E]].
  apply match_toks_dir in E. destruct E as [a2 [m2 [r2 [Ha2 [Hm2 E]]]]].
  apply match_toks_lit in E. destruct E as [s2 [Hr2 E]].
  apply match_toks_dir in E. destruct E as [a3 [m3 [r3 [Ha3 [Hm3 E]]]]].
  simpl in E. injection E as <- ->.
  simpl in Ha3. destruct Ha3 as [<-|[]].
  pose proof (match_seq_split _ _ _ _ Hm1) as S1.
  pose proof (match_seq_split _ _ _ _ Hm2) as S2.
  pose proof (match_seq_split _ _ _ _ Hm3) as S3.
  apply match_two_digits in Hm3. destruct Hm3 as [c1 [c2 [-> [H1 H2]]]].
  destruct (year_text c1 c2 H1 H2) as [yy [Hy [Hyb Hyp]]].
  destruct (day_alt _ _ _ _ Ha1 Hm1) as [d [Hd [Hdb Hdt]]].
  destruct (month_alt _ _ _ _ Ha2 Hm2) as [m [Hm [Hmb Hmt]]].
  unfold year_of, group_int. cbn [g_y g_Y g_m g_d set_group no_groups].
  rewrite Hy, Hm, Hd, year_is_full_year, (calendar_day_valid d m yy Hyb).
  destruct (calendar_day d m yy) eqn:Hc; [|discriminate].
  intros H. injection H as <-.
  exists d, m, yy. split; [exact Hc|]. split; [|reflexivity].
  exists m1, m2. split; [exact Hdt|]. split; [exact Hmt|].
  rewrite S1, Hr1, S2, Hr2, S3, <- Hyp. simpl. reflexivity.
Qed.

(** The conversion on some texts: one or two digits, a space before the
    day, a day the month does not have, text after the date, another
    layout. *)
Example conversion_examples :
  map (fun s => convert_calibration_date [("calibration_expired_date", VStr s)])
      ["01-02-25"; "1.12.69"; " 7-3-00"; "31-02-21"; "01-02-251"; "2025/02/01"]
  = map (fun s => Val [("calibration_expired_date", VStr s)])
      ["2025-02-01"; "1969-12-01"; "2000-03-07"; "31-02-21"; "01-02-251";
       "2025/02/01"].
Proof. vm_compute. reflexivity. Qed.

(** C3, as the code has it.  A calibration-expiry value that is a string
    of ASCII text.  The conversion raises nothing and touches no other key.
    The string is rewritten exactly when it is a day of the calendar
    written day, month, two-digit year with the separator - or the
    separator . between them, the day with two digits, with one digit or
    with a space and one digit, the month with two digits or with one
    digit: the record then stores the ISO rendering YYYY-MM-DD of that day,
    the years 00-68 in 2000-2068 and the years 69-99 in 1969-1999.  Every
    other string, also the two-digit text of a day that the calendar does
    not have, is stored as it is. *)
Theorem calibration_date_normalised (resp : dict value) (s : string) :
  get "calibration_expired_date" resp = Some (VStr s) ->
  isascii s = true ->
  exists resp',
    convert_calibration_date resp = Val resp' /\
    (forall k, k <> "calibration_expired_date" -> get k resp' = get k resp) /\
    (forall sep d m yy,
        is_sep sep -> calendar_day d m yy = true -> written sep d m yy s ->
        get "calibration_expired_date" resp'
        = Some (VStr (iso_date (mkDate (full_year yy) m d)))) /\
    ((forall sep d m yy,
         is_sep sep -> calendar_day d m yy = true -> ~ written sep d m yy s) ->
     resp' = resp /\ get "calibration_expired_date" resp' = Some (VStr s)).
Proof.
  intros Hg _.
  unfold convert_calibration_date, py_get. rewrite Hg.
  unfold _date_formats, convert_date_loop.
  change "%d-%m-%y" with (date_format "-").
  change "%d.%m.%y" with (date_format ".").
  assert (Hminus : is_sep "-") by (left; reflexivity).
  assert (Hdot : is_sep ".") by (right; reflexivity).
  destruct (strptime s (date_format "-")) as [dt1|] eqn:E1.
  - pose proof (strptime_exclusive s dt1 E1) as E2.
    change "%d.%m.%y" with (date_format ".") in E2. rewrite E2.
    eexists. split; [reflexivity|]. split; [|split].
    + intros k Hk. now apply get_set_item_other.
    + intros sep d m yy Hs Hc Hw.
      pose proof (written_parse sep d m yy s Hs Hc Hw) as Hp.
      destruct Hs as [-> | ->]; [|congruence].
      rewrite E1 in Hp. injection Hp as ->.
      rewrite strftime_iso. apply get_set_item_same.
    + intros Hn. exfalso.
      destruct (parse_written "-" s dt1 Hminus E1) as [d [m [yy [Hc [Hw _]]]]].
      exact (Hn "-"%char d m yy Hminus Hc Hw).
  - destruct (strptime s (date_format ".")) as [dt2|] eqn:E2.
    + eexists. split; [reflexivity|]. split; [|split].
      * intros k Hk. now apply get_set_item_other.
      * intros sep d m yy Hs Hc Hw.
        pose proof (written_parse sep d m yy s Hs Hc Hw) as Hp.
        destruct Hs as [-> | ->]; [congruence|].
        rewrite E2 in Hp. injection Hp as ->.
        rewrite strftime_iso. apply get_set_item_same.
      * intros Hn. exfalso.
        destruct (parse_written "." s dt2 Hdot E2) as [d [m [yy [Hc [Hw _]]]]].
        exact (Hn "."%char d m yy Hdot Hc Hw).
    + eexists. split; [reflexivity|]. split; [|split].
      * reflexivity.
      * intros sep d m yy Hs Hc Hw.
        pose proof (written_parse sep d m yy s Hs Hc Hw) as Hp.
        destruct Hs as [-> | ->]; congruence.
      * auto.
Qed.

Lemma calibration_date_normalised_witness :
  exists resp',
    convert_calibration_date [("calibration_expired_date", VStr "1-2-25")]
    = Val resp' /\
    (forall k, k <> "calibration_expired_date" ->
               get k resp' = get k [("calibration_expired_date", VStr "1-2-25")]) /\
    (forall sep d m yy,
        is_sep sep -> calendar_day d m yy = true -> written sep d m yy "1-2-25" ->
        get "calibration_expired_date" resp'
        = Some (VStr (iso_date (mkDate (full_year yy) m d)))) /\
    ((forall sep d m yy,
         is_sep sep -> calendar_day d m yy = true -> ~ written sep d m yy "1-2-25") ->
     resp' = [("calibration_expired_date", VStr "1-2-25")] /\
     get "calibration_expired_date" resp' = Some (VStr "1-2-25")).
Proof.
  apply (calibration_date_normalised
           [("calibration_expired_date", VStr "1-2-25")] "1-2-25");
    reflexivity.
Defined.

(** C3, read to the letter (a string of the pattern DD-MM-YY is stored as
    an ISO date, a string of neither pattern is stored as it is), fails both
    ways: 31-02-21 has the pattern and is stored as it is, 1-2-25 has
    neither pattern and is stored as 2025-02-01. *)
Lemma calibration_pattern_counterexample :
  (two_digit_pattern "-" "31-02-21" = true /\
   convert_calibration_date [("calibration_expired_date", VStr "31-02-21")]
   = Val [("calibration_expired_date", VStr "31-02-21")])
  /\
  (two_digit_pattern "-" "1-2-25" = false /\
   two_digit_pattern "." "1-2-25" = false /\
   convert_calibration_date [("calibration_expired_date", VStr "1-2-25")]
   = Val [("calibration_expired_date", VStr "2025-02-01")]).
Proof. vm_compute. repeat split. Qed.

End DateFacts.

(* ===================================================================== *)
(** * Initialisation and the ends of the process *)
(* ===================================================================== *)

Module InitFacts.

Import Py Eff Aux PyFacts EffFacts SensoSysDataSource.
Local Open Scope py_scope.

(** One step of a proof of [traced not_csv m], by the shape of [m]. *)
Ltac traced_step :=
  first
    [ apply traced_log_exit; [exact I | unfold exit_event; eauto 10]
    | apply traced_bind; [| intros]
    | apply traced_ret
    | apply traced_raise
    | apply traced_lift
    | apply traced_bus_call
    | apply traced_emit; exact I
    | apply traced_input; exact I
    | match goal with
      | |- traced _ (match ?x with _ => _ end) => destruct x
      | |- traced _ (if ?x then _ else _) => destruct x
      end ].


Ltac run :=
  cbv beta iota zeta
      delta [bind emit ret log root_log input lift sys_exit raise
             _get_port_name _get_scan_by_file
             _get_if_pop_system_device_management _get_if_continue
             bus stdin trace fst snd].

Section Init.
Context {B : Type}.
Variable sensosys : Driver.t B.
Variable files : string -> option json.
Variable path_exists : string -> bool.
Variable load_missing : string -> res json.

Lemma traced_update_from d call : traced not_csv (update_from B d call).
Proof. unfold update_from. repeat traced_step. Qed.

Lemma traced_therm_channels _id chs :
  forall d, traced not_csv (therm_channels B sensosys _id chs d).
Proof.
  induction chs as [|ch chs IH]; intros d; simpl; repeat traced_step. apply IH.
Qed.

Lemma traced_read_family _id name d :
  traced not_csv (read_family B sensosys _id name d).
Proof.
  unfold read_family.
  repeat first [ apply traced_update_from | apply traced_therm_channels
               | traced_step ].
Qed.

Lemma traced_scan_address _id devs :
  traced not_csv (scan_address B sensosys _id devs).
Proof.
  unfold scan_address.
  repeat first [ apply traced_update_from | apply traced_read_family
               | traced_step ].
Qed.

Lemma traced_scan_loop ids :
  forall devs, traced not_csv (scan_loop B sensosys ids devs).
Proof.
  induction ids as [|i ids IH]; intros devs; simpl.
  - apply traced_ret.
  - apply traced_bind; [apply traced_scan_address | exact IH].
Qed.

Lemma traced_scan_devices_by_file file_name :
  traced not_csv (_scan_devices_by_file B sensosys files load_missing file_name).
Proof.
  unfold _scan_devices_by_file, load_json, _scan_devices.
  repeat first [ apply traced_scan_loop | traced_step ].
Qed.

Lemma traced_scan_available_ports :
  traced not_csv (_scan_available_ports B sensosys).
Proof. unfold _scan_available_ports, root_log. repeat traced_step. Qed.

Lemma traced_ask_yes_no prompt : traced not_csv (ask_yes_no B prompt).
Proof. unfold ask_yes_no. repeat traced_step. Qed.

Lemma traced_configs_by_guide out_dir ports configs :
  traced not_csv (_get_sensosys_configs_by_guide B out_dir ports configs).
Proof.
  unfold _get_sensosys_configs_by_guide, _get_if_pop_system_device_management,
    _get_port_name, _get_scan_by_file.
  repeat first [ apply traced_ask_yes_no | traced_step ].
Qed.

Lemma traced_configs_by_file file_name configs :
  traced not_csv (_get_sensosys_configs_by_file B files file_name configs).
Proof. unfold _get_sensosys_configs_by_file. repeat traced_step. Qed.

Lemma traced_init_configure cf od ports configs :
  traced not_csv (init_configure B files cf od ports configs).
Proof.
  unfold init_configure.
  repeat first [ apply traced_configs_by_guide | apply traced_configs_by_file
               | traced_step ].
Qed.

Lemma traced_init_scan configs :
  traced not_csv (init_scan B sensosys files load_missing configs).
Proof.
  unfold init_scan, _scan_devices_by_ids, _scan_devices.
  repeat first [ apply traced_scan_devices_by_file | apply traced_scan_loop
               | traced_step ].
Qed.

Lemma traced_init_prepare cf od :
  traced not_csv (init_prepare B sensosys files path_exists load_missing cf od).
Proof.
  unfold init_prepare.
  repeat first [ apply traced_scan_available_ports | apply traced_init_configure
               | apply traced_init_scan | traced_step ].
Qed.

Lemma traced_init_finish cf od ports configs devices :
  traced not_csv (init_finish B cf od ports configs devices).
Proof.
  unfold init_finish, _get_if_continue.
  repeat first [ apply traced_ask_yes_no | traced_step ].
Qed.

Lemma traced_init cf od :
  traced not_csv (__init__ B sensosys files path_exists load_missing cf od).
Proof.
  unfold __init__.
  apply traced_bind; [apply traced_init_prepare | intros; apply traced_init_finish].
Qed.

(** The script, with the events of the CSV output *)

Lemma traced_device_data dev : traced (fun _ => True) (device_data B sensosys dev).
Proof. unfold device_data. repeat traced_step. Qed.

Lemma traced_data_loop devs :
  forall acc, traced (fun _ => True) (data_loop B sensosys devs acc).
Proof.
  induction devs as [|dev devs IH]; intros acc; simpl.
  - apply traced_ret.
  - apply traced_bind; [apply traced_device_data | intros; apply IH].
Qed.

Lemma traced_run_data_logging s cycles :
  traced (fun _ => True) (run_data_logging B sensosys s cycles).
Proof.
  induction cycles as [|n IH]; simpl.
  - apply traced_ret.
  - unfold read_data.
    repeat first [ apply traced_data_loop | exact IH | traced_step ].
Qed.

Lemma traced_main cycles :
  traced (fun _ => True) (main B sensosys files path_exists load_missing cycles).
Proof.
  unfold main.
  apply traced_bind.
  { apply (traced_weaken not_csv); [auto | apply traced_init]. }
  intros s. repeat first [ apply traced_run_data_logging | traced_step ].
Qed.

Lemma exit_event_status c e : exit_event c e -> c = 0 \/ c = 1.
Proof. intros [[-> _] | [-> _]]; auto. Qed.

Lemma traced_status {A : Type} (P : event -> Prop) (m : M B A) w r w' :
  traced P m -> m w = (r, w') ->
  (process_status r = 0 \/ process_status r = 1) /\
  (forall c, r = Exit c ->
     exists t e, trace w' = trace w ++ t ++ [e] /\ exit_event c e).
Proof.
  intros Hm E. destruct (Hm _ _ _ E) as [t [Ht [_ Hx]]]. split.
  - destruct r as [a|e|c]; simpl; auto.
    destruct (Hx c eq_refl) as [t0 [e [_ He]]]. exact (exit_event_status _ _ He).
  - intros c Hc. destruct (Hx c Hc) as [t0 [e [-> He]]].
    exists t0, e. split; [exact Ht | exact He].
Qed.

(** ** The runs that end the process *)

(** The last event of a run that ended in [sys.exit] *)
Lemma exit_last {A : Type} (P : event -> Prop) (m : M B A) w c w' X e :
  traced P m -> m w = (Exit c, w') -> trace w' = X ++ [e] ->
  exists t, trace w' = trace w ++ t ++ [e].
Proof.
  intros Hm E HX. destruct (Hm _ _ _ E) as [t [Ht [_ Hx]]].
  destruct (Hx c eq_refl) as [t0 [e0 [-> _]]].
  rewrite app_assoc in Ht. rewrite Ht in HX.
  apply app_inj_tail in HX. destruct HX as [_ ->].
  exists t0. rewrite Ht, app_assoc. reflexivity.
Qed.

Lemma ask_valid prompt b a rest tr :
  valid_answer a ->
  ask_yes_no B prompt (mkWorld b (a :: rest) tr)
  = (Ok (String.eqb (judged a) "y"), mkWorld b rest (tr ++ [Prompt prompt])).
Proof.
  unfold valid_answer, ask_yes_no, bind, input, ret, judged. simpl.
  intros [-> | ->]; reflexivity.
Qed.

Lemma ask_invalid prompt b a rest tr :
  invalid_answer a ->
  ask_yes_no B prompt (mkWorld b (a :: rest) tr)
  = (Exit 1,
     mkWorld b rest
       ((tr ++ [Prompt prompt])
        ++ [Log SensoSysLogger ERROR (MInvalidInput (judged a))])).
Proof.
  unfold invalid_answer, ask_yes_no, bind, input, ret, log, emit, sys_exit,
    judged. simpl.
  intros [Hy Hn].
  destruct (String.eqb_spec (strip (lower a)) "y") as [E|_]; [contradiction|].
  destruct (String.eqb_spec (strip (lower a)) "n") as [E|_]; [contradiction|].
  reflexivity.
Qed.

Lemma check_port (port : string) (ports : list string) :
  _check_port_name (set_item "port" (VStr port) _sensosys_configs_default) ports
  = Val (existsb (fun p => value_eqb (VStr port) (VStr p)) ports).
Proof. reflexivity. Qed.

Lemma port_listed (port : string) (ports : list string) :
  existsb (fun p => value_eqb (VStr port) (VStr p)) ports = true <-> In port ports.
Proof.
  rewrite existsb_exists. split.
  - intros [p [Hp He]]. unfold value_eqb in He.
    destruct (value_eq_dec _ _) as [E|]; [|discriminate].
    injection E as ->. exact Hp.
  - intros H. exists port. split; [exact H|]. unfold value_eqb.
    destruct (value_eq_dec _ _); [reflexivity | congruence].
Qed.

Lemma port_not_listed (port : string) (ports : list string) :
  ~ In port ports ->
  existsb (fun p => value_eqb (VStr port) (VStr p)) ports = false.
Proof.
  intros H. destruct (existsb _ ports) eqn:E; [|reflexivity].
  apply port_listed in E. contradiction.
Qed.

(** The guided configuration, question by question, run on the default
    configuration *)
Lemma guide_first_invalid od ports b a rest tr :
  invalid_answer a ->
  exists w' X,
    _get_sensosys_configs_by_guide B od ports _sensosys_configs_default
      (mkWorld b (a :: rest) tr) = (Exit 1, w') /\
    trace w' = X ++ [Log SensoSysLogger ERROR (MInvalidInput (judged a))].
Proof.
  intros Ha. unfold _get_sensosys_configs_by_guide. run.
  rewrite (ask_invalid _ _ _ _ _ Ha).
  eexists _, _. split; reflexivity.
Qed.

Lemma guide_port_unavailable od ports b a p rest tr :
  valid_answer a -> ~ In ("COM" ++ p)%string ports ->
  exists w' X,
    _get_sensosys_configs_by_guide B od ports _sensosys_configs_default
      (mkWorld b (a :: p :: rest) tr) = (Exit 1, w') /\
    trace w' = X ++ [Log SensoSysLogger ERROR
                       (MPortUnavailable (VStr ("COM" ++ p)))].
Proof.
  intros Ha Hp. unfold _get_sensosys_configs_by_guide. run.
  rewrite (ask_valid _ _ _ _ _ Ha). run.
  destruct (String.eqb (judged a) "y"); run;
    rewrite check_port, (port_not_listed _ _ Hp); run;
    eexists _, _; split; reflexivity.
Qed.

Lemma guide_second_invalid od ports b a p a3 rest tr :
  valid_answer a -> In ("COM" ++ p)%string ports -> invalid_answer a3 ->
  exists w' X,
    _get_sensosys_configs_by_guide B od ports _sensosys_configs_default
      (mkWorld b (a :: p :: a3 :: rest) tr) = (Exit 1, w') /\
    trace w' = X ++ [Log SensoSysLogger ERROR (MInvalidInput (judged a3))].
Proof.
  intros Ha Hp Ha3. unfold _get_sensosys_configs_by_guide. run.
  rewrite (ask_valid _ _ _ _ _ Ha). run.
  apply port_listed in Hp.
  destruct (String.eqb (judged a) "y"); run;
    rewrite check_port, Hp; run;
    rewrite (ask_invalid _ _ _ _ _ Ha3);
    eexists _, _; split; reflexivity.
Qed.



(** [__init__] with the guided configuration, up to the guide: nothing is
    read from the console before the first question. *)
Lemma init_reaches_guide od ports w :
  Driver.scan_com_ports sensosys = Some ports ->
  exists tr,
    forall c w',
      _get_sensosys_configs_by_guide B od ports _sensosys_configs_default
        (mkWorld (bus w) (stdin w) tr) = (Exit c, w') ->
      __init__ B sensosys files path_exists load_missing None od w = (Exit c, w').
Proof.
  intros Hp. unfold __init__, init_prepare, init_configure, _scan_available_ports.
  rewrite Hp.
  destruct od as [dir|]; [destruct (path_exists dir)|];
    eexists; intros c w' H; run; rewrite H; reflexivity.
Qed.

Lemma init_no_ports cf od w :
  Driver.scan_com_ports sensosys = None ->
  exists w' X,
    __init__ B sensosys files path_exists load_missing cf od w = (Exit 0, w') /\
    trace w' = X ++ [Log RootLogger ERROR MNoPorts].
Proof.
  intros Hp. unfold __init__, init_prepare, _scan_available_ports. rewrite Hp.
  destruct od as [dir|]; [destruct (path_exists dir)|];
    run; eexists _, _; split; reflexivity.
Qed.

(** [__init__] after the scan *)
Lemma init_after_scan cf od w ports cfg devs w1 c w' :
  init_prepare B sensosys files path_exists load_missing cf od w
  = (Ok (ports, cfg, devs), w1) ->
  init_finish B cf od ports cfg devs w1 = (Exit c, w') ->
  __init__ B sensosys files path_exists load_missing cf od w = (Exit c, w').
Proof.
  intros H1 H2. unfold __init__. rewrite (bind_ok _ _ _ _ _ H1). exact H2.
Qed.

Lemma finish_no_devices cf od ports cfg w1 :
  exists w' X,
    init_finish B cf od ports cfg [] w1 = (Exit 0, w') /\
    trace w' = X ++ [Log SensoSysLogger ERROR MNoDevicesFound].
Proof.
  unfold init_finish. simpl. run. eexists _, _. split; reflexivity.
Qed.

Lemma finish_answer_n cf od ports cfg devs b a rest tr :
  devs <> [] -> judged a = "n" ->
  exists w' X,
    init_finish B cf od ports cfg devs (mkWorld b (a :: rest) tr) = (Exit 0, w') /\
    trace w' = X ++ [Log SensoSysLogger INFO MExitingManually].
Proof.
  intros Hd Hn. unfold init_finish.
  destruct devs as [|dev devs]; [contradiction|]. simpl. run.
  rewrite (ask_valid _ _ _ _ _ (or_intror Hn)). rewrite Hn. run. simpl.
  eexists _, _. split; reflexivity.
Qed.

Lemma finish_answer_invalid cf od ports cfg devs b a rest tr :
  devs <> [] -> invalid_answer a ->
  exists w' X,
    init_finish B cf od ports cfg devs (mkWorld b (a :: rest) tr) = (Exit 1, w') /\
    trace w' = X ++ [Log SensoSysLogger ERROR (MInvalidInput (judged a))].
Proof.
  intros Hd Ha. unfold init_finish.
  destruct devs as [|dev devs]; [contradiction|]. simpl. run.
  rewrite (ask_invalid _ _ _ _ _ Ha).
  eexists _, _. split; reflexivity.
Qed.

End Init.



(** C6. When the scan ends with no device: [__init__] logs the error "no
    devices found" and ends the process with status 0; this is the last
    thing the process does, the script never reaches
    [get_all_measurement_parameters], and nothing of the CSV output (no
    header, no row) has happened. *)
Theorem zero_devices_exit (B : Type) (sensosys : Driver.t B)
    (files : string -> option json) (path_exists : string -> bool)
    (load_missing : string -> res json)
    (cf od : option string) (w w1 : world B) (ports : list string)
    (cfg : dict value) :
  init_prepare B sensosys files path_exists load_missing cf od w = (Ok (ports, cfg, []), w1) ->
  let w2 := mkWorld (bus w1) (stdin w1)
              (trace w1 ++ [Log SensoSysLogger ERROR MNoDevicesFound]) in
  __init__ B sensosys files path_exists load_missing cf od w = (Exit 0, w2) /\
  (cf = None -> od = Some "Test" ->
   forall cycles, main B sensosys files path_exists load_missing cycles w = (Exit 0, w2)) /\
  exists t,
    trace w2 = trace w ++ t ++ [Log SensoSysLogger ERROR MNoDevicesFound] /\
    Forall not_csv t.
Proof.
  intros H w2.
  assert (Hi : __init__ B sensosys files path_exists load_missing cf od w = (Exit 0, w2)).
  { unfold __init__. rewrite (bind_ok _ _ _ _ _ H). reflexivity. }
  split; [exact Hi|]. split.
  - intros -> -> cycles. unfold main. simpl.
    apply bind_exit. exact Hi.
  - destruct (traced_init_prepare sensosys files path_exists load_missing cf od _ _ _ H)
      as [t [Ht [HP _]]].
    exists t. split; [|exact HP]. unfold w2. simpl. rewrite Ht.
    now rewrite app_assoc.
Qed.

Lemma zero_devices_exit_witness :
  exists w1,
    let w2 := mkWorld (bus w1) (stdin w1)
                (trace w1 ++ [Log SensoSysLogger ERROR MNoDevicesFound]) in
    __init__ nat Bench.driver Bench.ids_4_6 Bench.no_dirs Bench.not_found None (Some "Test")
      (Bench.start ["n"; "1"; "y"]) = (Exit 0, w2) /\
    (@None string = None -> Some "Test" = Some "Test" ->
     forall cycles,
       main nat Bench.driver Bench.ids_4_6 Bench.no_dirs Bench.not_found cycles
         (Bench.start ["n"; "1"; "y"]) = (Exit 0, w2)) /\
    exists t,
      trace w2 = trace (Bench.start ["n"; "1"; "y"]) ++ t
                 ++ [Log SensoSysLogger ERROR MNoDevicesFound] /\
      Forall not_csv t.
Proof.
  eexists.
  eapply (zero_devices_exit nat Bench.driver Bench.ids_4_6 Bench.no_dirs Bench.not_found None
            (Some "Test") (Bench.start ["n"; "1"; "y"])).
  vm_compute. reflexivity.
Defined.

(** C7. The ends of the process.  Whatever the configuration file, the
    answers of the user and the instruments, the process ends with status 0
    or 1, from [__init__] and from the whole script, and every [sys.exit]
    comes right after its message.  Each of these ends does happen, with
    its status: status 0 when no COM port is available (the call
    [sys.exit()] without an argument), when the scan found no device, and
    when the user answers n to the question to continue; status 1 when an
    answer to one of the three questions is neither y nor n (for an answer
    of ASCII text) and when the port typed is not among the available
    ports.  The script ends as [__init__] does. *)
Theorem exit_codes (B : Type) (sensosys : Driver.t B)
    (files : string -> option json) (path_exists : string -> bool)
    (load_missing : string -> res json) :
  (forall cf od w r w',
      __init__ B sensosys files path_exists load_missing cf od w = (r, w') ->
      (process_status r = 0 \/ process_status r = 1) /\
      (forall c, r = Exit c ->
         exists t e, trace w' = trace w ++ t ++ [e] /\ exit_event c e))
  /\
  (forall cycles w r w',
      main B sensosys files path_exists load_missing cycles w = (r, w') ->
      (process_status r = 0 \/ process_status r = 1) /\
      (forall c, r = Exit c ->
         exists t e, trace w' = trace w ++ t ++ [e] /\ exit_event c e))
  /\
  (forall cycles w c w',
      __init__ B sensosys files path_exists load_missing None (Some "Test") w
      = (Exit c, w') ->
      main B sensosys files path_exists load_missing cycles w = (Exit c, w'))
  /\
  (forall cf od w,
      Driver.scan_com_ports sensosys = None ->
      exists w' t,
        __init__ B sensosys files path_exists load_missing cf od w = (Exit 0, w') /\
        trace w' = trace w ++ t ++ [Log RootLogger ERROR MNoPorts])
  /\
  (forall od ports w,
      Driver.scan_com_ports sensosys = Some ports ->
      (forall a rest,
          stdin w = a :: rest -> isascii a = true -> invalid_answer a ->
          exists w' t,
            __init__ B sensosys files path_exists load_missing None od w
            = (Exit 1, w') /\
            trace w' = trace w ++ t
                       ++ [Log SensoSysLogger ERROR (MInvalidInput (judged a))])
      /\
      (forall a p rest,
          stdin w = a :: p :: rest -> valid_answer a ->
          ~ In ("COM" ++ p)%string ports ->
          exists w' t,
            __init__ B sensosys files path_exists load_missing None od w
            = (Exit 1, w') /\
            trace w' = trace w ++ t
                       ++ [Log SensoSysLogger ERROR
                             (MPortUnavailable (VStr ("COM" ++ p)))])
      /\
      (forall a p a3 rest,
          stdin w = a :: p :: a3 :: rest -> valid_answer a ->
          In ("COM" ++ p)%string ports ->
          isascii a3 = true -> invalid_answer a3 ->
          exists w' t,
            __init__ B sensosys files path_exists load_missing None od w
            = (Exit 1, w') /\
            trace w' = trace w ++ t
                       ++ [Log SensoSysLogger ERROR (MInvalidInput (judged a3))]))
  /\
  (forall cf od w ports cfg devs w1,
      init_prepare B sensosys files path_exists load_missing cf od w
      = (Ok (ports, cfg, devs), w1) ->
      (devs = [] ->
       exists w' t,
         __init__ B sensosys files path_exists load_missing cf od w = (Exit 0, w') /\
         trace w' = trace w ++ t ++ [Log SensoSysLogger ERROR MNoDevicesFound])
      /\
      (forall a rest,
          devs <> [] -> stdin w1 = a :: rest -> judged a = "n" ->
          exists w' t,
            __init__ B sensosys files path_exists load_missing cf od w
            = (Exit 0, w') /\
            trace w' = trace w ++ t ++ [Log SensoSysLogger INFO MExitingManually])
      /\
      (forall a rest,
          devs <> [] -> stdin w1 = a :: rest ->
          isascii a = true -> invalid_answer a ->
          exists w' t,
            __init__ B sensosys files path_exists load_missing cf od w
            = (Exit 1, w') /\
            trace w' = trace w ++ t
                       ++ [Log SensoSysLogger ERROR (MInvalidInput (judged a))])).
Proof.
  assert (Hlast : forall cf od w c w' X e,
             __init__ B sensosys files path_exists load_missing cf od w
             = (Exit c, w') ->
             trace w' = X ++ [e] ->
             exists w'' t,
               __init__ B sensosys files path_exists load_missing cf od w
               = (Exit c, w'') /\
               trace w'' = trace w ++ t ++ [e]).
  { intros cf od w c w' X e H HX.
    destruct (exit_last not_csv _ _ _ _ _ _
                (traced_init sensosys files path_exists load_missing cf od) H HX)
      as [t Ht].
    exists w', t. split; [exact H | exact Ht]. }
  split; [|split; [|split; [|split; [|split]]]].
  - intros cf od w r w' H.
    exact (traced_status not_csv _ _ _ _
             (traced_init sensosys files path_exists load_missing cf od) H).
  - intros cycles w r w' H.
    exact (traced_status _ _ _ _ _
             (traced_main sensosys files path_exists load_missing cycles) H).
  - intros cycles w c w' H. unfold main. simpl. apply bind_exit. exact H.
  - intros cf od w Hp.
    destruct (init_no_ports sensosys files path_exists load_missing cf od w Hp)
      as [w' [X [H HX]]].
    exact (Hlast _ _ _ _ _ _ _ H HX).
  - intros od ports w Hp.
    destruct (init_reaches_guide sensosys files path_exists load_missing od ports w Hp)
      as [tr Hg].
    split; [|split].
    + intros a rest Hs _ Ha. rewrite Hs in Hg.
      destruct (guide_first_invalid od ports (bus w) a rest tr Ha)
        as [w' [X [H HX]]].
      exact (Hlast _ _ _ _ _ _ _ (Hg _ _ H) HX).
    + intros a p rest Hs Ha Hn. rewrite Hs in Hg.
      destruct (guide_port_unavailable od ports (bus w) a p rest tr Ha Hn)
        as [w' [X [H HX]]].
      exact (Hlast _ _ _ _ _ _ _ (Hg _ _ H) HX).
    + intros a p a3 rest Hs Ha Hin _ Ha3. rewrite Hs in Hg.
      destruct (guide_second_invalid od ports (bus w) a p a3 rest tr Ha Hin Ha3)
        as [w' [X [H HX]]].
      exact (Hlast _ _ _ _ _ _ _ (Hg _ _ H) HX).
  - intros cf od w ports cfg devs w1 Hprep.
    split; [|split].
    + intros ->.
      destruct (finish_no_devices cf od ports cfg w1) as [w' [X [H HX]]].
      exact (Hlast _ _ _ _ _ _ _
               (init_after_scan sensosys files path_exists load_missing
                  _ _ _ _ _ _ _ _ _ Hprep H) HX).
    + intros a rest Hd Hs Hn. destruct w1 as [b sin tr]. simpl in Hs. subst sin.
      destruct (finish_answer_n cf od ports cfg devs b a rest tr Hd Hn)
        as [w' [X [H HX]]].
      exact (Hlast _ _ _ _ _ _ _
               (init_after_scan sensosys files path_exists load_missing
                  _ _ _ _ _ _ _ _ _ Hprep H) HX).
    + intros a rest Hd Hs _ Ha. destruct w1 as [b sin tr]. simpl in Hs. subst sin.
      destruct (finish_answer_invalid cf od ports cfg devs b a rest tr Hd Ha)
        as [w' [X [H HX]]].
      exact (Hlast _ _ _ _ _ _ _
               (init_after_scan sensosys files path_exists load_missing
                  _ _ _ _ _ _ _ _ _ Hprep H) HX).
Qed.

Lemma exit_codes_witness :
  (exists w' t,
      __init__ nat Bench.driver_no_ports Bench.no_files Bench.no_dirs
        Bench.not_found None (Some "Test") (Bench.start [])
      = (Exit 0, w') /\
      trace w' = trace (Bench.start []) ++ t ++ [Log RootLogger ERROR MNoPorts])
  /\
  (exists w' t,
      __init__ nat Bench.driver Bench.ids_5_3 Bench.no_dirs Bench.not_found
        None (Some "Test") (Bench.start ["maybe"])
      = (Exit 1, w') /\
      trace w' = trace (Bench.start ["maybe"]) ++ t
                 ++ [Log SensoSysLogger ERROR (MInvalidInput (judged "maybe"))])
  /\
  (exists w' t,
      __init__ nat Bench.driver Bench.ids_5_3 Bench.no_dirs Bench.not_found
        None (Some "Test") (Bench.start ["n"; "7"])
      = (Exit 1, w') /\
      trace w' = trace (Bench.start ["n"; "7"]) ++ t
                 ++ [Log SensoSysLogger ERROR (MPortUnavailable (VStr "COM7"))])
  /\
  (exists w' t,
      __init__ nat Bench.driver Bench.ids_5_3 Bench.no_dirs Bench.not_found
        None (Some "Test") (Bench.start ["n"; "1"; "y"; "N "])
      = (Exit 0, w') /\
      trace w' = trace (Bench.start ["n"; "1"; "y"; "N "]) ++ t
                 ++ [Log SensoSysLogger INFO MExitingManually]).
Proof.
  split; [|split; [|split]].
  - apply (proj1 (proj2 (proj2 (proj2
             (exit_codes nat Bench.driver_no_ports Bench.no_files Bench.no_dirs
                Bench.not_found))))).
    reflexivity.
  - apply (proj1 (proj1 (proj2 (proj2 (proj2 (proj2
             (exit_codes nat Bench.driver Bench.ids_5_3 Bench.no_dirs
                Bench.not_found)))))
             (Some "Test") ["COM1"; "COM3"] (Bench.start ["maybe"]) eq_refl)
           "maybe" []).
    + reflexivity.
    + reflexivity.
    + split; intros H; vm_compute in H; discriminate H.
  - apply (proj1 (proj2 (proj1 (proj2 (proj2 (proj2 (proj2
             (exit_codes nat Bench.driver Bench.ids_5_3 Bench.no_dirs
                Bench.not_found)))))
             (Some "Test") ["COM1"; "COM3"] (Bench.start ["n"; "7"]) eq_refl))
           "n" "7" []).
    + reflexivity.
    + right. vm_compute. reflexivity.
    + simpl. intros [H|[H|[]]]; discriminate H.
  - edestruct (proj2 (proj2 (proj2 (proj2 (proj2
             (exit_codes nat Bench.driver Bench.ids_5_3 Bench.no_dirs
                Bench.not_found)))))
             None (Some "Test") (Bench.start ["n"; "1"; "y"; "N "]))
      as [_ [Hn _]].
    + vm_compute. reflexivity.
    + apply (Hn "N " []).
      * discriminate.
      * reflexivity.
      * vm_compute. reflexivity.
Defined.

(** The five ends of the process on the test bench: no port, an answer
    that is neither y nor n, a port that is not available, no device, and
    the answer n to the question to continue. *)
Example five_ends :
  fst (main nat Bench.driver_no_ports Bench.no_files Bench.no_dirs Bench.not_found 1
         (Bench.start [])) = Exit 0 /\
  fst (main nat Bench.driver Bench.no_files Bench.no_dirs Bench.not_found 1
         (Bench.start ["maybe"])) = Exit 1 /\
  fst (main nat Bench.driver Bench.no_files Bench.no_dirs Bench.not_found 1
         (Bench.start ["n"; "7"])) = Exit 1 /\
  fst (main nat Bench.driver Bench.ids_4_6 Bench.no_dirs Bench.not_found 1
         (Bench.start ["n"; "1"; "y"])) = Exit 0 /\
  fst (main nat Bench.driver Bench.ids_5_3 Bench.no_dirs Bench.not_found 1
         (Bench.start ["n"; "1"; "y"; "N "])) = Exit 0.
Proof. vm_compute. repeat split. Qed.

End InitFacts.

(* ===================================================================== *)
(** * Computations that leave the console and the process alone *)
(* ===================================================================== *)

Module QuietFacts.

Import Py Eff Aux AuxX PyFacts EffFacts SensoSysDataSource.
Local Open Scope py_scope.

Section Rules.
Context {B : Type}.
Variable P : event -> Prop.

Lemma quiet_ret {A : Type} (a : A) : quiet P 0 (@ret B A a).
Proof.
  intros w r w' H. inversion H; subst. split; [reflexivity|].
  split; [discriminate|]. exists []. rewrite app_nil_r. auto.
Qed.

Lemma quiet_raise {A : Type} (e : exn) : quiet P 0 (@raise B A e).
Proof.
  intros w r w' H. inversion H; subst. split; [reflexivity|].
  split; [discriminate|]. exists []. rewrite app_nil_r. auto.
Qed.

Lemma quiet_lift {A : Type} (x : res A) : quiet P 0 (@lift B A x).
Proof.
  intros w r w' H. inversion H; subst. split; [reflexivity|].
  split; [destruct x; discriminate|]. exists []. rewrite app_nil_r. auto.
Qed.

Lemma quiet_emit (e : event) : P e -> quiet P 1 (@emit B e).
Proof.
  intros He w r w' H. inversion H; subst. simpl. split; [reflexivity|].
  split; [discriminate|]. exists [e]. auto.
Qed.

Lemma quiet_bus_call {A : Type} (f : B -> A * B) : quiet P 0 (bus_call f).
Proof.
  intros w r w' H. unfold bus_call in H. destruct (f (bus w)) as [a b'].
  inversion H; subst. simpl. split; [reflexivity|].
  split; [discriminate|]. exists []. rewrite app_nil_r. auto.
Qed.

Lemma quiet_bind {A C : Type} (n1 n2 : nat) (m : M B A) (k : A -> M B C) :
  quiet P n1 m -> (forall a, quiet P n2 (k a)) -> quiet P (n1 + n2) (bind m k).
Proof.
  intros Hm Hk w r w' H. unfold bind in H.
  destruct (m w) as [[a|e|c] w1] eqn:Em.
  - destruct (Hm _ _ _ Em) as [Hs1 [_ [t1 [Ht1 [HP1 Hl1]]]]].
    destruct (Hk a _ _ _ H) as [Hs2 [Hx [t2 [Ht2 [HP2 Hl2]]]]].
    split; [congruence|]. split; [exact Hx|].
    exists (t1 ++ t2). rewrite Ht2, Ht1, app_assoc.
    split; [reflexivity|]. split; [apply Forall_app; auto|].
    rewrite length_app. lia.
  - inversion H; subst. destruct (Hm _ _ _ Em) as [Hs1 [_ [t1 [Ht1 [HP1 Hl1]]]]].
    split; [exact Hs1|]. split; [discriminate|].
    exists t1. repeat split; auto. lia.
  - exfalso. destruct (Hm _ _ _ Em) as [_ [Hx _]]. exact (Hx c eq_refl).
Qed.

Lemma quiet_le {A : Type} (n n' : nat) (m : M B A) :
  (n <= n')%nat -> quiet P n m -> quiet P n' m.
Proof.
  intros Hn Hm w r w' H. destruct (Hm _ _ _ H) as [Hs [Hx [t [Ht [HP Hl]]]]].
  split; [exact Hs|]. split; [exact Hx|]. exists t. repeat split; auto. lia.
Qed.

End Rules.

End QuietFacts.

(* ===================================================================== *)
(** * Further properties of the header and of the read cycle *)
(* ===================================================================== *)

Module ReadCycleFacts.

Import Py Eff Aux AuxX PyFacts EffFacts QuietFacts MeasurementFacts
  SensoSysDataSource.
Local Open Scope py_scope.

Section ReadCycle.
Context {B : Type}.
Variable sensosys : Driver.t B.

(** A device that gave its values has its names. *)
Lemma device_data_has_parameters dev D w w' :
  device_data B sensosys dev w = (Ok D, w') ->
  exists P, device_parameters B sensosys dev = Val P.
Proof.
  destruct dev as [[_id _name] cfg].
  unfold device_parameters, device_data, bind, lift, bus_call, hygbar_params,
    log, emit, ret, raise; simpl.
  destruct (int_of_str _id) as [n|]; simpl; [|discriminate].
  destruct _name as [| | | |name]; simpl; try discriminate.
  destruct (startswith name "ANEMO"); [eauto|].
  destruct (startswith name "THERM"); [eauto|].
  destruct (startswith name "HYGRO"); [|discriminate].
  destruct (Driver.senso_hygbar_read_measurement_data _ _ _ _) as [[r|] b'];
    simpl;
    destruct (Driver.senso_hygbar_sensor_config sensosys cfg) as [ps|];
    simpl; try discriminate; eauto.
Qed.

Lemma data_loop_has_parameters devs :
  forall acc dacc w data w',
    data_loop B sensosys devs dacc w = (Ok data, w') ->
    exists params, parameters_loop B sensosys devs acc = Val params.
Proof.
  induction devs as [|dev devs IH]; intros acc dacc w data w' H; simpl.
  - eauto.
  - simpl in H. unfold bind in H.
    destruct (device_data B sensosys dev w) as [[D|e|c] w1] eqn:ED;
      try discriminate.
    destruct (device_data_has_parameters _ _ _ _ ED) as [P EP].
    rewrite EP. simpl. eapply IH. exact H.
Qed.

(** One device: at most the warning, nothing from the console, no end of
    the process. *)
Lemma quiet_device_data dev : quiet is_no_data 1 (device_data B sensosys dev).
Proof.
  destruct dev as [[_id _name] cfg]. intros [b0 sin tr] r w'.
  unfold device_data, bind, lift, bus_call, hygbar_params, log, emit, ret,
    raise; simpl.
  assert (Hnil : forall (o : outcome (list value)),
             (forall c, o <> Exit c) ->
             sin = sin /\
             (forall c, o <> Exit c) /\
             exists t, tr = tr ++ t /\
                       Forall is_no_data t /\ (List.length t <= 1)%nat).
  { intros o Ho. split; [reflexivity|]. split; [exact Ho|].
    exists []. simpl. rewrite app_nil_r. auto. }
  assert (Hone : forall (o : outcome (list value)) i name,
             (forall c, o <> Exit c) ->
             sin = sin /\
             (forall c, o <> Exit c) /\
             exists t,
               tr ++ [Log SensoSysLogger WARNING (MNoData i name)] = tr ++ t /\
               Forall is_no_data t /\ (List.length t <= 1)%nat).
  { intros o i name Ho. split; [reflexivity|]. split; [exact Ho|].
    eexists. split; [reflexivity|]. split; [|simpl; lia].
    repeat constructor. exists i, name. reflexivity. }
  destruct (int_of_str _id) as [n|]; simpl.
  2: { intros H; inversion H; subst. apply Hnil. intros c Hc; discriminate Hc. }
  destruct _name as [| | | |name]; simpl;
    try (intros H; inversion H; subst; apply Hnil; intros c Hc; discriminate Hc).
  destruct (startswith name "ANEMO").
  { destruct (Driver.senso_anemo_read_measurement_data _ _ _) as [[x|] b'];
      intros H; inversion H; subst; simpl; [apply Hnil | apply Hone];
      intros c Hc; discriminate Hc. }
  destruct (startswith name "THERM").
  { destruct (Driver.senso_therm_read_temperatures_enabled_channels _ _ _)
      as [[x|] b'];
      intros H; inversion H; subst; simpl; [apply Hnil | apply Hone];
      intros c Hc; discriminate Hc. }
  destruct (startswith name "HYGRO").
  2: { intros H; inversion H; subst. apply Hnil. intros c Hc; discriminate Hc. }
  destruct (Driver.senso_hygbar_read_measurement_data _ _ _ _) as [[x|] b'];
    simpl;
    destruct (Driver.senso_hygbar_sensor_config sensosys cfg) as [ps|];
    simpl; intros H; inversion H; subst; simpl;
    first [apply Hnil | apply Hone]; intros c Hc; discriminate Hc.
Qed.

Lemma quiet_data_loop devs :
  forall acc, quiet is_no_data (List.length devs) (data_loop B sensosys devs acc).
Proof.
  induction devs as [|dev devs IH]; intros acc; simpl.
  - apply quiet_ret.
  - apply (quiet_bind is_no_data 1 (List.length devs));
      [apply quiet_device_data | intros; apply IH].
Qed.

End ReadCycle.

(** X1. [read_data] and [get_all_measurement_parameters] fail together:
    when a read cycle returns a row, the header exists, and the row has the
    length of the header.  So all the rows of an instance have one
    length, whatever the instruments answer. *)
Theorem rows_have_the_width_of_the_header (B : Type) (sensosys : Driver.t B)
    (s : self) (w w' : world B) (data : list value) :
  read_data B sensosys s w = (Ok data, w') ->
  (exists params,
      get_all_measurement_parameters B sensosys s = Val params /\
      List.length data = List.length params)
  /\ (forall w1 w1' data1,
        read_data B sensosys s w1 = (Ok data1, w1') ->
        List.length data1 = List.length data).
Proof.
  intros H.
  destruct (data_loop_has_parameters sensosys _ [] _ _ _ _ H) as [params HP].
  assert (Hlen : forall w1 w1' data1,
             read_data B sensosys s w1 = (Ok data1, w1') ->
             List.length data1 = List.length params).
  { intros w1 w1' data1 H1.
    destruct (loops_aligned sensosys _ _ _ _ _ _ _ HP H1) as [cells [-> [-> _]]].
    simpl. now rewrite !length_map. }
  split.
  - exists params. split; [exact HP | eapply Hlen; exact H].
  - intros w1 w1' data1 H1. rewrite (Hlen _ _ _ H1), (Hlen _ _ _ H). reflexivity.
Qed.

Lemma rows_have_the_width_of_the_header_witness :
  exists data,
    fst (read_data nat Bench.driver Bench.source (Bench.start [])) = Ok data /\
    (exists params,
        get_all_measurement_parameters nat Bench.driver Bench.source = Val params /\
        List.length data = List.length params)
    /\ (forall w1 w1' data1,
          read_data nat Bench.driver Bench.source w1 = (Ok data1, w1') ->
          List.length data1 = List.length data).
Proof.
  eexists. split; [vm_compute; reflexivity|].
  eapply (rows_have_the_width_of_the_header nat Bench.driver Bench.source
            (Bench.start [])).
  vm_compute. reflexivity.
Defined.

(** X2. A read cycle reads nothing from the console, never ends the
    process, and adds to the log nothing but the warnings "no data
    received", at most one for each device of the list. *)
Theorem read_cycle_effects (B : Type) (sensosys : Driver.t B) (s : self)
    (w w' : world B) (r : outcome (list value)) :
  read_data B sensosys s w = (r, w') ->
  stdin w' = stdin w /\
  (forall c, r <> Exit c) /\
  exists t, trace w' = trace w ++ t /\ Forall is_no_data t /\
            (List.length t <= List.length (sensosys_devices_list s))%nat.
Proof.
  intros H. exact (quiet_data_loop sensosys _ [] _ _ _ H).
Qed.

Lemma read_cycle_effects_witness :
  exists r w',
    read_data nat Bench.driver Bench.source (Bench.start ["y"]) = (r, w') /\
    stdin w' = stdin (Bench.start ["y"]) /\
    (forall c, r <> Exit c) /\
    exists t, trace w' = trace (Bench.start ["y"]) ++ t /\ Forall is_no_data t /\
              (List.length t <= List.length (sensosys_devices_list Bench.source))%nat.
Proof.
  eexists _, _. split; [vm_compute; reflexivity|].
  eapply (read_cycle_effects nat Bench.driver Bench.source (Bench.start ["y"])).
  vm_compute. reflexivity.
Defined.

End ReadCycleFacts.

(* ===================================================================== *)
(** * Further properties of the calibration date *)
(* ===================================================================== *)

Module DateMoreFacts.

Import Py Eff Aux AuxX PyFacts DateFacts SensoSysDataSource Strptime.

(** A text read with one of the two formats is a day of the calendar in
    1969-2068. *)
Lemma strptime_window (sep : ascii) (s : string) (dt : date) :
  is_sep sep -> strptime s (date_format sep) = Some dt ->
  1969 <= year dt <= 2068 /\ valid_date dt = true.
Proof.
  intros Hs. unfold strptime. rewrite (parse_date_format sep Hs).
  destruct (match_toks _ s no_groups) as [[g r]|] eqn:E; [|discriminate].
  destruct r; [|discriminate].
  apply match_toks_dir in E. destruct E as [a1 [m1 [r1 [_ [_ E]]]]].
  apply match_toks_lit in E. destruct E as [s1 [_ E]].
  apply match_toks_dir in E. destruct E as [a2 [m2 [r2 [_ [_ E]]]]].
  apply match_toks_lit in E. destruct E as [s2 [_ E]].
  apply match_toks_dir in E. destruct E as [a3 [m3 [r3 [Ha [Hm E]]]]].
  simpl in E. injection E as <- _.
  simpl in Ha. destruct Ha as [<-|[]].
  apply match_two_digits in Hm. destruct Hm as [c1 [c2 [-> [H1 H2]]]].
  destruct (two_digits_value c1 c2 H1 H2) as [v [Hv Hr]].
  unfold year_of. cbn [g_y g_Y g_m g_d set_group no_groups]. rewrite Hv.
  destruct (group_int 1 (Some m2)) as [m|]; [|discriminate].
  destruct (group_int 1 (Some m1)) as [d|]; [|discriminate].
  destruct (valid_date _) eqn:Ev; [|discriminate].
  intros H. injection H as <-. split; [|exact Ev].
  simpl. destruct (v <=? 68) eqn:E68; [apply Z.leb_le in E68 | apply Z.leb_gt in E68];
    lia.
Qed.

(** ** An ISO date is read by neither format *)

Lemma pad4_window :
  forallb (fun y => four_digits (pad 4 y)) (zrange 1969 100) = true.
Proof. vm_compute. reflexivity. Qed.

Lemma pad4_digits (y : Z) :
  1969 <= y <= 2068 ->
  exists a b c d,
    pad 4 y = String a (String b (String c (String d EmptyString))) /\
    is_digit b = true /\ is_digit c = true.
Proof.
  intros Hy.
  assert (H : In y (zrange 1969 100)) by (apply in_zrange; lia).
  pose proof (proj1 (forallb_forall _ _) pad4_window y H) as Hf.
  unfold four_digits in Hf.
  destruct (pad 4 y) as [|a [|b [|c [|d [|e s]]]]]; try discriminate.
  apply andb_prop in Hf. destruct Hf as [Hf _].
  apply andb_prop in Hf. destruct Hf as [Hf Hc].
  apply andb_prop in Hf. destruct Hf as [_ Hb].
  exists a, b, c, d. auto.
Qed.

Lemma sep_not_digit (sep : ascii) : is_sep sep -> is_digit sep = false.
Proof. intros [-> | ->]; reflexivity. Qed.

Lemma iso_not_read (sep : ascii) (dt : date) :
  is_sep sep -> 1969 <= year dt <= 2068 ->
  strptime (iso_date dt) (date_format sep) = None.
Proof.
  intros Hs Hy.
  destruct (strptime (iso_date dt) (date_format sep)) as [dt'|] eqn:E;
    [|reflexivity].
  exfalso. apply (strptime_day_then sep _ _ Hs) in E.
  destruct E as [m [r [Hm [Hl _]]]].
  destruct (pad4_digits _ Hy) as [a [b [c [d [Hp [Hb Hc]]]]]].
  unfold iso_date in Hm. rewrite Hp in Hm. simpl in Hm.
  pose proof (sep_not_digit sep Hs) as Hsd.
  destruct m as [|x [|y [|z m]]]; simpl in Hl; try lia;
    simpl in Hm; injection Hm; intros; subst; congruence.
Qed.

(** What the conversion makes of a string *)
Lemma convert_string (resp : dict value) (s : string) :
  get "calibration_expired_date" resp = Some (VStr s) ->
  convert_calibration_date resp
  = Val match strptime s "%d-%m-%y", strptime s "%d.%m.%y" with
        | Some dt, _ =>
            set_item "calibration_expired_date" (VStr (iso_date dt)) resp
        | None, Some dt =>
            set_item "calibration_expired_date" (VStr (iso_date dt)) resp
        | None, None => resp
        end.
Proof.
  intros Hg. unfold convert_calibration_date, py_get. rewrite Hg.
  unfold _date_formats, convert_date_loop.
  destruct (strptime s "%d-%m-%y") as [dt1|] eqn:E1.
  - rewrite (strptime_exclusive s dt1 E1), strftime_iso. reflexivity.
  - destruct (strptime s "%d.%m.%y") as [dt2|]; [rewrite strftime_iso|];
      reflexivity.
Qed.

Lemma convert_iso (resp : dict value) (dt : date) :
  1969 <= year dt <= 2068 ->
  get "calibration_expired_date" resp = Some (VStr (iso_date dt)) ->
  convert_calibration_date resp = Val resp.
Proof.
  intros Hy Hg. rewrite (convert_string resp _ Hg).
  change "%d-%m-%y" with (date_format "-").
  change "%d.%m.%y" with (date_format ".").
  rewrite (iso_not_read "-" dt (or_introl eq_refl) Hy).
  rewrite (iso_not_read "." dt (or_intror eq_refl) Hy). reflexivity.
Qed.

Lemma convert_settles (resp r1 : dict value) :
  convert_calibration_date resp = Val r1 ->
  convert_calibration_date r1 = Val r1.
Proof.
  intros H.
  destruct (get "calibration_expired_date" resp) as [v|] eqn:Hg.
  2: { unfold convert_calibration_date, py_get in *. rewrite Hg in *.
       injection H as <-. rewrite Hg. reflexivity. }
  destruct v as [| | | |s];
    try (unfold convert_calibration_date, py_get in H; rewrite Hg in H;
         discriminate H).
  { unfold convert_calibration_date, py_get in *. rewrite Hg in *.
    injection H as <-. rewrite Hg. reflexivity. }
  rewrite (convert_string resp s Hg) in H. injection H as <-.
  change "%d-%m-%y" with (date_format "-").
  change "%d.%m.%y" with (date_format ".").
  destruct (strptime s (date_format "-")) as [dt1|] eqn:E1.
  - destruct (strptime_window "-" s dt1 (or_introl eq_refl) E1) as [Hy _].
    apply (convert_iso _ dt1 Hy). apply get_set_item_same.
  - destruct (strptime s (date_format ".")) as [dt2|] eqn:E2.
    + destruct (strptime_window "." s dt2 (or_intror eq_refl) E2) as [Hy _].
      apply (convert_iso _ dt2 Hy). apply get_set_item_same.
    + rewrite (convert_string resp s Hg).
      change "%d-%m-%y" with (date_format "-").
      change "%d.%m.%y" with (date_format ".").
      rewrite E1, E2. reflexivity.
Qed.

(** X3. The conversion of the calibration date is idempotent: a record
    that went through it is left as it is by a second conversion. *)
Theorem conversion_is_idempotent (resp r1 : dict value) :
  convert_calibration_date resp = Val r1 ->
  convert_calibration_date r1 = Val r1.
Proof. exact (convert_settles resp r1). Qed.

Lemma conversion_is_idempotent_witness :
  convert_calibration_date
    [("serial_number", VInt 7); ("calibration_expired_date", VStr "2031-12-31")]
  = Val [("serial_number", VInt 7); ("calibration_expired_date", VStr "2031-12-31")].
Proof.
  apply (conversion_is_idempotent
           [("serial_number", VInt 7); ("calibration_expired_date", VStr "31.12.31")]).
  vm_compute. reflexivity.
Defined.

(** X4. The calibration date of a record after the conversion, when it
    was a string before: it is that string, unchanged, or the ISO text of
    the day the string was read as, and that day is a day of the calendar
    in the years 1969 to 2068 (two-digit years are never read as 2069 or
    later). *)
Theorem converted_date_range (resp r1 : dict value) (s : string) :
  get "calibration_expired_date" resp = Some (VStr s) ->
  convert_calibration_date resp = Val r1 ->
  get "calibration_expired_date" r1 = Some (VStr s) \/
  exists dt,
    get "calibration_expired_date" r1 = Some (VStr (iso_date dt)) /\
    (strptime s "%d-%m-%y" = Some dt \/ strptime s "%d.%m.%y" = Some dt) /\
    1969 <= year dt <= 2068 /\
    1 <= month dt <= 12 /\
    1 <= day dt <= days_in_month (year dt) (month dt).
Proof.
  intros Hg H. rewrite (convert_string resp s Hg) in H. injection H as <-.
  assert (Hv : forall dt, valid_date dt = true ->
                          1 <= month dt <= 12 /\
                          1 <= day dt <= days_in_month (year dt) (month dt)).
  { intros dt. unfold valid_date. rewrite !andb_true_iff, !Z.leb_le. lia. }
  destruct (strptime s "%d-%m-%y") as [dt1|] eqn:E1.
  - right. exists dt1.
    destruct (strptime_window "-" s dt1 (or_introl eq_refl) E1) as [Hy Hd].
    destruct (Hv _ Hd). rewrite get_set_item_same. auto 10.
  - destruct (strptime s "%d.%m.%y") as [dt2|] eqn:E2.
    + right. exists dt2.
      destruct (strptime_window "." s dt2 (or_intror eq_refl) E2) as [Hy Hd].
      destruct (Hv _ Hd). rewrite get_set_item_same. auto 10.
    + left. exact Hg.
Qed.

Lemma converted_date_range_witness :
  get "calibration_expired_date" [("calibration_expired_date", VStr "1970-01-01")]
  = Some (VStr "01-01-70") \/
  exists dt,
    get "calibration_expired_date" [("calibration_expired_date", VStr "1970-01-01")]
    = Some (VStr (iso_date dt)) /\
    (strptime "01-01-70" "%d-%m-%y" = Some dt \/
     strptime "01-01-70" "%d.%m.%y" = Some dt) /\
    1969 <= year dt <= 2068 /\
    1 <= month dt <= 12 /\
    1 <= day dt <= days_in_month (year dt) (month dt).
Proof.
  apply (converted_date_range [("calibration_expired_date", VStr "01-01-70")]);
    vm_compute; reflexivity.
Defined.

End DateMoreFacts.

(* ===================================================================== *)
(** * Further properties of the scan *)
(* ===================================================================== *)

Module ScanMoreFacts.

Import Py Eff Aux AuxX PyFacts EffFacts QuietFacts ScanFacts DateMoreFacts
  SensoSysDataSource.
Local Open Scope py_scope.

Section ScanMore.
Context {B : Type}.
Variable sensosys : Driver.t B.

(** ** The calibration dates of the mapping *)

Lemma scan_address_settled _id devs :
  post (fun devs' =>
          devs' = devs \/
          exists d, devs' = set_item (str_of_int _id) d devs /\ date_settled d)
       (scan_address B sensosys _id devs).
Proof.
  unfold scan_address.
  eapply post_bind; [apply post_true | intros _ _].
  eapply post_bind; [apply post_true | intros [resp|] _].
  2: { apply post_ret. left. reflexivity. }
  do 7 (eapply post_bind; [apply post_true | intros ? _]).
  eapply post_bind.
  { apply (post_lift date_settled). intros d Hd.
    exact (convert_settles _ _ Hd). }
  intros d Hd. apply post_ret. right. exists d. auto.
Qed.

Lemma scan_loop_settled ids :
  forall devs, Forall (fun kv => date_settled (snd kv)) devs ->
  post (Forall (fun kv => date_settled (snd kv))) (scan_loop B sensosys ids devs).
Proof.
  induction ids as [|i ids IH]; intros devs Hd; simpl.
  - apply post_ret, Hd.
  - eapply post_bind; [apply scan_address_settled|].
    intros devs' [->|[d [-> Hok]]]; apply IH; [exact Hd|].
    apply Forall_set_item; assumption.
Qed.

(** ** The effects of the scan *)

Lemma quiet0_update_from (P : event -> Prop) d call :
  quiet P 0 (update_from B d call).
Proof.
  unfold update_from. apply (quiet_bind P 0 0); [apply quiet_bus_call|].
  intros r. apply quiet_lift.
Qed.

Lemma quiet0_therm_channels (P : event -> Prop) _id chs :
  forall d, quiet P 0 (therm_channels B sensosys _id chs d).
Proof.
  induction chs as [|ch chs IH]; intros d; simpl.
  - apply quiet_ret.
  - apply (quiet_bind P 0 0); [apply quiet_bus_call|].
    intros [ind|]; [apply IH | apply quiet_raise].
Qed.

Lemma quiet0_read_family (P : event -> Prop) _id name d :
  quiet P 0 (read_family B sensosys _id name d).
Proof.
  unfold read_family.
  destruct (startswith name "ANEMO").
  { apply (quiet_bind P 0 0); intros; apply quiet0_update_from. }
  destruct (startswith name "THERM").
  { apply (quiet_bind P 0 0);
      [apply quiet0_update_from | intros; apply quiet0_therm_channels]. }
  destruct (startswith name "HYGRO");
    [apply quiet0_update_from | apply quiet_raise].
Qed.

(** One address: the message "scanning", then at most the message
    "found". *)
Lemma scan_address_effects _id devs w r w' :
  scan_address B sensosys _id devs w = (r, w') ->
  stdin w' = stdin w /\
  (forall c, r <> Exit c) /\
  exists t,
    trace w' = trace w ++ Log SensoSysLogger INFO (MScanningAddress _id) :: t /\
    Forall is_found t /\ (List.length t <= 1)%nat.
Proof.
  unfold scan_address, bind at 1, log at 1, emit. simpl.
  match goal with
  | |- ?m ?w1 = _ -> _ => assert (Hq : quiet is_found 1 m)
  end.
  { apply (quiet_bind is_found 0 1); [apply quiet_bus_call|].
    intros [resp|]; [|apply (quiet_le is_found 0 1); [lia | apply quiet_ret]].
    apply (quiet_bind is_found 0 1); [apply quiet_lift | intros raw].
    apply (quiet_bind is_found 0 1); [apply quiet_lift | intros s].
    apply (quiet_bind is_found 1 0).
    { apply quiet_emit. eexists _, _. reflexivity. }
    intros _.
    apply (quiet_bind is_found 0 0); [apply quiet0_update_from | intros d1].
    apply (quiet_bind is_found 0 0); [apply quiet0_update_from | intros d2].
    apply (quiet_bind is_found 0 0); [apply quiet0_update_from | intros d3].
    apply (quiet_bind is_found 0 0); [apply quiet0_read_family | intros d4].
    apply (quiet_bind is_found 0 0); [apply quiet_lift | intros d5].
    apply quiet_ret. }
  intros H. destruct (Hq _ _ _ H) as [Hs [Hx [t [Ht [HP Hl]]]]]. simpl in *.
  split; [exact Hs|]. split; [exact Hx|].
  exists t. rewrite Ht, <- app_assoc. auto.
Qed.

Lemma scanned_found (t : list event) : Forall is_found t -> scanned t = [].
Proof.
  induction 1 as [|e t [i [n ->]] _ IH]; simpl; auto.
Qed.

Lemma scanned_app (t1 t2 : list event) :
  scanned (t1 ++ t2) = scanned t1 ++ scanned t2.
Proof.
  induction t1 as [|e t1 IH]; simpl; [reflexivity|].
  destruct e as [[] [] [] | | | | | | |]; simpl; rewrite ?IH; reflexivity.
Qed.

Lemma scan_loop_effects ids :
  forall devs w r w',
    scan_loop B sensosys ids devs w = (r, w') ->
    stdin w' = stdin w /\
    (forall c, r <> Exit c) /\
    exists t,
      trace w' = trace w ++ t /\ Forall is_scan_event t /\
      (List.length t <= 2 * List.length ids)%nat /\
      exists rest, ids = scanned t ++ rest /\
                   (forall devs', r = Ok devs' -> rest = []).
Proof.
  induction ids as [|i ids IH]; intros devs w r w' H; simpl in H.
  - inversion H; subst. split; [reflexivity|]. split; [discriminate|].
    exists []. rewrite app_nil_r. repeat split; auto. exists []. auto.
  - unfold bind in H.
    destruct (scan_address B sensosys i devs w) as [[devs1|e|c] w1] eqn:E;
      destruct (scan_address_effects _ _ _ _ _ E)
        as [Hs1 [Hx1 [t1 [Ht1 [HP1 Hl1]]]]].
    + destruct (IH _ _ _ _ H) as [Hs2 [Hx2 [t2 [Ht2 [HP2 [Hl2 [rest [Hr Hok]]]]]]]].
      split; [congruence|]. split; [exact Hx2|].
      exists ((Log SensoSysLogger INFO (MScanningAddress i) :: t1) ++ t2).
      split; [rewrite Ht2, Ht1, <- app_assoc; reflexivity|].
      split.
      { apply Forall_app. split; [|exact HP2]. constructor.
        - left. eexists. reflexivity.
        - eapply Forall_impl; [|exact HP1]. intros e He. right. exact He. }
      split; [rewrite length_app; simpl; lia|].
      exists rest. split; [|exact Hok].
      rewrite scanned_app. simpl. rewrite (scanned_found _ HP1). simpl.
      now rewrite Hr at 1.
    + inversion H; subst. split; [exact Hs1|]. split; [discriminate|].
      exists (Log SensoSysLogger INFO (MScanningAddress i) :: t1).
      split; [exact Ht1|]. split.
      { constructor.
        - left. eexists. reflexivity.
        - eapply Forall_impl; [|exact HP1]. intros e' He. right. exact He. }
      split; [simpl; lia|].
      exists ids. split; [|discriminate].
      simpl. now rewrite (scanned_found _ HP1).
    + exfalso. exact (Hx1 c eq_refl).
Qed.

End ScanMore.

(** ** The keys of the mapping *)

Lemma add_key_NoDup (ks : list string) (k : string) :
  NoDup ks -> NoDup (add_key ks k).
Proof.
  intros H. unfold add_key. destruct (existsb (String.eqb k) ks) eqn:E; [exact H|].
  apply NoDup_app; [exact H | repeat constructor; simpl; tauto |].
  intros x Hx [Heq|[]]. subst x.
  assert (Ht : existsb (String.eqb k) ks = true) by (now apply existsb_eqb_In).
  congruence.
Qed.

Lemma fold_add_key_facts (l : list string) :
  forall acc,
    NoDup acc ->
    NoDup (fold_left add_key l acc) /\
    (List.length (fold_left add_key l acc) <= List.length acc + List.length l)%nat /\
    (forall k, In k (fold_left add_key l acc) -> In k acc \/ In k l).
Proof.
  induction l as [|k l IH]; intros acc Hnd; simpl.
  - repeat split; auto. lia.
  - destruct (IH (add_key acc k) (add_key_NoDup _ k Hnd)) as [H1 [H2 H3]].
    split; [exact H1|].
    assert (Hl : (List.length (add_key acc k) <= S (List.length acc))%nat).
    { unfold add_key. destruct (existsb _ acc); [lia|].
      rewrite length_app. simpl. lia. }
    split; [lia|].
    intros x Hx. destruct (H3 x Hx) as [Ha|Hb]; [|auto].
    unfold add_key in Ha. destruct (existsb _ acc); [auto|].
    apply in_app_or in Ha. destruct Ha as [Ha|[<-|[]]]; auto.
Qed.

Lemma subseq_length {A : Type} (l l' : list A) :
  subseq l l' -> (List.length l <= List.length l')%nat.
Proof. induction 1; simpl; lia. Qed.

Lemma scan_devices_keys (B : Type) (sensosys : Driver.t B) ids w devs w' :
  _scan_devices B sensosys ids w = (Ok devs, w') ->
  NoDup (keys devs) /\
  (List.length devs <= List.length ids)%nat /\
  (forall k, In k (keys devs) -> exists z, In z ids /\ k = str_of_int z).
Proof.
  intros H.
  destruct (scan_loop_keys sensosys ids [] _ _ _ H) as [found [Hsub Hk]].
  simpl in Hk.
  destruct (fold_add_key_facts (map str_of_int found) [] (NoDup_nil _))
    as [H1 [H2 H3]].
  rewrite <- Hk in H1, H2, H3.
  split; [exact H1|]. split.
  - unfold keys in H2. rewrite !length_map in H2. simpl in H2.
    pose proof (subseq_length _ _ Hsub). lia.
  - intros k Hin. destruct (H3 k Hin) as [[]|Hm].
    apply in_map_iff in Hm. destruct Hm as [z [<- Hz]].
    exists z. split; [eapply subseq_In; eassumption | reflexivity].
Qed.

(** X5. The mapping a successful scan returns: no address twice, at most
    as many devices as addresses scanned, every key the text of a scanned
    address; the calibration date of every record is settled (a second
    conversion would change nothing).  The scan of the range 0-255 finds at
    most 256 devices, at addresses 0 to 255. *)
Theorem scan_result_mapping (B : Type) (sensosys : Driver.t B) :
  (forall ids w devs w',
      _scan_devices B sensosys ids w = (Ok devs, w') ->
      NoDup (keys devs) /\
      (List.length devs <= List.length ids)%nat /\
      (forall k, In k (keys devs) -> exists z, In z ids /\ k = str_of_int z) /\
      Forall (fun kv => date_settled (snd kv)) devs)
  /\
  (forall w devs w',
      _scan_devices_by_ids B sensosys w = (Ok devs, w') ->
      (List.length devs <= 256)%nat /\
      forall k, In k (keys devs) -> exists z, 0 <= z <= 255 /\ k = str_of_int z).
Proof.
  assert (Hgen : forall ids w devs w',
             _scan_devices B sensosys ids w = (Ok devs, w') ->
             NoDup (keys devs) /\
             (List.length devs <= List.length ids)%nat /\
             (forall k, In k (keys devs) -> exists z, In z ids /\ k = str_of_int z) /\
             Forall (fun kv => date_settled (snd kv)) devs).
  { intros ids w devs w' H.
    destruct (scan_devices_keys B sensosys _ _ _ _ H) as [H1 [H2 H3]].
    split; [exact H1|]. split; [exact H2|]. split; [exact H3|].
    exact (scan_loop_settled sensosys ids [] (Forall_nil _) _ _ _ H). }
  split; [exact Hgen|].
  intros w devs w' H. destruct (Hgen _ _ _ _ H) as [_ [Hl [Hk _]]].
  split.
  - unfold range_0_256 in Hl. rewrite length_map, length_seq in Hl. exact Hl.
  - intros k Hin. destruct (Hk k Hin) as [z [Hz ->]]. exists z. split; [|reflexivity].
    unfold range_0_256 in Hz. apply in_map_iff in Hz.
    destruct Hz as [n [<- Hn]]. apply in_seq in Hn. lia.
Qed.

Lemma scan_result_mapping_witness :
  exists devs,
    fst (_scan_devices nat Bench.driver [5; 3; 5; 4] (Bench.start [])) = Ok devs /\
    NoDup (keys devs) /\
    (List.length devs <= List.length [5; 3; 5; 4])%nat /\
    (forall k, In k (keys devs) ->
               exists z, In z [5; 3; 5; 4] /\ k = str_of_int z) /\
    Forall (fun kv => date_settled (snd kv)) devs.
Proof.
  eexists. split; [vm_compute; reflexivity|].
  eapply (proj1 (scan_result_mapping nat Bench.driver) [5; 3; 5; 4] (Bench.start [])).
  vm_compute. reflexivity.
Defined.

(** X6. The effects of a scan.  It reads nothing from the console and
    never ends the process; it logs only "scanning address" and "found
    device", at most two messages for each address; the addresses are
    scanned once each, in the order of the list, and a scan that ends in an
    exception has stopped at the address of the exception. *)
Theorem scan_effects (B : Type) (sensosys : Driver.t B) (ids : list Z)
    (w w' : world B) (r : outcome (dict (dict value))) :
  _scan_devices B sensosys ids w = (r, w') ->
  stdin w' = stdin w /\
  (forall c, r <> Exit c) /\
  exists t,
    trace w' = trace w ++ t /\ Forall is_scan_event t /\
    (List.length t <= 2 * List.length ids)%nat /\
    exists rest, ids = scanned t ++ rest /\
                 (forall devs, r = Ok devs -> rest = []).
Proof.
  intros H. exact (scan_loop_effects sensosys ids [] _ _ _ H).
Qed.

Lemma scan_effects_witness :
  exists r w',
    _scan_devices nat Bench.driver [5; 9; 3] (Bench.start ["y"]) = (r, w') /\
    stdin w' = stdin (Bench.start ["y"]) /\
    (forall c, r <> Exit c) /\
    exists t,
      trace w' = trace (Bench.start ["y"]) ++ t /\ Forall is_scan_event t /\
      (List.length t <= 2 * List.length [5; 9; 3])%nat /\
      exists rest, [5; 9; 3] = scanned t ++ rest /\
                   (forall devs, r = Ok devs -> rest = []).
Proof.
  eexists _, _. split; [vm_compute; reflexivity|].
  eapply (scan_effects nat Bench.driver [5; 9; 3] (Bench.start ["y"])).
  vm_compute. reflexivity.
Defined.

(** ** The file of addresses *)

Lemma ints_of_strings (zs : list Z) :
  ints_of (map (fun z => VStr (str_of_int z)) zs) = Val zs.
Proof.
  induction zs as [|z zs IH]; simpl; [reflexivity|].
  unfold py_int. rewrite int_of_str_str_of_int. simpl. rewrite IH. reflexivity.
Qed.

Lemma ints_of_refused (l : list value) (v : value) (e : exn) :
  In v l -> py_int v = Err e -> exists e', ints_of l = Err e'.
Proof.
  induction l as [|a l IH]; simpl; [tauto|].
  intros [-> | Hin] He.
  - rewrite He. simpl. eauto.
  - destruct (py_int a) as [z|e0]; simpl; [|eauto].
    destruct (IH Hin He) as [e' ->]. simpl. eauto.
Qed.

(** X7. The file of addresses.  A file that lists the addresses as the
    decimal texts of integers (within the 4300 digits that [int] and [str]
    accept for the text of an integer) is scanned at exactly these
    addresses, in the order of the file.  The whole file is converted
    before the scan starts: one entry that [int] refuses, wherever it is in
    the file, makes the call raise before any instrument is queried and
    before anything is logged. *)
Theorem ids_file_scan (B : Type) (sensosys : Driver.t B)
    (files : string -> option json) (load_missing : string -> res json)
    (file_name : string) (w : world B) :
  (forall zs,
      Forall (fun z => Z.abs z < 10 ^ 4300) zs ->
      files file_name = Some (JList (map (fun z => VStr (str_of_int z)) zs)) ->
      _scan_devices_by_file B sensosys files load_missing file_name w
      = _scan_devices B sensosys zs w)
  /\ (forall l s,
        files file_name = Some (JList l) ->
        In (VStr s) l -> isascii s = true -> int_of_str s = None ->
        exists e,
          _scan_devices_by_file B sensosys files load_missing file_name w
          = (Raise e, w)).
Proof.
  unfold _scan_devices_by_file, load_json, bind, lift.
  split.
  - intros zs _ Hf. rewrite Hf. simpl. rewrite ints_of_strings. reflexivity.
  - intros l s Hf Hin _ Hs. rewrite Hf. simpl.
    assert (He : py_int (VStr s) = Err (InvalidIntLiteral (VStr s))).
    { unfold py_int. rewrite Hs. reflexivity. }
    destruct (ints_of_refused l _ _ Hin He) as [e' ->]. exists e'. reflexivity.
Qed.

Lemma ids_file_scan_witness :
  _scan_devices_by_file nat Bench.driver Bench.ids_5_3 Bench.not_found
    "_config/SensoSysAllDevicesIDs_default.json" (Bench.start [])
  = _scan_devices nat Bench.driver [5; 3] (Bench.start [])
  /\
  exists e,
    _scan_devices_by_file nat Bench.driver Bench.ids_5_five Bench.not_found
      "_config/SensoSysAllDevicesIDs_default.json" (Bench.start [])
    = (Raise e, Bench.start []).
Proof.
  split.
  - apply (proj1 (ids_file_scan nat Bench.driver Bench.ids_5_3 Bench.not_found
                    "_config/SensoSysAllDevicesIDs_default.json" (Bench.start []))
             [5; 3]).
    + repeat constructor.
    + reflexivity.
  - apply (proj2 (ids_file_scan nat Bench.driver Bench.ids_5_five Bench.not_found
                    "_config/SensoSysAllDevicesIDs_default.json" (Bench.start []))
             [VStr "5"; VStr "five"] "five").
    + reflexivity.
    + right. left. reflexivity.
    + reflexivity.
    + reflexivity.
Defined.

End ScanMoreFacts.

(* ===================================================================== *)
(** * Further properties of the configuration *)
(* ===================================================================== *)

Module ConfigMoreFacts.

Import Py Eff Aux AuxX PyFacts EffFacts QuietFacts InitFacts SensoSysDataSource.
Local Open Scope py_scope.

(** One step of a proof of [traced P m], for a [P] decided by the shape of
    the event. *)
Ltac holds :=
  first [ exact I | discriminate | (intros HH; discriminate HH) | assumption ].

Ltac tstep :=
  first
    [ apply traced_log_exit; [holds | unfold exit_event; eauto 10]
    | apply traced_bind; [| intros]
    | apply traced_ret
    | apply traced_raise
    | apply traced_lift
    | apply traced_bus_call
    | apply traced_emit; holds
    | apply traced_input; holds
    | match goal with
      | |- traced _ (match ?x with _ => _ end) => destruct x
      | |- traced _ (if ?x then _ else _) => destruct x
      end ].

Section Guide.
Context {B : Type}.

Lemma post_exit {A : Type} (Q : A -> Prop) (c : Z) : post Q (@sys_exit B A c).
Proof. intros w a w' H. discriminate. Qed.

Lemma existsb_port (port : string) (ports : list string) :
  existsb (fun p => value_eqb (VStr port) (VStr p)) ports = true -> In port ports.
Proof.
  intros H. apply existsb_exists in H. destruct H as [p [Hp He]].
  unfold value_eqb in He. destruct (value_eq_dec _ _) as [E|]; [|discriminate].
  injection E as ->. exact Hp.
Qed.

(** What the guide returns, run on the default configuration *)
Lemma guide_result out_dir ports :
  post (fun r =>
          fst r = true /\
          exists line b,
            In ("COM" ++ line)%string ports /\
            snd r = [("port", VStr ("COM" ++ line)); ("scan_by_file", VBool b);
                     ("time_out", VFloat 5 (-2))])
       (_get_sensosys_configs_by_guide B out_dir ports _sensosys_configs_default).
Proof.
  unfold _get_sensosys_configs_by_guide.
  eapply post_bind; [apply post_true | intros _ _].
  eapply post_bind; [apply post_true | intros pop _].
  eapply post_bind; [apply post_true | intros _ _].
  eapply post_bind.
  { unfold _get_port_name.
    eapply (post_bind (fun _ => True) (fun p => exists line, p = ("COM" ++ line)%string));
      [apply post_true | intros line _].
    apply post_ret. exists line. reflexivity. }
  intros port [line ->].
  eapply post_bind.
  { apply (post_lift (fun pa => pa = true -> In ("COM" ++ line)%string ports)).
    unfold _check_port_name, getitem. simpl. intros pa Hpa. injection Hpa as <-.
    apply existsb_port. }
  intros pa Hpa.
  eapply (post_bind (fun _ => pa = true)).
  { destruct pa.
    - intros w a w' _. reflexivity.
    - eapply post_bind; [apply post_true | intros; apply post_exit]. }
  intros _ Ht.
  eapply post_bind; [apply post_true | intros sbf _].
  eapply post_bind; [apply post_true | intros _ _].
  apply post_ret. split; [reflexivity|].
  exists line, sbf. split; [apply Hpa, Ht | reflexivity].
Qed.



Lemma traced_ask_nd prompt : traced not_dump (ask_yes_no B prompt).
Proof. unfold ask_yes_no. repeat tstep. Qed.

(** Without an output directory nothing is saved. *)
Lemma traced_guide_nd ports configs :
  traced not_dump (_get_sensosys_configs_by_guide B None ports configs).
Proof.
  unfold _get_sensosys_configs_by_guide, _get_if_pop_system_device_management,
    _get_port_name, _get_scan_by_file.
  repeat first [ apply traced_ask_nd | tstep ].
Qed.

Lemma ends_in_bind {A C : Type} (P : event -> Prop) (suf : C -> list event)
    (m : M B A) (k : A -> M B C) :
  traced P m -> (forall a, ends_in P suf (k a)) -> ends_in P suf (bind m k).
Proof.
  intros Hm Hk w c w' H. unfold bind in H.
  destruct (m w) as [[a|e|x] w1] eqn:Em; try discriminate.
  destruct (Hm _ _ _ Em) as [t1 [Ht1 [HP1 _]]].
  destruct (Hk a _ _ _ H) as [t2 [Ht2 HP2]].
  exists (t1 ++ t2). split; [|apply Forall_app; auto].
  rewrite Ht2, Ht1, <- !app_assoc. reflexivity.
Qed.

(** With an output directory the last thing the guide does is to save the
    configuration it returns. *)
Lemma guide_ends_in_saving dir ports configs :
  ends_in not_dump (saved_configs dir)
          (_get_sensosys_configs_by_guide B (Some dir) ports configs).
Proof.
  unfold _get_sensosys_configs_by_guide, _get_if_pop_system_device_management,
    _get_port_name, _get_scan_by_file.
  apply ends_in_bind; [repeat tstep | intros _].
  apply ends_in_bind; [apply traced_ask_nd | intros pop].
  apply ends_in_bind; [repeat tstep | intros _].
  apply ends_in_bind; [repeat tstep | intros port].
  apply ends_in_bind; [repeat tstep | intros pa].
  apply ends_in_bind; [repeat tstep | intros _].
  apply ends_in_bind; [apply traced_ask_nd | intros sbf].
  intros w a w' H. inversion H; subst. exists []. simpl.
  rewrite <- app_assoc. auto.
Qed.

Lemma keys_update_known {V : Type} (d e : dict V) :
  (forall k, In k (keys e) -> In k (keys d)) -> keys (update d e) = keys d.
Proof.
  unfold update. revert d.
  induction e as [|[k v] e IH]; intros d H; simpl; [reflexivity|].
  assert (Hk : keys (set_item k v d) = keys d).
  { rewrite keys_set_item.
    replace (mem k d) with true; [reflexivity|].
    symmetry. apply mem_In. apply H. now left. }
  rewrite IH; [exact Hk|].
  intros k' Hk'. rewrite Hk. apply H. now right.
Qed.

End Guide.



(** X9. The saving of the guided configuration.  With an output directory,
    the last thing the guide does before it returns is to save, once, the
    configuration it returns; without one it saves nothing. *)
Theorem guided_configuration_saved (B : Type) (ports : list string)
    (configs : dict value) :
  (forall dir (w : world B) r w',
      _get_sensosys_configs_by_guide B (Some dir) ports configs w = (Ok r, w') ->
      exists t0,
        trace w' = trace w ++ t0
                   ++ [Log SensoSysLogger INFO (MSavingConfigs dir "SensoSysConfigs.json");
                       DumpJson dir "SensoSysConfigs.json" (DConfigs (snd r))] /\
        Forall not_dump t0)
  /\
  (forall (w : world B) r w',
      _get_sensosys_configs_by_guide B None ports configs w = (r, w') ->
      exists t, trace w' = trace w ++ t /\ Forall not_dump t).
Proof.
  split.
  - intros dir w r w' H. exact (guide_ends_in_saving dir ports configs _ _ _ H).
  - intros w r w' H. destruct (traced_guide_nd ports configs _ _ _ H) as [t [Ht [HP _]]].
    eauto.
Qed.

Lemma guided_configuration_saved_witness :
  exists r w',
    _get_sensosys_configs_by_guide nat (Some "Test") ["COM1"; "COM3"]
      _sensosys_configs_default (Bench.start ["y"; "1"; "n"])
    = (Ok r, w') /\
    exists t0,
      trace w' = trace (Bench.start ["y"; "1"; "n"]) ++ t0
                 ++ [Log SensoSysLogger INFO (MSavingConfigs "Test" "SensoSysConfigs.json");
                     DumpJson "Test" "SensoSysConfigs.json" (DConfigs (snd r))] /\
      Forall not_dump t0.
Proof.
  eexists _, _. split; [vm_compute; reflexivity|].
  eapply (proj1 (guided_configuration_saved nat ["COM1"; "COM3"]
                   _sensosys_configs_default)
            "Test" (Bench.start ["y"; "1"; "n"])).
  vm_compute. reflexivity.
Defined.

(** X10. The configuration by file touches neither the console nor the
    instruments and never ends the process; it logs at most two messages.
    When it returns, the configuration has the keys it had; when it returns
    [False] the configuration is unchanged; a path that is not a file makes
    it return [False] (with the error "invalid file name"). *)
Theorem file_configuration_effects (B : Type) (files : string -> option json)
    (file_name : string) (configs : dict value) (w w' : world B)
    (r : outcome (bool * dict value)) :
  _get_sensosys_configs_by_file B files file_name configs w = (r, w') ->
  stdin w' = stdin w /\ bus w' = bus w /\
  (forall c, r <> Exit c) /\
  (exists t, trace w' = trace w ++ t /\ Forall (is_file_message file_name) t /\
             (List.length t <= 2)%nat) /\
  (forall ok cfg, r = Ok (ok, cfg) ->
                  keys cfg = keys configs /\ (ok = false -> cfg = configs)) /\
  (files file_name = None ->
   r = Ok (false, configs) /\
   trace w' = trace w ++ [Log SensoSysLogger INFO (MConfiguringByFile file_name);
                          Log SensoSysLogger ERROR (MInvalidFileName file_name)]).
Proof.
  unfold _get_sensosys_configs_by_file, bind, log, emit, ret, raise. simpl.
  assert (H1 : is_file_message file_name
                 (Log SensoSysLogger INFO (MConfiguringByFile file_name)))
    by (left; reflexivity).
  assert (H2 : is_file_message file_name
                 (Log SensoSysLogger ERROR (MInvalidKeys file_name)))
    by (right; left; reflexivity).
  assert (H3 : is_file_message file_name
                 (Log SensoSysLogger ERROR (MInvalidFileName file_name)))
    by (right; right; reflexivity).
  destruct (files file_name) as [[v|l|doc]|] eqn:Ef.
  - intros H; inversion H; subst; simpl.
    repeat split; try discriminate.
    eexists. split; [reflexivity|]. split; [repeat constructor; assumption | simpl; lia].
  - intros H; inversion H; subst; simpl.
    repeat split; try discriminate.
    eexists. split; [reflexivity|]. split; [repeat constructor; assumption | simpl; lia].
  - destruct (same_key_set doc configs) eqn:Ek;
      intros H; inversion H; subst; simpl.
    + repeat split; try discriminate.
      * eexists. split; [reflexivity|].
        split; [repeat constructor; assumption | simpl; lia].
      * injection H0 as <- <-. apply keys_update_known.
        intros k Hk. exact (proj1 (proj1 (same_key_set_spec _ _) Ek k) Hk).
      * injection H0 as <- <-. discriminate.
    + repeat split; try discriminate.
      * eexists. rewrite <- app_assoc. split; [reflexivity|].
        split; [repeat constructor; assumption | simpl; lia].
      * injection H0 as <- <-. reflexivity.
      * injection H0 as <- <-. reflexivity.
  - intros H; inversion H; subst; simpl.
    repeat split; try discriminate.
    + eexists. rewrite <- app_assoc. split; [reflexivity|].
      split; [repeat constructor; assumption | simpl; lia].
    + injection H0 as <- <-. reflexivity.
    + injection H0 as <- <-. reflexivity.
    + now rewrite <- app_assoc.
Qed.

Lemma file_configuration_effects_witness :
  exists r w',
    _get_sensosys_configs_by_file nat Bench.no_files "nowhere.json"
      _sensosys_configs_default (Bench.start ["y"]) = (r, w') /\
    stdin w' = stdin (Bench.start ["y"]) /\ bus w' = bus (Bench.start ["y"]) /\
    (forall c, r <> Exit c) /\
    (exists t, trace w' = trace (Bench.start ["y"]) ++ t /\
               Forall (is_file_message "nowhere.json") t /\
               (List.length t <= 2)%nat) /\
    (forall ok cfg, r = Ok (ok, cfg) ->
                    keys cfg = keys _sensosys_configs_default /\
                    (ok = false -> cfg = _sensosys_configs_default)) /\
    (Bench.no_files "nowhere.json" = None ->
     r = Ok (false, _sensosys_configs_default) /\
     trace w' = trace (Bench.start ["y"])
                ++ [Log SensoSysLogger INFO (MConfiguringByFile "nowhere.json");
                    Log SensoSysLogger ERROR (MInvalidFileName "nowhere.json")]).
Proof.
  eexists _, _. split; [vm_compute; reflexivity|].
  eapply (file_configuration_effects nat Bench.no_files "nowhere.json"
            _sensosys_configs_default (Bench.start ["y"])).
  vm_compute. reflexivity.
Defined.

End ConfigMoreFacts.

(* ===================================================================== *)
(** * The instance that [__init__] returns *)
(* ===================================================================== *)

Module InstanceFacts.

Import Py Eff Aux AuxX PyFacts EffFacts ScanFacts ScanMoreFacts ConfigMoreFacts
  SensoSysDataSource.
Local Open Scope py_scope.

Section Instance.
Context {B : Type}.
Variable sensosys : Driver.t B.
Variable files : string -> option json.
Variable path_exists : string -> bool.
Variable load_missing : string -> res json.

Lemma post_scan_available_ports :
  post (fun ports => Driver.scan_com_ports sensosys = Some ports)
       (_scan_available_ports B sensosys).
Proof.
  unfold _scan_available_ports.
  eapply post_bind; [apply post_true | intros _ _].
  destruct (Driver.scan_com_ports sensosys) as [ports|].
  - eapply post_bind; [apply post_true | intros _ _]. apply post_ret. reflexivity.
  - eapply post_bind; [apply post_true | intros; apply post_exit].
Qed.

Lemma post_configs_by_file file_name configs :
  post (fun r => keys (snd r) = keys configs)
       (_get_sensosys_configs_by_file B files file_name configs).
Proof.
  unfold _get_sensosys_configs_by_file.
  eapply post_bind; [apply post_true | intros _ _].
  destruct (files file_name) as [[v|l|doc]|].
  - apply post_raise.
  - apply post_raise.
  - destruct (same_key_set doc configs) eqn:Ek.
    + apply post_ret. simpl. apply keys_update_known.
      intros k Hk. exact (proj1 (proj1 (same_key_set_spec _ _) Ek k) Hk).
    + eapply post_bind; [apply post_true | intros _ _]. apply post_ret. reflexivity.
  - eapply post_bind; [apply post_true | intros _ _]. apply post_ret. reflexivity.
Qed.

Lemma post_init_configure cf od ports :
  post (fun cfg => keys cfg = config_keys)
       (init_configure B files cf od ports _sensosys_configs_default).
Proof.
  unfold init_configure. destruct cf as [file_name|].
  - eapply post_bind; [apply post_configs_by_file | intros r Hr].
    eapply post_bind; [apply post_true | intros _ _]. apply post_ret. exact Hr.
  - eapply post_bind; [apply guide_result | intros r [_ [line [b [_ Hr]]]]].
    eapply post_bind; [apply post_true | intros _ _]. apply post_ret.
    destruct r as [ok cfg]. simpl in Hr |- *. subst cfg. reflexivity.
Qed.

Lemma post_scan_devices ids :
  post (fun devs =>
          NoDup (keys devs) /\
          forall k, In k (keys devs) -> exists z, k = str_of_int z)
       (_scan_devices B sensosys ids).
Proof.
  intros w devs w' H.
  destruct (scan_devices_keys B sensosys _ _ _ _ H) as [H1 [_ H3]].
  split; [exact H1|]. intros k Hk. destruct (H3 k Hk) as [z [_ Hz]]. eauto.
Qed.

Lemma post_init_scan configs :
  post (fun devs =>
          NoDup (keys devs) /\
          forall k, In k (keys devs) -> exists z, k = str_of_int z)
       (init_scan B sensosys files load_missing configs).
Proof.
  unfold init_scan.
  do 5 (eapply post_bind; [apply post_true | intros ? _]).
  eapply post_bind.
  { match goal with |- context [if ?c then _ else _] => destruct c end.
    - unfold _scan_devices_by_file.
      eapply post_bind; [apply post_true | intros ? _].
      eapply post_bind; [apply post_true | intros ? _].
      apply post_scan_devices.
    - apply post_scan_devices. }
  intros devs Hd.
  eapply post_bind; [apply post_true | intros _ _]. apply post_ret. exact Hd.
Qed.

Lemma post_init_prepare cf od :
  post (fun r =>
          Driver.scan_com_ports sensosys = Some (fst (fst r)) /\
          keys (snd (fst r)) = config_keys /\
          NoDup (keys (snd r)) /\
          forall k, In k (keys (snd r)) -> exists z, k = str_of_int z)
       (init_prepare B sensosys files path_exists load_missing cf od).
Proof.
  unfold init_prepare.
  eapply post_bind; [apply post_true | intros _ _].
  eapply post_bind; [apply post_true | intros _ _].
  eapply post_bind; [apply post_scan_available_ports | intros ports Hp].
  eapply post_bind; [apply post_init_configure | intros cfg Hc].
  eapply post_bind; [apply post_init_scan | intros devs [Hd1 Hd2]].
  apply post_ret. simpl. split; [exact Hp|]. split; [exact Hc|].
  split; [exact Hd1 | exact Hd2].
Qed.

Lemma post_init_finish cf od ports configs devices :
  post (fun s =>
          devices <> [] /\
          exists l, devices_list_of devices = Val l /\
                    s = mkSelf cf od configs ports devices l)
       (init_finish B cf od ports configs devices).
Proof.
  unfold init_finish.
  eapply (post_bind (fun _ => devices <> [])).
  { destruct devices as [|d devices]; simpl.
    - eapply post_bind; [apply post_true | intros; apply post_exit].
    - intros w a w' _. discriminate. }
  intros _ Hne.
  eapply post_bind; [apply post_true | intros _ _].
  eapply post_bind.
  { apply (post_lift (fun l => devices_list_of devices = Val l)). auto. }
  intros l Hl. apply post_ret. split; [exact Hne|].
  exists l. split; [exact Hl | reflexivity].
Qed.

End Instance.

(** X11. The instance that [__init__] returns.  It keeps the two
    arguments and the ports the driver listed; its configuration has
    exactly the keys port, scan_by_file and time_out; it has at least one
    device and no address twice; its device list is the projection of its
    mapping, in the order of the mapping, and every key is the text of an
    address. *)
Theorem initialised_instance (B : Type) (sensosys : Driver.t B)
    (files : string -> option json) (path_exists : string -> bool)
    (load_missing : string -> res json)
    (cf od : option string) (w w' : world B) (s : self) :
  __init__ B sensosys files path_exists load_missing cf od w = (Ok s, w') ->
  sensosys_config_file s = cf /\
  output_dir s = od /\
  Driver.scan_com_ports sensosys = Some (available_ports s) /\
  keys (sensosys_configs s) = config_keys /\
  sensosys_devices s <> [] /\
  NoDup (keys (sensosys_devices s)) /\
  devices_list_of (sensosys_devices s) = Val (sensosys_devices_list s) /\
  entry_keys (sensosys_devices_list s) = keys (sensosys_devices s) /\
  Forall address_key (sensosys_devices_list s).
Proof.
  intros H. revert w s w' H.
  change (post (fun s =>
                  sensosys_config_file s = cf /\
                  output_dir s = od /\
                  Driver.scan_com_ports sensosys = Some (available_ports s) /\
                  keys (sensosys_configs s) = config_keys /\
                  sensosys_devices s <> [] /\
                  NoDup (keys (sensosys_devices s)) /\
                  devices_list_of (sensosys_devices s) = Val (sensosys_devices_list s) /\
                  entry_keys (sensosys_devices_list s) = keys (sensosys_devices s) /\
                  Forall address_key (sensosys_devices_list s))
               (__init__ B sensosys files path_exists load_missing cf od)).
  unfold __init__.
  eapply post_bind; [apply post_init_prepare | intros [[ports cfg] devs] Hr].
  simpl in Hr. destruct Hr as [Hp [Hc [Hn Hk]]]. simpl.
  eapply post_impl; [|apply post_init_finish].
  intros s [Hne [l [Hl ->]]]. simpl.
  pose proof (devices_list_of_keys _ _ Hl) as Hkeys.
  repeat split; auto.
  apply Forall_forall. intros dev Hdev.
  apply Hk. rewrite <- Hkeys. unfold entry_keys. apply in_map_iff.
  exists dev. auto.
Qed.

Lemma initialised_instance_witness :
  exists s,
    fst (__init__ nat Bench.driver Bench.ids_5_3 Bench.no_dirs Bench.not_found None (Some "Test")
           (Bench.start ["n"; "1"; "y"; "y"])) = Ok s /\
    sensosys_config_file s = None /\
    output_dir s = Some "Test" /\
    Driver.scan_com_ports Bench.driver = Some (available_ports s) /\
    keys (sensosys_configs s) = config_keys /\
    sensosys_devices s <> [] /\
    NoDup (keys (sensosys_devices s)) /\
    devices_list_of (sensosys_devices s) = Val (sensosys_devices_list s) /\
    entry_keys (sensosys_devices_list s) = keys (sensosys_devices s) /\
    Forall address_key (sensosys_devices_list s).
Proof.
  eexists. split; [vm_compute; reflexivity|].
  eapply (initialised_instance nat Bench.driver Bench.ids_5_3 Bench.no_dirs Bench.not_found None
            (Some "Test") (Bench.start ["n"; "1"; "y"; "y"])).
  vm_compute. reflexivity.
Defined.

End InstanceFacts.

(* ===================================================================== *)
(** * Upper case, lower case and trimming *)
(* ===================================================================== *)

Module TextFacts.

Import Py Eff Aux AuxX PyFacts EffFacts ScanFacts SensoSysDataSource.
Local Open Scope py_scope.

Lemma upper_char_idem (c : ascii) : upper_char (upper_char c) = upper_char c.
Proof. destruct c as [[] [] [] [] [] [] [] []]; reflexivity. Qed.

Lemma upper_char_space (c : ascii) : is_space (upper_char c) = is_space c.
Proof. destruct c as [[] [] [] [] [] [] [] []]; reflexivity. Qed.

Lemma lower_char_space (c : ascii) : is_space (lower_char c) = is_space c.
Proof. destruct c as [[] [] [] [] [] [] [] []]; reflexivity. Qed.

Lemma lower_upper_char (c : ascii) : lower_char (upper_char c) = lower_char c.
Proof. destruct c as [[] [] [] [] [] [] [] []]; reflexivity. Qed.

Section Smap.
Variable f : ascii -> ascii.
Hypothesis f_space : forall c, is_space (f c) = is_space c.

Lemma smap_lstrip (s : string) : smap f (lstrip s) = lstrip (smap f s).
Proof.
  induction s as [|c s IH]; simpl; [reflexivity|].
  rewrite f_space. destruct (is_space c); [exact IH | reflexivity].
Qed.

Lemma smap_rstrip (s : string) : smap f (rstrip s) = rstrip (smap f s).
Proof.
  induction s as [|c s IH]; simpl; [reflexivity|].
  rewrite <- IH, f_space.
  destruct (rstrip s) as [|c' r]; simpl; [|reflexivity].
  destruct (is_space c); reflexivity.
Qed.

Lemma smap_strip (s : string) : smap f (strip s) = strip (smap f s).
Proof. unfold strip. now rewrite smap_rstrip, smap_lstrip. Qed.

Lemma smap_blank (s : string) : blank (smap f s) = blank s.
Proof.
  unfold blank. induction s as [|c s IH]; simpl; [reflexivity|].
  now rewrite f_space, IH.
Qed.

End Smap.

Lemma smap_app (f : ascii -> ascii) (s t : string) :
  smap f (s ++ t) = (smap f s ++ smap f t)%string.
Proof. induction s as [|c s IH]; simpl; congruence. Qed.

Lemma upper_idem (s : string) : upper (upper s) = upper s.
Proof.
  unfold upper. induction s as [|c s IH]; simpl; [reflexivity|].
  now rewrite upper_char_idem, IH.
Qed.

Lemma lower_upper (s : string) : lower (upper s) = lower s.
Proof.
  unfold lower, upper. induction s as [|c s IH]; simpl; [reflexivity|].
  now rewrite lower_upper_char, IH.
Qed.

(** ** Trimming *)

Lemma lstrip_clean (s : string) : starts_clean (lstrip s).
Proof.
  induction s as [|c s IH]; simpl; [exact I|].
  destruct (is_space c) eqn:E; [exact IH | exact E].
Qed.

Lemma lstrip_of_clean (s : string) : starts_clean s -> lstrip s = s.
Proof. destruct s as [|c s]; simpl; [reflexivity|]. now intros ->. Qed.

Lemma rstrip_clean (s : string) : starts_clean s -> starts_clean (rstrip s).
Proof.
  destruct s as [|c s]; simpl; [auto|]. intros Hc.
  destruct (rstrip s); simpl; [rewrite Hc; exact Hc | exact Hc].
Qed.

Lemma rstrip_cons (c : ascii) (s : string) :
  rstrip (String c s)
  = match rstrip s with
    | EmptyString => if is_space c then EmptyString else String c EmptyString
    | r => String c r
    end.
Proof. reflexivity. Qed.

Lemma rstrip_idem (s : string) : rstrip (rstrip s) = rstrip s.
Proof.
  induction s as [|c s IH]; [reflexivity|].
  rewrite rstrip_cons.
  destruct (rstrip s) as [|c' r] eqn:E.
  - destruct (is_space c) eqn:Ec; [reflexivity|].
    rewrite rstrip_cons. simpl. now rewrite Ec.
  - rewrite rstrip_cons, IH. reflexivity.
Qed.

Lemma strip_idem (s : string) : strip (strip s) = strip s.
Proof.
  unfold strip.
  rewrite (lstrip_of_clean (rstrip (lstrip s)) (rstrip_clean _ (lstrip_clean s))).
  apply rstrip_idem.
Qed.

Lemma rstrip_blank (s : string) : blank s = true -> rstrip s = EmptyString.
Proof.
  unfold blank. induction s as [|c s IH]; simpl; [reflexivity|].
  intros H. apply andb_prop in H. destruct H as [Hc Hs].
  rewrite (IH Hs), Hc. reflexivity.
Qed.

Lemma rstrip_app_blank (s post : string) :
  blank post = true -> rstrip (s ++ post) = rstrip s.
Proof.
  intros Hb. induction s as [|c s IH]; simpl.
  - now apply rstrip_blank.
  - now rewrite IH.
Qed.

Lemma lstrip_blank_app (pre s : string) :
  blank pre = true -> lstrip (pre ++ s) = lstrip s.
Proof.
  unfold blank. induction pre as [|c pre IH]; simpl; [reflexivity|].
  intros H. apply andb_prop in H. destruct H as [Hc Hs]. now rewrite Hc, IH.
Qed.

Lemma strip_app_blank (s post : string) :
  blank post = true -> strip (s ++ post) = strip s.
Proof.
  intros Hb. unfold strip. induction s as [|c s IH]; simpl.
  - assert (Hl : lstrip post = EmptyString).
    { unfold blank in Hb. induction post as [|c post IH]; simpl;
        [reflexivity|].
      simpl in Hb. apply andb_prop in Hb. destruct Hb as [Hc Hp].
      rewrite Hc. exact (IH Hp). }
    now rewrite Hl.
  - destruct (is_space c); [exact IH|].
    change (String c (s ++ post)) with (String c s ++ post)%string.
    now apply rstrip_app_blank.
Qed.

Lemma strip_padded (pre s post : string) :
  blank pre = true -> blank post = true ->
  strip (pre ++ s ++ post) = strip s.
Proof.
  intros Hpre Hpost. unfold strip at 1.
  rewrite (lstrip_blank_app pre _ Hpre).
  exact (strip_app_blank s post Hpost).
Qed.

(** The answer after lower case and trimming *)
Lemma answer_normal_form (pre l post : string) :
  blank pre = true -> blank post = true ->
  strip (lower (pre ++ upper l ++ post)) = strip (lower l).
Proof.
  intros Hpre Hpost. unfold lower at 1. rewrite !smap_app.
  fold (lower pre) (lower (upper l)) (lower post). rewrite lower_upper.
  apply strip_padded; unfold lower; rewrite (smap_blank _ lower_char_space);
    assumption.
Qed.

Lemma name_normal_form (s : string) :
  upper (strip (upper s)) = strip (upper s) /\
  strip (strip (upper s)) = strip (upper s).
Proof.
  split; [|apply strip_idem].
  unfold upper at 1. rewrite (smap_strip _ upper_char_space).
  fold (upper (upper s)). now rewrite upper_idem.
Qed.

(** ** The names of the mapping *)

Section Names.
Context {B : Type}.
Variable sensosys : Driver.t B.

Lemma scan_address_names _id devs :
  names_kept sensosys ->
  post (fun devs' =>
          devs' = devs \/
          exists d, devs' = set_item (str_of_int _id) d devs /\ name_normalised d)
       (scan_address B sensosys _id devs).
Proof.
  intros Hk. unfold scan_address.
  eapply post_bind; [apply post_true | intros _ _].
  eapply post_bind; [apply post_true | intros [resp|] _].
  2: { apply post_ret. left. reflexivity. }
  eapply post_bind; [apply post_true | intros raw _].
  eapply post_bind; [apply post_true | intros s _].
  set (name := strip (upper s)).
  assert (H0 : name_is name (set_item "instrument_name" (VStr name) resp))
    by apply get_set_item_same.
  eapply post_bind; [apply post_true | intros _ _].
  eapply post_bind; [apply name_update_from; [apply Hk | exact H0] | intros d1 H1].
  eapply post_bind; [apply name_update_from; [apply Hk | exact H1] | intros d2 H2].
  eapply post_bind; [apply name_update_from; [apply Hk | exact H2] | intros d3 H3].
  eapply post_bind; [apply name_read_family; [exact Hk | exact H3] | intros d4 [H4 Hf]].
  eapply post_bind.
  { apply (post_lift (name_is name)). intros a Ha.
    eapply name_convert_calibration_date; eassumption. }
  intros d5 H5. apply post_ret. right. exists d5. split; [reflexivity|].
  exists name. split; [exact H5 | apply name_normal_form].
Qed.

Lemma scan_loop_names ids :
  names_kept sensosys ->
  forall devs, Forall (fun kv => name_normalised (snd kv)) devs ->
  post (Forall (fun kv => name_normalised (snd kv))) (scan_loop B sensosys ids devs).
Proof.
  intros Hk. induction ids as [|i ids IH]; intros devs Hd; simpl.
  - apply post_ret, Hd.
  - eapply post_bind; [apply scan_address_names, Hk|].
    intros devs' [->|[d [-> Hok]]]; apply IH; [exact Hd|].
    apply Forall_set_item; assumption.
Qed.

End Names.

(** X12. With a driver whose other reads do not answer with an instrument
    name: every instrument name of the mapping a scan returns is in normal
    form, upper case and trimmed, so that to put it in upper case or to trim
    it again changes nothing. *)
Theorem stored_names_normalised (B : Type) (sensosys : Driver.t B)
    (ids : list Z) (w w' : world B) (devs : dict (dict value)) :
  names_kept sensosys ->
  _scan_devices B sensosys ids w = (Ok devs, w') ->
  Forall (fun kv => name_normalised (snd kv)) devs.
Proof.
  intros Hk H.
  exact (scan_loop_names sensosys ids Hk [] (Forall_nil _) _ _ _ H).
Qed.

Lemma stored_names_normalised_witness :
  exists devs,
    fst (_scan_devices nat Bench.driver [5; 3; 7] (Bench.start [])) = Ok devs /\
    Forall (fun kv => name_normalised (snd kv)) devs.
Proof.
  eexists. split; [vm_compute; reflexivity|].
  eapply (stored_names_normalised nat Bench.driver [5; 3; 7] (Bench.start [])).
  - split; intros i b r b' H; unfold Bench.driver, Bench.tick in H; simpl in H;
      injection H as <- _; unfold Bench.calibration_at;
      repeat match goal with
             | |- context [if ?c then _ else _] => destruct c
             end; reflexivity.
  - vm_compute. reflexivity.
Defined.

(** X13. The answers to the questions answered by y or n are judged after
    lower case and trimming: an answer of ASCII text typed in upper case,
    with ASCII white space before and after it, has the effect of the
    answer itself (the same result or the same end of the process, the same
    messages). *)
Theorem yes_no_answer_normalised (B : Type) (prompt : string)
    (pre l post : string) (b : B) (rest : list string) (t : list event) :
  isascii l = true -> blank pre = true -> blank post = true ->
  ask_yes_no B prompt (mkWorld b ((pre ++ upper l ++ post)%string :: rest) t)
  = ask_yes_no B prompt (mkWorld b (l :: rest) t).
Proof.
  intros _ Hpre Hpost. unfold ask_yes_no, bind, input. simpl.
  rewrite (answer_normal_form pre l post Hpre Hpost). reflexivity.
Qed.

Lemma yes_no_answer_normalised_witness :
  ask_yes_no nat "Continue (y/n): "
    (mkWorld 0%nat [(" " ++ upper "y" ++ "  ")%string; "next"] [])
  = ask_yes_no nat "Continue (y/n): " (mkWorld 0%nat ["y"; "next"] []).
Proof.
  apply (yes_no_answer_normalised nat "Continue (y/n): " " " "y" "  " 0%nat
           ["next"] []); reflexivity.
Defined.

End TextFacts.

(* ===================================================================== *)
(** * The names of the header *)
(* ===================================================================== *)

Module HeaderFacts.

Import Py Eff Aux AuxX PyFacts SensoSysDataSource.

(** ** A name determines its parameter and its key *)

Lemma underscore_inside (a b : string) :
  no_underscore (a ++ String "_" b) = false.
Proof.
  unfold no_underscore. induction a as [|c a IH]; simpl; [reflexivity|].
  rewrite IH. apply andb_false_r.
Qed.

Lemma header_name_inj (k1 k2 p1 p2 : string) :
  no_underscore k1 = true -> no_underscore k2 = true ->
  header_name k1 p1 = header_name k2 p2 -> p1 = p2 /\ k1 = k2.
Proof.
  unfold header_name. intros H1 H2. revert p2.
  induction p1 as [|c p1 IH]; intros [|c' p2]; simpl; intros E.
  - injection E as ->. auto.
  - injection E as <- ->. rewrite underscore_inside in H1. discriminate.
  - injection E as -> <-. rewrite underscore_inside in H2. discriminate.
  - injection E as <- E. destruct (IH _ E) as [-> ->]. auto.
Qed.

Lemma no_underscore_uint (d : Decimal.uint) :
  no_underscore (NilEmpty.string_of_uint d) = true.
Proof. unfold no_underscore. induction d; simpl; auto. Qed.

Lemma no_underscore_str_of_int (z : Z) : no_underscore (str_of_int z) = true.
Proof.
  unfold str_of_int, NilZero.string_of_int, NilZero.string_of_uint.
  destruct (Z.to_int z) as [d|d]; destruct d; try reflexivity;
    try apply no_underscore_uint;
    (change (no_underscore (NilEmpty.string_of_uint _) = true)
     || (unfold no_underscore; simpl; fold (no_underscore (NilEmpty.string_of_uint d))));
    apply no_underscore_uint.
Qed.

Lemma header_names_NoDup (k : string) (ps : list string) :
  no_underscore k = true -> NoDup ps -> NoDup (map (header_name k) ps).
Proof.
  intros Hk. induction 1 as [|p ps Hnin _ IH]; simpl; constructor; [|exact IH].
  intros Hin. apply in_map_iff in Hin. destruct Hin as [q [Hq Hin]].
  apply (header_name_inj k k q p Hk Hk) in Hq. destruct Hq as [-> _]. contradiction.
Qed.

Section Header.
Context {B : Type}.
Variable sensosys : Driver.t B.
Hypothesis table_NoDup :
  forall cfg ps, Driver.senso_hygbar_sensor_config sensosys cfg = Some ps -> NoDup ps.

(** The names of one device are the header names of distinct parameters. *)
Lemma device_parameters_names dev P :
  device_parameters B sensosys dev = Val P ->
  exists ps, NoDup ps /\ P = map (header_name (fst (fst dev))) ps.
Proof.
  destruct dev as [[k _name] cfg]. unfold device_parameters, hygbar_params. simpl.
  destruct _name as [| | | |name]; simpl; try discriminate.
  destruct (startswith name "ANEMO").
  { intros H. injection H as <-. exists ["t_a"; "v"; "vstar"].
    split; [|reflexivity]. repeat constructor; simpl; intuition discriminate. }
  destruct (startswith name "THERM").
  { intros H. injection H as <-. exists ["t_a"; "t_g"; "t_w"; "t_s"].
    split; [|reflexivity]. repeat constructor; simpl; intuition discriminate. }
  destruct (startswith name "HYGRO"); [|discriminate].
  destruct (Driver.senso_hygbar_sensor_config sensosys cfg) as [ps|] eqn:Et;
    simpl; [|discriminate].
  intros H. injection H as <-. exists ps. split; [eapply table_NoDup; eauto|].
  reflexivity.
Qed.

Lemma parameters_loop_names devs :
  forall acc params,
    parameters_loop B sensosys devs acc = Val params ->
    Forall address_key devs ->
    NoDup (entry_keys devs) ->
    exists P,
      params = acc ++ P /\ NoDup P /\
      forall n, In n P ->
        exists dev p, In dev devs /\ n = header_name (fst (fst dev)) p.
Proof.
  induction devs as [|dev devs IH]; intros acc params H Hk Hnd; simpl in H.
  - injection H as <-. exists []. rewrite app_nil_r.
    split; [reflexivity|]. split; [constructor | intros n []].
  - destruct (device_parameters B sensosys dev) as [P0|] eqn:EP;
      simpl in H; [|discriminate].
    inversion Hk as [|? ? [z Hz] Hk']; subst.
    simpl in Hnd. inversion Hnd as [|? ? Hnin Hnd']; subst.
    destruct (IH _ _ H Hk' Hnd') as [P [-> [HP Hnames]]].
    destruct (device_parameters_names _ _ EP) as [ps [Hps ->]].
    exists (map (header_name (fst (fst dev))) ps ++ P).
    split; [now rewrite app_assoc|]. split.
    + apply NoDup_app.
      * apply header_names_NoDup; [|exact Hps].
        rewrite Hz. apply no_underscore_str_of_int.
      * exact HP.
      * intros n Hn1 Hn2. apply in_map_iff in Hn1. destruct Hn1 as [p [<- _]].
        destruct (Hnames _ Hn2) as [dev' [p' [Hdev' Heq]]].
        rewrite Forall_forall in Hk'. destruct (Hk' dev' Hdev') as [z' Hz'].
        apply header_name_inj in Heq.
        -- destruct Heq as [_ Heq]. apply Hnin. rewrite Heq.
           unfold entry_keys. apply in_map_iff. exists dev'. auto.
        -- rewrite Hz. apply no_underscore_str_of_int.
        -- rewrite Hz'. apply no_underscore_str_of_int.
    + intros n Hn. apply in_app_or in Hn. destruct Hn as [Hn|Hn].
      * apply in_map_iff in Hn. destruct Hn as [p [<- _]].
        exists dev, p. split; [now left | reflexivity].
      * destruct (Hnames _ Hn) as [dev' [p' [Hd He]]].
        exists dev', p'. split; [now right | exact He].
Qed.

End Header.

(** X14. The header has no name twice when the device list has no key
    twice, its keys are the texts of addresses (as after [__init__]) and no
    sensor configuration of the table of the driver lists a parameter
    twice; every name of the header is a parameter, an underscore and the
    key of a device of the list. *)
Theorem header_names_distinct (B : Type) (sensosys : Driver.t B) (s : self)
    (params : list string) :
  (forall cfg ps,
      Driver.senso_hygbar_sensor_config sensosys cfg = Some ps -> NoDup ps) ->
  Forall address_key (sensosys_devices_list s) ->
  NoDup (entry_keys (sensosys_devices_list s)) ->
  get_all_measurement_parameters B sensosys s = Val params ->
  NoDup params /\
  forall n, In n params ->
    exists dev p, In dev (sensosys_devices_list s) /\
                  n = (p ++ "_" ++ fst (fst dev))%string.
Proof.
  intros Ht Hk Hnd H.
  destruct (parameters_loop_names sensosys Ht _ _ _ H Hk Hnd) as [P [-> [HP Hn]]].
  simpl. split; [exact HP | exact Hn].
Qed.

Lemma header_names_distinct_witness :
  exists params,
    get_all_measurement_parameters nat Bench.driver Bench.source = Val params /\
    NoDup params /\
    forall n, In n params ->
      exists dev p, In dev (sensosys_devices_list Bench.source) /\
                    n = (p ++ "_" ++ fst (fst dev))%string.
Proof.
  eexists. split; [vm_compute; reflexivity|].
  apply (header_names_distinct nat Bench.driver Bench.source).
  - intros cfg ps H. unfold Bench.driver, Bench.hygbar_table in H. simpl in H.
    repeat match type of H with
           | context [match ?x with _ => _ end] => destruct x
           end;
      try discriminate H; injection H as <-;
      repeat constructor; simpl; intuition discriminate.
  - repeat constructor;
      [exists 5 | exists 7 | exists 3]; reflexivity.
  - repeat constructor; simpl; intuition discriminate.
  - vm_compute. reflexivity.
Defined.

End HeaderFacts.
